(** * W5500 driver: bus framing, register access and socket life cycle

    A shallow embedding of [SpiFrame.cpp] and [W5500.cpp].  The driver talks
    to the chip only through full-duplex SPI byte exchanges, a chip-select
    pin and the millisecond clock, so the chip is an arbitrary state machine
    reacting to bytes ([Platform]), and every driver routine is a function
    on a [World] holding the chip state, the clock and a log of what the
    driver did.

    Conventions.  Integers are [Z] with the conversions of the C++ types
    written out ([u8], [u16], [u32]).  A buffer is a [list Z] of bytes.  The
    clock counts milliseconds and moves only in [delay]; a bus window takes
    no time on it.  Timeouts are the milliseconds that [wait_for_value]
    computes from its [float] argument.  The log ([trace]) is kept by the
    model, not by the driver: one [Bus] entry per chip-select window, one
    [Delay] per [delay], one [Poll] per entry into [wait_for_value]. *)

From Stdlib Require Import ZArith List Bool Lia.
Import ListNotations.
Local Open Scope Z_scope.

(** ** Fixed-width unsigned integers *)

Definition u8 (x : Z) : Z := x mod 256.
Definition u16 (x : Z) : Z := x mod 65536.
(** [unsigned long] of the Arduino targets *)
Definition u32 (x : Z) : Z := x mod 4294967296.

(** ** SpiFrame.h: frame descriptor *)

Module SpiFrame.

Inductive BlockSelect := CommonReg | SocketReg | TxBuffer | RxBuffer.
Inductive ReadWrite := Read | Write.

Definition bsb_val (b : BlockSelect) : Z :=
  match b with CommonReg => 0 | SocketReg => 1 | TxBuffer => 2 | RxBuffer => 3 end.
Definition rw_val (d : ReadWrite) : Z :=
  match d with Read => 0 | Write => 1 end.

Record Frame := mkFrame {
  offset_addr : Z;      (* uint16_t *)
  socket_n : Z;         (* uint8_t *)
  bsb : BlockSelect;
  rw : ReadWrite
}.

Definition bsb_eqb (a b : BlockSelect) : bool := bsb_val a =? bsb_val b.
Definition rw_eqb (a b : ReadWrite) : bool := rw_val a =? rw_val b.
Definition frame_eqb (f g : Frame) : bool :=
  (offset_addr f =? offset_addr g) && (socket_n f =? socket_n g)
  && bsb_eqb (bsb f) (bsb g) && rw_eqb (rw f) (rw g).

(** The byte handed to [SPI.transfer] in [SpiFrame::transfer]:
    [(frame.socket_n<<2 | frame.bsb) << 3 | frame.rw << 2], computed in
    [int] and converted to [uint8_t] by the call. *)
Definition control_expr (f : Frame) : Z :=
  Z.lor (Z.shiftl (Z.lor (Z.shiftl (socket_n f) 2) (bsb_val (bsb f))) 3)
        (Z.shiftl (rw_val (rw f)) 2).
Definition control_byte (f : Frame) : Z := u8 (control_expr f).

(** [SPI.transfer16] under [MSBFIRST] clocks the high byte, then the low
    byte, of its [uint16_t] argument. *)
Definition transfer16_bytes (v : Z) : list Z :=
  [Z.shiftr (u16 v) 8; Z.land (u16 v) 255].

Definition header (f : Frame) : list Z :=
  transfer16_bytes (offset_addr f) ++ [control_byte f].

End SpiFrame.

(** ** The platform under the driver *)

(** What the Arduino core and the chip on the bus provide.  [SPI_transfer]
  is one full-duplex byte exchange: the byte shifted out and the chip
  state before, the byte shifted in and the chip state after.
  [indeterminate] is the content of an uninitialised [uint8_t] local (the
  read helpers pass such a byte to [transfer]). *)
Class Platform := {
  Dev : Type;
  digitalWrite_cs : bool -> Dev -> Dev;
  SPI_transfer : Z -> Dev -> Z * Dev;
  indeterminate : Z
}.

Inductive Event :=
| Bus (f : SpiFrame.Frame) (hdr out inn : list Z)
    (* one chip-select window: header and data bytes shifted out, data
       bytes shifted in *)
| Delay (ms : Z)
| Poll (f : SpiFrame.Frame) (mask value timeout_ms : Z).
    (* an entry into [wait_for_value] *)

Section Driver.

Context {P : Platform}.

(** [trace] is newest first. *)
Record World := mkWorld {
  dev : Dev;
  clock : Z;            (* milliseconds since start, unbounded *)
  trace : list Event
}.

(** State passing with failure; [None] only ever means that a loop ran
    out of fuel. *)
Definition M (A : Type) : Type := World -> option (A * World).

Definition ret {A} (a : A) : M A := fun w => Some (a, w).
Definition bind {A B} (m : M A) (k : A -> M B) : M B :=
  fun w => match m w with
           | Some (a, w1) => k a w1
           | None => None
           end.

End Driver.

Declare Scope drv_scope.
Delimit Scope drv_scope with drv.
Notation "x <- m ;; k" := (bind m (fun x => k))
  (at level 61, m at next level, right associativity) : drv_scope.
Notation "m ;; k" := (bind m (fun _ => k))
  (at level 61, right associativity) : drv_scope.

Module SpiFrameImpl.
Section WithPlatform.

Context {P : Platform}.
Import SpiFrame.
Local Open Scope drv_scope.

Definition millis : M Z := fun w => Some (u32 (clock w), w).

Definition delay (ms : Z) : M unit := fun w =>
  Some (tt, {| dev := dev w; clock := clock w + ms; trace := Delay ms :: trace w |}).

Definition log (e : Event) : M unit := fun w =>
  Some (tt, {| dev := dev w; clock := clock w; trace := e :: trace w |}).

(** [SPI.transfer(buf, n)] and the single-byte calls: byte by byte, in
    order; what comes back is a [uint8_t]. *)
Fixpoint shift (bytes : list Z) (d : Dev) : list Z * Dev :=
  match bytes with
  | [] => ([], d)
  | b :: bs =>
      let '(r, d1) := SPI_transfer b d in
      let '(rs, d2) := shift bs d1 in
      (u8 r :: rs, d2)
  end.

(** One chip-select window on the chip: header, then the data bytes. *)
Definition exchange (frame : Frame) (out : list Z) (d : Dev) : list Z * Dev :=
  let d0 := digitalWrite_cs false d in
  let '(_, d1) := shift (header frame) d0 in
  let '(inn, d2) := shift out d1 in
  (inn, digitalWrite_cs true d2).

(** [SpiFrame::transfer].  [data] is the caller's buffer; the result is
    the buffer afterwards. *)
Definition transfer (frame : Frame) (data : list Z) (len : Z) : M (list Z) :=
  fun w =>
    let out := firstn (Z.to_nat len) data in
    let '(inn, d) := exchange frame out (dev w) in
    Some (inn ++ skipn (Z.to_nat len) data,
          {| dev := d; clock := clock w;
             trace := Bus frame (header frame) out inn :: trace w |}).

(** The [while] loop of [wait_for_value]; [limit] is
    [static_cast<unsigned long>(timeout_seconds * 1000)]. *)
Fixpoint wait_loop (fuel : nat) (frame : Frame) (mask value : Z)
         (start_time limit : Z) : M bool :=
  match fuel with
  | O => fun _ => None
  | S fuel' =>
      now <- millis ;;
      if u32 (now - start_time) <? limit then
        data <- transfer frame [indeterminate] 1 ;;
        if Z.land (nth 0 data 0) mask =? value then ret true
        else delay 1 ;; wait_loop fuel' frame mask value start_time limit
      else ret false
  end.

(** [SpiFrame::wait_for_value], the timeout given in milliseconds.  The
    guard is evaluated at most [timeout_ms + 1] times, since every round
    that does not return delays by a millisecond. *)
Definition wait_for_value (frame : Frame) (mask value : Z) (timeout_ms : Z)
  : M bool :=
  log (Poll frame mask value timeout_ms) ;;
  start_time <- millis ;;
  wait_loop (S (Z.to_nat timeout_ms)) frame mask value start_time timeout_ms.

End WithPlatform.
End SpiFrameImpl.

(** ** W5500.h: enumerations and constants *)

Module W5500.

Inductive SocketMode := TCP_Server | TCP_Client | UDP.

Inductive SocketStatus :=
| Closed | UDP_Open | TCP_Listen | TCP_Connected | Temporary.

Module CommonOffsetAddr.
Definition mode_register : Z := 0x0000.
Definition gateway_ip : Z := 0x0001.
Definition subnet_mask : Z := 0x0005.
Definition source_mac : Z := 0x0009.
Definition source_ip : Z := 0x000F.
Definition phy_config : Z := 0x002E.
Definition versionr : Z := 0x0039.
End CommonOffsetAddr.

Module SocketOffsetAddr.
Definition mode_register : Z := 0x0000.
Definition command_register : Z := 0x0001.
Definition status_register : Z := 0x0003.
Definition source_port : Z := 0x0004.
Definition destination_mac : Z := 0x0006.
Definition destination_ip : Z := 0x000C.
Definition destination_port : Z := 0x0010.
Definition rxbuf_size : Z := 0x001E.
Definition txbuf_size : Z := 0x001F.
Definition tx_free_size : Z := 0x0020.
Definition tx_read_pointer : Z := 0x0022.
Definition tx_write_pointer : Z := 0x0024.
Definition rx_received_size : Z := 0x0026.
Definition rx_read_pointer : Z := 0x0028.
Definition rx_write_pointer : Z := 0x002A.
End SocketOffsetAddr.

Inductive SocketCommandReg :=
| OPEN | LISTEN | CONNECT | DISCONNECT | CLOSE | SEND | RECV.

Definition command_val (c : SocketCommandReg) : Z :=
  match c with
  | OPEN => 0x01 | LISTEN => 0x02 | CONNECT => 0x04 | DISCONNECT => 0x08
  | CLOSE => 0x10 | SEND => 0x20 | RECV => 0x40
  end.

Inductive SocketStatusReg :=
| SOCK_CLOSED | SOCK_INIT | SOCK_LISTEN | SOCK_ESTABLISHED
| SOCK_CLOSE_WAIT | SOCK_UDP.

Definition status_val (s : SocketStatusReg) : Z :=
  match s with
  | SOCK_CLOSED => 0x00 | SOCK_INIT => 0x13 | SOCK_LISTEN => 0x14
  | SOCK_ESTABLISHED => 0x17 | SOCK_CLOSE_WAIT => 0x1C | SOCK_UDP => 0x22
  end.

(** The cast [(SocketStatusReg)byte] followed by a [switch]: a byte that
    is no enumerator falls to [default], here [None]. *)
Definition status_of_byte (b : Z) : option SocketStatusReg :=
  if b =? 0x00 then Some SOCK_CLOSED
  else if b =? 0x13 then Some SOCK_INIT
  else if b =? 0x14 then Some SOCK_LISTEN
  else if b =? 0x17 then Some SOCK_ESTABLISHED
  else if b =? 0x1C then Some SOCK_CLOSE_WAIT
  else if b =? 0x22 then Some SOCK_UDP
  else None.

Definition socket_mode_register_default : Z := 0x40.

(** [socket_timeout = 3.0] seconds; [wait_for_value] turns it into
    [static_cast<unsigned long>(3.0 * 1000)] milliseconds. *)
Definition socket_timeout : Z := 3000.

Section WithPlatform.

Context {P : Platform}.
Import SpiFrame SpiFrameImpl.
Local Open Scope drv_scope.

(** *** Register operations *)

Definition commonReg (offset : Z) (write : bool) (data : list Z) (len : Z)
  : M (list Z) :=
  transfer (mkFrame offset 0 CommonReg (if write then Write else Read)) data len.

Definition socketReg (socket_n : Z) (offset : Z) (write : bool)
           (data : list Z) (len : Z) : M (list Z) :=
  transfer (mkFrame offset socket_n SocketReg (if write then Write else Read))
           data len.

Definition wrCommonReg (offset : Z) (data : Z) : M unit :=
  commonReg offset true [u8 data] 1 ;; ret tt.

Definition rdCommonReg (offset : Z) : M Z :=
  data <- commonReg offset false [indeterminate] 1 ;;
  ret (nth 0 data 0).

Definition wrSocketReg (socket_n : Z) (offset : Z) (data : Z) : M unit :=
  socketReg socket_n offset true [u8 data] 1 ;; ret tt.

Definition wrSocketReg16 (socket_n : Z) (offset : Z) (data : Z) : M unit :=
  let data := u16 data in
  socketReg socket_n offset true [u8 (Z.shiftr data 8); u8 (Z.land data 0xFF)] 2 ;;
  ret tt.

Definition rdSocketReg (socket_n : Z) (offset : Z) : M Z :=
  data <- socketReg socket_n offset false [indeterminate] 1 ;;
  ret (nth 0 data 0).

Definition rdSocketReg16 (socket_n : Z) (offset : Z) : M Z :=
  data <- socketReg socket_n offset false [indeterminate; indeterminate] 2 ;;
  ret (u16 (Z.lor (Z.shiftl (nth 0 data 0) 8) (nth 1 data 0))).

(** The [for] loop of [rdSocketReg16_atomic]; [left] counts the rounds
    still to go, [tries] is the loop variable. *)
Fixpoint atomic_loop (left : nat) (socket_n offset : Z) (tries last_value : Z)
  : M Z :=
  match left with
  | O => ret 0
  | S left' =>
      value <- rdSocketReg16 socket_n offset ;;
      if (1 <=? tries) && (value =? last_value) then ret value
      else atomic_loop left' socket_n offset (tries + 1) value
  end.

Definition max_tries : nat := 20.

Definition rdSocketReg16_atomic (socket_n : Z) (offset : Z) : M Z :=
  atomic_loop max_tries socket_n offset 0 0.

(** *** Socket commands and status *)

Definition socketCommand (socket_n : Z) (command : SocketCommandReg) : M unit :=
  wrSocketReg socket_n SocketOffsetAddr.command_register (command_val command).

Definition socketStatusReg (socket_n : Z) : M Z :=
  rdSocketReg socket_n SocketOffsetAddr.status_register.

Definition waitSocketStatus (socket_n : Z) (status : SocketStatusReg)
           (timeout : Z) : M bool :=
  wait_for_value
    (mkFrame SocketOffsetAddr.status_register socket_n SocketReg Read)
    0xFF (u8 (status_val status)) timeout.

(** *** Socket management *)

Definition socketClose (socket_n : Z) : M unit :=
  raw <- socketStatusReg socket_n ;;
  match status_of_byte raw with
  | Some SOCK_CLOSED => ret tt
  | Some SOCK_ESTABLISHED | Some SOCK_CLOSE_WAIT =>
      socketCommand socket_n DISCONNECT ;;
      closed <- waitSocketStatus socket_n SOCK_CLOSED socket_timeout ;;
      if closed then ret tt
      else socketCommand socket_n CLOSE
  | _ => socketCommand socket_n CLOSE
  end.

(** The first [switch] of [socketOpen] sets [mode_value] and, for the TCP
    modes, [second_command] and [expected_state]; the second [switch]
    waits.  [tcp_sequence] is the TCP case of the second switch with the two
    variables as arguments; [true] stands for the [return true] inside the
    switch, [false] for leaving it by [break]. *)
Definition mode_value (mode : SocketMode) : Z :=
  match mode with
  | TCP_Server | TCP_Client => u8 (Z.lor socket_mode_register_default 0x01)
  | UDP => u8 (Z.lor socket_mode_register_default 0x02)
  end.

Definition tcp_sequence (socket_n : Z) (second_command : SocketCommandReg)
           (expected_state : SocketStatusReg) : M bool :=
  init <- waitSocketStatus socket_n SOCK_INIT socket_timeout ;;
  if init then
    socketCommand socket_n second_command ;;
    waitSocketStatus socket_n expected_state socket_timeout
  else ret false.

Definition open_sequence (socket_n : Z) (mode : SocketMode) : M bool :=
  match mode with
  | UDP => waitSocketStatus socket_n SOCK_UDP socket_timeout
  | TCP_Server => tcp_sequence socket_n LISTEN SOCK_LISTEN
  | TCP_Client => tcp_sequence socket_n CONNECT SOCK_ESTABLISHED
  end.

Definition socketOpen (socket_n : Z) (mode : SocketMode) : M bool :=
  phy <- rdCommonReg CommonOffsetAddr.phy_config ;;
  if Z.land phy 0x01 =? 0 then ret false
  else
    socketClose socket_n ;;
    wrSocketReg socket_n SocketOffsetAddr.mode_register (mode_value mode) ;;
    socketCommand socket_n OPEN ;;
    ok <- open_sequence socket_n mode ;;
    if ok then ret true
    else socketClose socket_n ;; ret false.

Definition socketKeepOpen (socket_n : Z) (mode : SocketMode) : M unit :=
  raw <- socketStatusReg socket_n ;;
  match status_of_byte raw with
  | Some SOCK_CLOSED | Some SOCK_INIT => socketOpen socket_n mode ;; ret tt
  | Some SOCK_LISTEN | Some SOCK_ESTABLISHED => ret tt
  | Some SOCK_CLOSE_WAIT => socketCommand socket_n DISCONNECT
  | Some SOCK_UDP => ret tt
  | None => ret tt
  end.

Definition socketStatus (socket_n : Z) : M SocketStatus :=
  raw <- socketStatusReg socket_n ;;
  match status_of_byte raw with
  | Some SOCK_CLOSED => ret Closed
  | Some SOCK_INIT => socketCommand socket_n CLOSE ;; ret Closed
  | Some SOCK_LISTEN => ret TCP_Listen
  | Some SOCK_ESTABLISHED => ret TCP_Connected
  | Some SOCK_CLOSE_WAIT => socketCommand socket_n DISCONNECT ;; ret Closed
  | Some SOCK_UDP => ret UDP_Open
  | None => ret Temporary
  end.

Definition socketConnected (socket_n : Z) : M bool :=
  st <- socketStatus socket_n ;;
  match st with
  | TCP_Connected | UDP_Open => ret true
  | _ => ret false
  end.

(** *** Send and receive *)

Definition sendAvailable (socket_n : Z) : M Z :=
  c <- socketConnected socket_n ;;
  if c then rdSocketReg16_atomic socket_n SocketOffsetAddr.tx_free_size
  else ret 0.

Definition receiveAvailable (socket_n : Z) : M Z :=
  c <- socketConnected socket_n ;;
  if c then rdSocketReg16_atomic socket_n SocketOffsetAddr.rx_received_size
  else ret 0.

(** [send] and [receive] give back the returned length and the caller's
    buffer as the bus exchange left it. *)
Definition send (socket_n : Z) (data : list Z) (len : Z) : M (Z * list Z) :=
  avail <- sendAvailable socket_n ;;
  let len := Z.min len avail in
  if len =? 0 then ret (0, data)
  else
    write_pointer <- rdSocketReg16 socket_n SocketOffsetAddr.tx_write_pointer ;;
    data1 <- transfer (mkFrame write_pointer socket_n TxBuffer Write) data len ;;
    wrSocketReg16 socket_n SocketOffsetAddr.tx_write_pointer (write_pointer + len) ;;
    socketCommand socket_n SEND ;;
    ret (len, data1).

Definition receive (socket_n : Z) (data : list Z) (len : Z)
           (udpIgnoreHeader : bool) : M (Z * list Z) :=
  avail <- receiveAvailable socket_n ;;
  let len := Z.min len avail in
  if len =? 0 then ret (0, data)
  else
    read_pointer <- rdSocketReg16 socket_n SocketOffsetAddr.rx_read_pointer ;;
    let payload (read_pointer len : Z) : M (Z * list Z) :=
      data1 <- transfer (mkFrame read_pointer socket_n RxBuffer Read) data len ;;
      wrSocketReg16 socket_n SocketOffsetAddr.rx_read_pointer (read_pointer + len) ;;
      socketCommand socket_n RECV ;;
      ret (len, data1) in
    if udpIgnoreHeader then
      if len <? 8 then ret (0, data)
      else
        udp_header <- transfer (mkFrame read_pointer socket_n RxBuffer Read)
                               (repeat indeterminate 8) 8 ;;
        let len := u16 (Z.min (len - 8)
                     (Z.lor (Z.shiftl (nth 6 udp_header 0) 8) (nth 7 udp_header 0))) in
        payload (u16 (read_pointer + 8)) len
    else payload read_pointer len.

End WithPlatform.
End W5500.

(** ** W5500.cpp: addresses, ports, buffer sizes and chip status *)

Module W5500Config.

Inductive InterfaceAddress := GatewayIP | SubnetMask | SourceIP | SourceMAC.
Inductive SocketAddress := DestinationIP | DestinationMAC.
Inductive SocketPort := SourcePort | DestinationPort.

(** [sizeof(IP_t)] and [sizeof(MAC_t)] *)
Definition sizeof_IP_t : Z := 4.
Definition sizeof_MAC_t : Z := 6.

(** The first [switch] of [regInterfaceAddress] and of [regSocketAddress]:
    register address and size of the selected field.  The [default:
    return] of the source is for values outside the enumeration. *)
Definition interface_field (select : InterfaceAddress) : Z * Z :=
  match select with
  | GatewayIP => (W5500.CommonOffsetAddr.gateway_ip, sizeof_IP_t)
  | SubnetMask => (W5500.CommonOffsetAddr.subnet_mask, sizeof_IP_t)
  | SourceIP => (W5500.CommonOffsetAddr.source_ip, sizeof_IP_t)
  | SourceMAC => (W5500.CommonOffsetAddr.source_mac, sizeof_MAC_t)
  end.

Definition socket_field (select : SocketAddress) : Z * Z :=
  match select with
  | DestinationIP => (W5500.SocketOffsetAddr.destination_ip, sizeof_IP_t)
  | DestinationMAC => (W5500.SocketOffsetAddr.destination_mac, sizeof_MAC_t)
  end.

Section WithPlatform.

Context {P : Platform}.
Import SpiFrame SpiFrameImpl W5500.
Local Open Scope drv_scope.

(** [len] and [offset] are [uint8_t]; [max_len] is an [int].  The result
    is the caller's buffer afterwards. *)
Definition regInterfaceAddress (select : InterfaceAddress) (write : bool)
           (data : list Z) (len offset : Z) : M (list Z) :=
  let '(socket_addr, max_len) := interface_field select in
  let max_len := max_len - offset in
  if max_len <=? 0 then ret data
  else
    let len := Z.min len (u8 max_len) in
    commonReg (socket_addr + offset) write data len.

Definition regSocketAddress (socket_n : Z) (select : SocketAddress)
           (write : bool) (data : list Z) (len offset : Z) : M (list Z) :=
  let '(socket_addr, max_len) := socket_field select in
  let max_len := max_len - offset in
  if max_len <=? 0 then ret data
  else
    let len := Z.min len (u8 max_len) in
    socketReg socket_n (socket_addr + offset) write data len.

(** [memcpy(buffer, src, n)] into a fresh local array of [n] bytes. *)
Definition memcpy (src : list Z) (n : Z) : list Z := firstn (Z.to_nat n) src.

Definition setInterfaceNetwork (source_ip subnet_mask gateway : list Z)
  : M unit :=
  regInterfaceAddress SourceIP true (memcpy source_ip sizeof_IP_t)
                      sizeof_IP_t 0 ;;
  regInterfaceAddress SubnetMask true (memcpy subnet_mask sizeof_IP_t)
                      sizeof_IP_t 0 ;;
  regInterfaceAddress GatewayIP true (memcpy gateway sizeof_IP_t)
                      sizeof_IP_t 0 ;;
  ret tt.

Definition setInterfaceMAC (source_mac : list Z) : M unit :=
  regInterfaceAddress SourceMAC true (memcpy source_mac sizeof_MAC_t)
                      sizeof_MAC_t 0 ;;
  ret tt.

Definition setSocketSource (socket_n : Z) (source_port : Z) : M unit :=
  wrSocketReg16 socket_n SocketOffsetAddr.source_port source_port.

Definition setSocketDest (socket_n : Z) (dest_ip : list Z) (dest_port : Z)
  : M unit :=
  regSocketAddress socket_n DestinationIP true (memcpy dest_ip sizeof_IP_t)
                   sizeof_IP_t 0 ;;
  wrSocketReg16 socket_n SocketOffsetAddr.destination_port dest_port.

Definition getSocketPort (socket_n : Z) (select : SocketPort) : M Z :=
  match select with
  | SourcePort => rdSocketReg16 socket_n SocketOffsetAddr.source_port
  | DestinationPort => rdSocketReg16 socket_n SocketOffsetAddr.destination_port
  end.

Definition setBufferSizeRx (socket_n : Z) (buff_size_kB : Z) : M unit :=
  wrSocketReg socket_n SocketOffsetAddr.rxbuf_size buff_size_kB.

Definition setBufferSizeTx (socket_n : Z) (buff_size_kB : Z) : M unit :=
  wrSocketReg socket_n SocketOffsetAddr.txbuf_size buff_size_kB.

Definition getBufferSizeRx (socket_n : Z) : M Z :=
  rdSocketReg socket_n SocketOffsetAddr.rxbuf_size.

Definition getBufferSizeTx (socket_n : Z) : M Z :=
  rdSocketReg socket_n SocketOffsetAddr.txbuf_size.

Definition phyStatus : M Z :=
  v <- rdCommonReg CommonOffsetAddr.phy_config ;;
  ret (Z.land v 0x07).

Definition chipVersion : M Z :=
  rdCommonReg CommonOffsetAddr.versionr.

End WithPlatform.
End W5500Config.

(** ** Test chips

    Concrete platforms to run the driver on; they are test doubles, not
    part of the driver.  [regfile] and [chip] decode the W5500
    wire format (two address bytes, a control byte whose upper five bits
    select the block and whose bit 2 is the write flag, then data bytes at
    consecutive addresses).  [regfile] is a plain register file: a read
    gives the byte last written.  [chip] also reacts to the command
    register of a socket the way the data sheet describes the commands the
    driver uses. *)

Module Mock.

Record Chip := mkChip {
  hdr : list Z;          (* header bytes of the open window, in order *)
  addr : Z;              (* address of the next data byte *)
  mem : Z -> Z -> Z      (* block -> offset -> byte *)
}.

Definition store (m : Z -> Z -> Z) (blk a v : Z) : Z -> Z -> Z :=
  fun b x => if (b =? blk) && (x =? a) then v else m b x.

Definition select (level : bool) (c : Chip) : Chip :=
  if level then c else mkChip [] 0 (mem c).

(** What a write of [v] at [a] in block [blk] does besides being stored. *)
Definition Reaction : Type := Z -> Z -> Z -> (Z -> Z -> Z) -> (Z -> Z -> Z).

Definition no_reaction : Reaction := fun _ _ _ m => m.

(** Socket register blocks have block bits [..01]; offset 1 is the command
    register, offset 3 the status register, offset 0 the mode register. *)
Definition command_reaction : Reaction := fun blk a v m =>
  if (Z.land blk 3 =? 1) && (a =? 1) then
    let st := m blk 3 in
    let st' :=
      if v =? 0x01 then
        (if Z.land (m blk 0) 0x0F =? 1 then 0x13
         else if Z.land (m blk 0) 0x0F =? 2 then 0x22 else st)
      else if v =? 0x02 then (if st =? 0x13 then 0x14 else st)
      else if v =? 0x04 then (if st =? 0x13 then 0x17 else st)
      else if v =? 0x08 then 0x00
      else if v =? 0x10 then 0x00
      else st in
    store (store m blk 3 st') blk 1 0
  else m.

Definition byte (react : Reaction) (b : Z) (c : Chip) : Z * Chip :=
  match hdr c with
  | [_; _; ctl] =>
      let blk := Z.shiftr ctl 3 in
      if Z.testbit ctl 2 then
        (0, mkChip (hdr c) (u16 (addr c + 1))
                   (react blk (addr c) b (store (mem c) blk (addr c) b)))
      else
        (mem c blk (addr c), mkChip (hdr c) (u16 (addr c + 1)) (mem c))
  | h =>
      let h' := h ++ [b] in
      (0, mkChip h'
                 (match h' with [a1; a0; _] => a1 * 256 + a0 | _ => 0 end)
                 (mem c))
  end.

Definition regfile : Platform :=
  {| Dev := Chip; digitalWrite_cs := select;
     SPI_transfer := byte no_reaction; indeterminate := 0 |}.

Definition chip : Platform :=
  {| Dev := Chip; digitalWrite_cs := select;
     SPI_transfer := byte command_reaction; indeterminate := 0 |}.

(** A chip on which DISCONNECT has no effect (as when the peer never
    answers the FIN) and which otherwise reacts like [chip]. *)
Definition deaf_reaction : Reaction := fun blk a v m =>
  if (Z.land blk 3 =? 1) && (a =? 1) && (v =? 0x08) then store m blk 1 0
  else command_reaction blk a v m.

Definition deaf : Platform :=
  {| Dev := Chip; digitalWrite_cs := select;
     SPI_transfer := byte deaf_reaction; indeterminate := 0 |}.

(** A chip that ignores what it is sent and answers the data bytes of
    successive windows from a script; the three header bytes of a window
    are answered with 0, and so is every data byte once the script is
    used up. *)
Record Tape := mkTape {
  skip : nat;            (* header bytes still to come in this window *)
  script : list Z
}.

Definition tape_select (level : bool) (t : Tape) : Tape :=
  if level then t else mkTape 3 (script t).

Definition tape_byte (b : Z) (t : Tape) : Z * Tape :=
  match skip t with
  | S k => (0, mkTape k (script t))
  | O =>
      match script t with
      | [] => (0, t)
      | x :: rest => (x, mkTape O rest)
      end
  end.

Definition tape : Platform :=
  {| Dev := Tape; digitalWrite_cs := tape_select;
     SPI_transfer := tape_byte; indeterminate := 0 |}.

(** Memory images: all zero, and a list of (block, offset, byte) laid over
    one. *)
Definition blank : Z -> Z -> Z := fun _ _ => 0.

Fixpoint preset (l : list (Z * Z * Z)) (m : Z -> Z -> Z) : Z -> Z -> Z :=
  match l with
  | [] => m
  | (blk, a, v) :: l' => store (preset l' m) blk a v
  end.

Definition boot {P : Platform} (d : @Dev P) : @World P :=
  {| dev := d; clock := 0; trace := [] |}.

End Mock.

(** ** Vocabulary of the statements

    The chip is deterministic in its state, so what a register access
    returns and what it leaves behind are functions of the world before
    it. *)

Section Vocabulary.

Context {P : Platform}.
Import SpiFrame SpiFrameImpl W5500.

Definition status_frame (socket_n : Z) : Frame :=
  mkFrame SocketOffsetAddr.status_register socket_n SocketReg Read.

Definition command_frame (socket_n : Z) : Frame :=
  mkFrame SocketOffsetAddr.command_register socket_n SocketReg Write.

Definition socket_read (socket_n offset : Z) : Frame :=
  mkFrame offset socket_n SocketReg Read.

Definition socket_write (socket_n offset : Z) : Frame :=
  mkFrame offset socket_n SocketReg Write.

Definition phy_frame : Frame :=
  mkFrame CommonOffsetAddr.phy_config 0 CommonReg Read.

(** The world after one chip-select window on [f] shifting out [out]. *)
Definition after_bus (f : Frame) (out : list Z) (w : World) : World :=
  {| dev := snd (exchange f out (dev w));
     clock := clock w;
     trace := Bus f (header f) out (fst (exchange f out (dev w))) :: trace w |}.

(** The bytes such a window shifts in. *)
Definition bus_in (f : Frame) (out : list Z) (w : World) : list Z :=
  fst (exchange f out (dev w)).

(** A one-byte register read through [f]: the byte, and the world after. *)
Definition reg_byte (f : Frame) (w : World) : Z :=
  nth 0 (bus_in f [indeterminate] w) 0.

Definition did_read (f : Frame) (w : World) : World :=
  after_bus f [indeterminate] w.

(** A two-byte register read through [f]. *)
Definition reg_word (f : Frame) (w : World) : Z :=
  let data := bus_in f [indeterminate; indeterminate] w in
  u16 (Z.lor (Z.shiftl (nth 0 data 0) 8) (nth 1 data 0)).

Definition did_read16 (f : Frame) (w : World) : World :=
  after_bus f [indeterminate; indeterminate] w.

(** Writing command [c] to the command register of a socket. *)
Definition issued (socket_n : Z) (c : SocketCommandReg) (w : World) : World :=
  after_bus (command_frame socket_n) [command_val c] w.

(** Writing the 16-bit value [v] to a socket register. *)
Definition wrote16 (socket_n offset v : Z) (w : World) : World :=
  after_bus (socket_write socket_n offset)
            [Z.shiftr v 8; Z.land v 255] w.

(** The status the last wait of [socketOpen] polls for. *)
Definition terminal_status (mode : SocketMode) : SocketStatusReg :=
  match mode with
  | TCP_Server => SOCK_LISTEN
  | TCP_Client => SOCK_ESTABLISHED
  | UDP => SOCK_UDP
  end.

(** The world in which the waits of [socketOpen] start, given the world
    [w] its first [socketClose] left: mode register written, OPEN
    issued. *)
Definition opened (socket_n : Z) (mode : SocketMode) (w : World) : World :=
  issued socket_n OPEN
    (after_bus (socket_write socket_n SocketOffsetAddr.mode_register)
               [mode_value mode] w).

(** The wait points of [socketOpen]: [wait_point socket_n mode w2 st ws]
    says that the open sequence started in [w2] comes to poll for status
    [st] in world [ws].  UDP has one, for UDP-active; the TCP modes have
    one for Init and, once Init was seen and LISTEN or CONNECT issued, one
    for Listening or Established. *)
Inductive wait_point (socket_n : Z) (mode : SocketMode) (w2 : World)
  : SocketStatusReg -> World -> Prop :=
| wait_udp :
    mode = UDP -> wait_point socket_n mode w2 SOCK_UDP w2
| wait_init :
    mode <> UDP -> wait_point socket_n mode w2 SOCK_INIT w2
| wait_listen wi :
    mode = TCP_Server ->
    waitSocketStatus socket_n SOCK_INIT socket_timeout w2 = Some (true, wi) ->
    wait_point socket_n mode w2 SOCK_LISTEN (issued socket_n LISTEN wi)
| wait_established wi :
    mode = TCP_Client ->
    waitSocketStatus socket_n SOCK_INIT socket_timeout w2 = Some (true, wi) ->
    wait_point socket_n mode w2 SOCK_ESTABLISHED (issued socket_n CONNECT wi).

(** The events of [w'] that are not yet in [w]. *)
Definition since (w w' : World) (evs : list Event) : Prop :=
  trace w' = evs ++ trace w.

Definition is_poll (e : Event) : bool :=
  match e with Poll _ _ _ _ => true | _ => false end.

(** A write of command [c] to a socket's command register. *)
Definition is_command (socket_n : Z) (c : SocketCommandReg) (e : Event) : bool :=
  match e with
  | Bus g _ [v] _ => frame_eqb (command_frame socket_n) g && (v =? command_val c)
  | _ => false
  end.

(** Any window in the write direction. *)
Definition is_write (e : Event) : bool :=
  match e with Bus g _ _ _ => rw_eqb (rw g) Write | _ => false end.

(** What the availability queries may put on the bus besides their
    counter reads: any read window, and a CLOSE or DISCONNECT command. *)
Definition upkeep_event (socket_n : Z) (e : Event) : bool :=
  match e with
  | Bus g _ _ _ =>
      rw_eqb (rw g) Read
      || is_command socket_n CLOSE e || is_command socket_n DISCONNECT e
  | _ => false
  end.

(** The values that [k] successive plain 16-bit reads return, and the
    world after them. *)
Fixpoint read_seq (k : nat) (f : Frame) (w : World) : list Z :=
  match k with
  | O => []
  | S k' => reg_word f w :: read_seq k' f (did_read16 f w)
  end.

Fixpoint after_reads (k : nat) (f : Frame) (w : World) : World :=
  match k with
  | O => w
  | S k' => after_reads k' f (did_read16 f w)
  end.

(** The chip contract behind "closed after close": a socket whose status
    register reads Closed reads Closed again on the next read, and after
    the CLOSE command its status register reads Closed. *)
Definition closed_stays_closed (socket_n : Z) : Prop :=
  forall w : World,
    reg_byte (status_frame socket_n) w = status_val SOCK_CLOSED ->
    reg_byte (status_frame socket_n) (did_read (status_frame socket_n) w)
    = status_val SOCK_CLOSED.

Definition close_command_closes (socket_n : Z) : Prop :=
  forall w : World,
    reg_byte (status_frame socket_n) (issued socket_n CLOSE w)
    = status_val SOCK_CLOSED.

End Vocabulary.

(** Reads [i] and [i+1] (counted from 1) of a sequence agree. *)
Definition agree_at (reads : list Z) (i : nat) : Prop :=
  nth (i - 1) reads 0 = nth i reads 0.

(** ** Worlds to run the driver in *)

Module Bench.

Import Mock.

(** PHY configuration register reading 0xBF: link up.  Block 0 is the
    common block, block 1 the register block of socket 0, block 3 its RX
    buffer. *)
Definition link_up : list (Z * Z * Z) := [(0, 0x2E, 0xBF)].

(** The chip and the register file after reset with the link up: socket 0
    closed. *)
Definition chip_idle : @World chip := @boot chip (mkChip [] 0 (preset link_up blank)).
Definition regfile_idle : @World regfile :=
  @boot regfile (mkChip [] 0 (preset link_up blank)).

(** No link. *)
Definition regfile_no_link : @World regfile := @boot regfile (mkChip [] 0 blank).

(** Socket 0 with a given raw status. *)
Definition chip_in (status : Z) : @World chip :=
  @boot chip (mkChip [] 0 (preset ((1, 0x03, status) :: link_up) blank)).

(** Socket 0 established with 100 bytes free in the TX buffer and the TX
    write pointer at 0xFFF8. *)
Definition regfile_sending : @World regfile :=
  @boot regfile (mkChip [] 0
          (preset [(1, 0x03, 0x17); (1, 0x20, 0x00); (1, 0x21, 0x64);
                   (1, 0x24, 0xFF); (1, 0x25, 0xF8)] blank)).

(** Socket 0 UDP-active with 12 bytes received, the RX read pointer at
    0xFFFC: an 8-byte header declaring 4 payload bytes, then the payload
    1, 2, 3, 4. *)
Definition regfile_datagram : @World regfile :=
  @boot regfile (mkChip [] 0
          (preset [(1, 0x03, 0x22); (1, 0x26, 0x00); (1, 0x27, 0x0C);
                   (1, 0x28, 0xFF); (1, 0x29, 0xFC);
                   (3, 0xFFFC, 192); (3, 0xFFFD, 168); (3, 0xFFFE, 0);
                   (3, 0xFFFF, 7); (3, 0x0000, 0x13); (3, 0x0001, 0x88);
                   (3, 0x0002, 0x00); (3, 0x0003, 0x04);
                   (3, 0x0004, 1); (3, 0x0005, 2); (3, 0x0006, 3);
                   (3, 0x0007, 4)] blank)).

(** Twenty 16-bit values of which only the fifth and the sixth agree, and
    a tape that plays them, high byte first. *)
Definition counter_values : list Z :=
  [1; 2; 3; 4; 5; 5; 6; 7; 8; 9; 10; 11; 12; 13; 14; 15; 16; 17; 18; 19].

Definition tape_counter : @World tape :=
  @boot tape (mkTape 0 (flat_map (fun v => [Z.shiftr v 8; Z.land v 255])
                           counter_values)).

(** Socket 0 established, link up, on the chip deaf to DISCONNECT. *)
Definition deaf_established : @World deaf :=
  @boot deaf (mkChip [] 0 (preset ((1, 0x03, 0x17) :: link_up) blank)).

(** Two milliseconds before [millis] rolls over. *)
Definition regfile_near_rollover : @World regfile :=
  @mkWorld regfile (mkChip [] 0 blank) 4294967294 [].

End Bench.

(** ** Further vocabulary: what a routine puts in the log, and time *)

Section Conduct.

Context {P : Platform}.
Import SpiFrame SpiFrameImpl W5500.

Definition is_bus (e : Event) : bool :=
  match e with Bus _ _ _ _ => true | _ => false end.

(** What a poll on frame [f] may log: its entry, one-byte windows on [f],
    delays of one millisecond. *)
Definition poll_step (f : Frame) (e : Event) : bool :=
  match e with
  | Bus g _ out inn =>
      frame_eqb f g && (length out =? 1)%nat && (length inn =? 1)%nat
  | Delay ms => ms =? 1
  | Poll g _ _ _ => frame_eqb f g
  end.

Definition bus_windows (evs : list Event) : nat :=
  length (filter is_bus evs).

(** From [w] to [w'] no time passed and nothing but bus windows was
    logged: no poll was entered, no delay made. *)
Definition quiet (w w' : World) : Prop :=
  clock w' = clock w
  /\ exists evs, since w w' evs /\ forallb is_bus evs = true.

(** A routine that always returns, and quietly. *)
Definition calm {A} (m : M A) : Prop :=
  forall w, exists a w', m w = Some (a, w') /\ quiet w w'.

(** What one [socketClose] on a socket does, from world [w] to the world
    it returns in: nothing past the status read when that read Closed; for
    Established or CloseWait a DISCONNECT and a poll for Closed, which
    either ends with a read of Closed inside the timeout or runs the whole
    timeout and is followed by CLOSE; in every other case CLOSE at once. *)
Inductive close_outcome (socket_n : Z) (w : World) : World -> Prop :=
| close_noop :
    reg_byte (status_frame socket_n) w = 0x00 ->
    close_outcome socket_n w (did_read (status_frame socket_n) w)
| close_graceful wl :
    reg_byte (status_frame socket_n) w = 0x17
    \/ reg_byte (status_frame socket_n) w = 0x1C ->
    waitSocketStatus socket_n SOCK_CLOSED socket_timeout
      (issued socket_n DISCONNECT (did_read (status_frame socket_n) w))
    = Some (true, did_read (status_frame socket_n) wl) ->
    reg_byte (status_frame socket_n) wl = 0x00 ->
    clock w <= clock wl < clock w + socket_timeout ->
    close_outcome socket_n w (did_read (status_frame socket_n) wl)
| close_after_timeout wt :
    reg_byte (status_frame socket_n) w = 0x17
    \/ reg_byte (status_frame socket_n) w = 0x1C ->
    waitSocketStatus socket_n SOCK_CLOSED socket_timeout
      (issued socket_n DISCONNECT (did_read (status_frame socket_n) w))
    = Some (false, wt) ->
    clock wt = clock w + socket_timeout ->
    close_outcome socket_n w (issued socket_n CLOSE wt)
| close_forced :
    reg_byte (status_frame socket_n) w <> 0x00 ->
    reg_byte (status_frame socket_n) w <> 0x17 ->
    reg_byte (status_frame socket_n) w <> 0x1C ->
    close_outcome socket_n w
      (issued socket_n CLOSE (did_read (status_frame socket_n) w)).

End Conduct.

(** ** The register file as a memory *)

Module RegFileMem.

Import Mock.

(** Bytes stored at, and loaded from, consecutive offsets of a block, the
    offset wrapping at 2^16 as the chip's address counter does. *)
Fixpoint store_seq (m : Z -> Z -> Z) (blk a : Z) (out : list Z)
  : Z -> Z -> Z :=
  match out with
  | [] => m
  | b :: bs => store_seq (store m blk a b) blk (u16 (a + 1)) bs
  end.

Fixpoint load_seq (m : Z -> Z -> Z) (blk a : Z) (k : nat) : list Z :=
  match k with
  | O => []
  | S k' => u8 (m blk a) :: load_seq m blk (u16 (a + 1)) k'
  end.

(** The address counter after [k] data bytes. *)
Fixpoint advance (a : Z) (k : nat) : Z :=
  match k with
  | O => a
  | S k' => advance (u16 (a + 1)) k'
  end.

(** A byte array of [n] elements. *)
Definition octets (n : nat) (l : list Z) : Prop :=
  length l = n /\ Forall (fun b => 0 <= b < 256) l.

(** The block a frame selects and the offset its header carries. *)
Definition block_of (f : SpiFrame.Frame) : Z :=
  Z.shiftr (SpiFrame.control_byte f) 3.

Definition offset_of (f : SpiFrame.Frame) : Z :=
  Z.shiftr (u16 (SpiFrame.offset_addr f)) 8 * 256
  + Z.land (u16 (SpiFrame.offset_addr f)) 255.

End RegFileMem.

(** ** Running the register layer *)

Ltac buffers :=
  change (Z.to_nat 1) with 1%nat; change (Z.to_nat 2) with 2%nat;
  cbn [firstn skipn]; rewrite ?app_nil_r.

Section RegisterLayer.

Context {P : Platform}.
Import SpiFrame SpiFrameImpl W5500.

Lemma bind_some {A B} (m : M A) (k : A -> M B) (w w1 : World) (a : A) :
  m w = Some (a, w1) -> bind m k w = k a w1.
Proof. intros H. unfold bind. now rewrite H. Qed.

Lemma shift_length (bytes : list Z) (d : Dev) :
  length (fst (shift bytes d)) = length bytes.
Proof.
  revert d. induction bytes as [|b bs IH]; intros d; simpl; [reflexivity|].
  destruct (SPI_transfer b d) as [r d1].
  specialize (IH d1). destruct (shift bs d1) as [rs d2]. simpl in *.
  now rewrite IH.
Qed.

Lemma shift_bytes (bytes : list Z) (d : Dev) :
  Forall (fun b => 0 <= b < 256) (fst (shift bytes d)).
Proof.
  revert d. induction bytes as [|b bs IH]; intros d; simpl; [constructor|].
  destruct (SPI_transfer b d) as [r d1].
  specialize (IH d1). destruct (shift bs d1) as [rs d2]. simpl in *.
  constructor; [apply Z.mod_pos_bound; lia | exact IH].
Qed.

Lemma exchange_length (f : Frame) (out : list Z) (d : Dev) :
  length (fst (exchange f out d)) = length out.
Proof.
  unfold exchange. destruct (shift (header f) _) as [h d1].
  pose proof (shift_length out d1) as H.
  destruct (shift out d1) as [inn d2]. exact H.
Qed.

Lemma exchange_bytes (f : Frame) (out : list Z) (d : Dev) :
  Forall (fun b => 0 <= b < 256) (fst (exchange f out d)).
Proof.
  unfold exchange. destruct (shift (header f) _) as [h d1].
  pose proof (shift_bytes out d1) as H.
  destruct (shift out d1) as [inn d2]. exact H.
Qed.

Lemma transfer_eq (f : Frame) (data : list Z) (len : Z) (w : World) :
  transfer f data len w
  = Some (bus_in f (firstn (Z.to_nat len) data) w ++ skipn (Z.to_nat len) data,
          after_bus f (firstn (Z.to_nat len) data) w).
Proof.
  unfold transfer, bus_in, after_bus.
  destruct (exchange f _ (dev w)) as [inn d]. reflexivity.
Qed.

Lemma bus_in_one (f : Frame) (x : Z) (w : World) :
  bus_in f [x] w = [nth 0 (bus_in f [x] w) 0].
Proof.
  pose proof (exchange_length f [x] (dev w)) as H. unfold bus_in.
  destruct (fst (exchange f [x] (dev w))) as [|b [|c l]]; simpl in H;
    try discriminate. reflexivity.
Qed.

Lemma bus_in_two (f : Frame) (x y : Z) (w : World) :
  bus_in f [x; y] w = [nth 0 (bus_in f [x; y] w) 0; nth 1 (bus_in f [x; y] w) 0].
Proof.
  pose proof (exchange_length f [x; y] (dev w)) as H. unfold bus_in.
  destruct (fst (exchange f [x; y] (dev w))) as [|b [|c [|e l]]]; simpl in H;
    try discriminate. reflexivity.
Qed.

Lemma reg_byte_range (f : Frame) (w : World) : 0 <= reg_byte f w < 256.
Proof.
  unfold reg_byte, bus_in.
  pose proof (exchange_bytes f [indeterminate] (dev w)) as H.
  pose proof (exchange_length f [indeterminate] (dev w)) as L.
  destruct (fst (exchange f [indeterminate] (dev w))) as [|b [|c l]];
    simpl in L; try discriminate.
  inversion H; subst. assumption.
Qed.

Lemma rdSocketReg_eq (socket_n offset : Z) (w : World) :
  rdSocketReg socket_n offset w
  = Some (reg_byte (socket_read socket_n offset) w,
          did_read (socket_read socket_n offset) w).
Proof.
  unfold rdSocketReg, socketReg, bind. rewrite transfer_eq. buffers.
  reflexivity.
Qed.

Lemma rdCommonReg_eq (offset : Z) (w : World) :
  rdCommonReg offset w
  = Some (reg_byte (mkFrame offset 0 CommonReg Read) w,
          did_read (mkFrame offset 0 CommonReg Read) w).
Proof.
  unfold rdCommonReg, commonReg, bind. rewrite transfer_eq. buffers.
  reflexivity.
Qed.

Lemma wrSocketReg_eq (socket_n offset v : Z) (w : World) :
  wrSocketReg socket_n offset v w
  = Some (tt, after_bus (socket_write socket_n offset) [u8 v] w).
Proof.
  unfold wrSocketReg, socketReg, bind. rewrite transfer_eq. buffers.
  reflexivity.
Qed.

Lemma rdSocketReg16_eq (socket_n offset : Z) (w : World) :
  rdSocketReg16 socket_n offset w
  = Some (reg_word (socket_read socket_n offset) w,
          did_read16 (socket_read socket_n offset) w).
Proof.
  unfold rdSocketReg16, socketReg, bind. rewrite transfer_eq. buffers.
  reflexivity.
Qed.

Lemma wrSocketReg16_eq (socket_n offset v : Z) (w : World) :
  wrSocketReg16 socket_n offset v w
  = Some (tt, wrote16 socket_n offset (u16 v) w).
Proof.
  unfold wrSocketReg16, socketReg, bind. rewrite transfer_eq. buffers.
  unfold wrote16.
  assert (H8 : u8 (Z.shiftr (u16 v) 8) = Z.shiftr (u16 v) 8).
  { unfold u8, u16. rewrite Z.shiftr_div_pow2 by lia.
    apply Z.mod_small. pose proof (Z.mod_pos_bound v 65536 ltac:(lia)).
    change (2 ^ 8) with 256. split.
    - apply Z.div_pos; lia.
    - apply Z.div_lt_upper_bound; lia. }
  assert (HL : u8 (Z.land (u16 v) 255) = Z.land (u16 v) 255).
  { unfold u8. change 255 with (Z.ones 8). rewrite Z.land_ones by lia.
    change (2 ^ 8) with 256. apply Z.mod_mod. lia. }
  change 0xFF with 255. rewrite H8, HL. reflexivity.
Qed.

Lemma socketCommand_eq (socket_n : Z) (c : SocketCommandReg) (w : World) :
  socketCommand socket_n c w = Some (tt, issued socket_n c w).
Proof.
  unfold socketCommand. rewrite wrSocketReg_eq. unfold issued, command_frame.
  replace (u8 (command_val c)) with (command_val c) by (now destruct c).
  reflexivity.
Qed.

Lemma socketStatusReg_eq (socket_n : Z) (w : World) :
  socketStatusReg socket_n w
  = Some (reg_byte (status_frame socket_n) w, did_read (status_frame socket_n) w).
Proof. unfold socketStatusReg. apply rdSocketReg_eq. Qed.

End RegisterLayer.

(** ** The poll primitive terminates *)

Section Polling.

Context {P : Platform}.
Import SpiFrame SpiFrameImpl W5500.

Lemma u32_diff (a b : Z) : u32 (u32 a - u32 b) = u32 (a - b).
Proof. unfold u32. now rewrite <- Zminus_mod. Qed.

(** [c0] is the clock when the poll started.  With fuel for the rounds the
    window still allows, the loop returns; [true] comes with the read that
    matched, made inside the window; [false] comes at the end of it. *)
Lemma wait_loop_spec (fuel : nat) (f : Frame) (mask value limit c0 : Z)
      (w : World) :
  0 <= limit < 4294967296 ->
  c0 <= clock w <= c0 + limit ->
  c0 + limit - clock w < Z.of_nat fuel ->
  exists ok w',
    wait_loop fuel f mask value (u32 c0) limit w = Some (ok, w')
    /\ (ok = true ->
        exists wl, w' = did_read f wl
                   /\ Z.land (reg_byte f wl) mask = value
                   /\ clock w <= clock wl < c0 + limit)
    /\ (ok = false -> clock w' = c0 + limit).
Proof.
  intros Hl. revert w. induction fuel as [|fuel IH]; intros w Hc Hf.
  - simpl in Hf. lia.
  - cbn [wait_loop]. unfold bind at 1. unfold millis at 1.
    rewrite u32_diff.
    assert (E : u32 (clock w - c0) = clock w - c0)
      by (unfold u32; apply Z.mod_small; lia).
    rewrite E. destruct (Z.ltb_spec (clock w - c0) limit) as [Hlt|Hge].
    + unfold bind at 1. rewrite transfer_eq. buffers.
      fold (did_read f w).
      change (nth 0 (bus_in f [indeterminate] w) 0) with (reg_byte f w).
      destruct (Z.eqb_spec (Z.land (reg_byte f w) mask) value) as [Hv|Hv].
      * exists true, (did_read f w). split; [reflexivity|]. split.
        -- intros _. exists w. repeat split; [exact Hv|lia|lia].
        -- discriminate.
      * unfold bind at 1. unfold delay at 1.
        set (w1 := {| dev := _; clock := _; trace := _ |}).
        destruct (IH w1) as (ok & w' & Hrun & Ht & Hfalse).
        { subst w1. simpl. lia. }
        { subst w1. simpl. lia. }
        exists ok, w'. split; [exact Hrun|]. split; [|exact Hfalse].
        intros Hok. destruct (Ht Hok) as (wl & H1 & H2 & H3).
        exists wl. repeat split; try assumption.
        -- subst w1. simpl in H3. lia.
        -- lia.
    + exists false, w. split; [reflexivity|]. split; [discriminate|].
      intros _. lia.
Qed.

Lemma wait_for_value_spec (f : Frame) (mask value timeout_ms : Z) (w : World) :
  0 <= timeout_ms < 4294967296 ->
  exists ok w',
    wait_for_value f mask value timeout_ms w = Some (ok, w')
    /\ (ok = true ->
        exists wl, w' = did_read f wl
                   /\ Z.land (reg_byte f wl) mask = value
                   /\ clock w <= clock wl < clock w + timeout_ms)
    /\ (ok = false -> clock w' = clock w + timeout_ms).
Proof.
  intros Ht. unfold wait_for_value. unfold bind at 1. unfold log at 1.
  unfold bind at 1. unfold millis at 1. cbn [clock].
  set (w0 := {| dev := _; clock := _; trace := _ |}).
  destruct (wait_loop_spec (S (Z.to_nat timeout_ms)) f mask value timeout_ms
              (clock w) w0 Ht) as (ok & w' & Hrun & H1 & H2).
  - subst w0. simpl. lia.
  - subst w0. simpl. lia.
  - exists ok, w'. split; [exact Hrun|]. split; assumption.
Qed.

(** [waitSocketStatus] with the driver's timeout.  A successful poll ends
    with a read of the status register that gave exactly the awaited
    status. *)
Lemma waitSocketStatus_spec (socket_n : Z) (st : SocketStatusReg) (w : World) :
  exists ok w',
    waitSocketStatus socket_n st socket_timeout w = Some (ok, w')
    /\ (ok = true ->
        exists wl, w' = did_read (status_frame socket_n) wl
                   /\ reg_byte (status_frame socket_n) wl = status_val st
                   /\ clock w <= clock wl < clock w + socket_timeout)
    /\ (ok = false -> clock w' = clock w + socket_timeout).
Proof.
  unfold waitSocketStatus.
  destruct (wait_for_value_spec (status_frame socket_n) 0xFF
              (u8 (status_val st)) socket_timeout w) as (ok & w' & Hrun & H1 & H2).
  { unfold socket_timeout. lia. }
  exists ok, w'. split; [exact Hrun|]. split; [|exact H2].
  intros Hok. destruct (H1 Hok) as (wl & Hw & Hv & Hc).
  exists wl. repeat split; try tauto.
  pose proof (reg_byte_range (status_frame socket_n) wl) as R.
  change 0xFF with (Z.ones 8) in Hv. rewrite Z.land_ones in Hv by lia.
  change (2 ^ 8) with 256 in Hv. rewrite Z.mod_small in Hv by lia.
  rewrite Hv. now destruct st.
Qed.

End Polling.

(** ** Socket status, availability and keep-open *)

Section StatusLayer.

Context {P : Platform}.
Import SpiFrame SpiFrameImpl W5500.

Lemma status_of_byte_other (raw : Z) :
  ~ In raw [0x00; 0x13; 0x14; 0x17; 0x1C; 0x22] -> status_of_byte raw = None.
Proof.
  intros H. unfold status_of_byte.
  repeat match goal with
  | |- context [?a =? ?b] =>
      destruct (Z.eqb_spec a b);
      [exfalso; apply H; subst; simpl; tauto|]
  end.
  reflexivity.
Qed.

Lemma did_read_trace (f : Frame) (w : World) :
  trace (did_read f w) = Bus f (header f) [indeterminate] [reg_byte f w] :: trace w.
Proof.
  unfold did_read, after_bus, reg_byte. cbn [trace].
  rewrite <- bus_in_one. reflexivity.
Qed.

Lemma issued_trace (socket_n : Z) (c : SocketCommandReg) (w : World) :
  trace (issued socket_n c w)
  = Bus (command_frame socket_n) (header (command_frame socket_n))
        [command_val c] (bus_in (command_frame socket_n) [command_val c] w)
    :: trace w.
Proof. reflexivity. Qed.

(** C4.  [socketStatus] reads the raw status byte once and maps it to the
    external status: Init (0x13) issues the CLOSE command and gives
    [Closed]; CloseWait (0x1C) issues the DISCONNECT command, without any
    wait, and gives [Closed]; Closed (0x00), Listening (0x14), Established
    (0x17) and UDP-active (0x22) give [Closed], [TCP_Listen],
    [TCP_Connected] and [UDP_Open]; every other byte gives [Temporary].
    In the last five cases the world is the one the status read left, so
    no command was issued; a command is one write window on the command
    register, and neither a poll nor a delay. *)
Theorem socketStatus_maps_raw_status (socket_n : Z) (w : World) :
  let raw := reg_byte (status_frame socket_n) w in
  let w1 := did_read (status_frame socket_n) w in
  (raw = 0x13 ->
   socketStatus socket_n w = Some (Closed, issued socket_n CLOSE w1))
  /\ (raw = 0x1C ->
      socketStatus socket_n w = Some (Closed, issued socket_n DISCONNECT w1))
  /\ (raw = 0x00 -> socketStatus socket_n w = Some (Closed, w1))
  /\ (raw = 0x14 -> socketStatus socket_n w = Some (TCP_Listen, w1))
  /\ (raw = 0x17 -> socketStatus socket_n w = Some (TCP_Connected, w1))
  /\ (raw = 0x22 -> socketStatus socket_n w = Some (UDP_Open, w1))
  /\ (~ In raw [0x00; 0x13; 0x14; 0x17; 0x1C; 0x22] ->
      socketStatus socket_n w = Some (Temporary, w1))
  /\ trace w1
     = Bus (status_frame socket_n) (header (status_frame socket_n))
           [indeterminate] [raw] :: trace w
  /\ forall c, exists echo,
       trace (issued socket_n c w1)
       = Bus (command_frame socket_n) (header (command_frame socket_n))
             [command_val c] echo :: trace w1
       /\ clock (issued socket_n c w1) = clock w.
Proof.
  intros raw w1. unfold socketStatus.
  rewrite (bind_some _ _ _ _ _ (socketStatusReg_eq socket_n w)).
  fold raw. fold w1.
  repeat apply conj.
  - intros E. rewrite E. cbn. rewrite (bind_some _ _ _ _ _ (socketCommand_eq _ _ _)).
    reflexivity.
  - intros E. rewrite E. cbn. rewrite (bind_some _ _ _ _ _ (socketCommand_eq _ _ _)).
    reflexivity.
  - intros E. now rewrite E.
  - intros E. now rewrite E.
  - intros E. now rewrite E.
  - intros E. now rewrite E.
  - intros E. now rewrite (status_of_byte_other raw E).
  - apply did_read_trace.
  - intros c. eexists. split; [apply issued_trace | reflexivity].
Qed.

Lemma socketConnected_eq (socket_n : Z) (w : World) :
  let raw := reg_byte (status_frame socket_n) w in
  let w1 := did_read (status_frame socket_n) w in
  socketConnected socket_n w
  = match status_of_byte raw with
    | Some SOCK_ESTABLISHED | Some SOCK_UDP => Some (true, w1)
    | Some SOCK_INIT => Some (false, issued socket_n CLOSE w1)
    | Some SOCK_CLOSE_WAIT => Some (false, issued socket_n DISCONNECT w1)
    | _ => Some (false, w1)
    end.
Proof.
  intros raw w1. unfold socketConnected, socketStatus.
  unfold bind at 1. unfold bind at 1. rewrite socketStatusReg_eq.
  fold raw. fold w1.
  destruct (status_of_byte raw) as [[]|]; cbn;
    rewrite ?(bind_some _ _ _ _ _ (socketCommand_eq _ _ _)); reflexivity.
Qed.

(** C9.  [sendAvailable] and [receiveAvailable] are queries with side
    effects.  With the raw status Init (0x13) each issues CLOSE and
    returns 0, with CloseWait (0x1C) each issues DISCONNECT and returns 0;
    with Established (0x17) or UDP-active (0x22) each goes on, from the
    world the status read left, to the atomic read of its counter
    (TX free size, RX received size); with any other raw status each
    returns 0 in the world the status read left.  So outside Established
    and UDP-active the only bus windows are the status read and, for Init
    and CloseWait, the one command write: no counter is read. *)
Theorem available_queries_maintain (socket_n : Z) (w : World) :
  let raw := reg_byte (status_frame socket_n) w in
  let w1 := did_read (status_frame socket_n) w in
  (raw = 0x13 ->
   sendAvailable socket_n w = Some (0, issued socket_n CLOSE w1)
   /\ receiveAvailable socket_n w = Some (0, issued socket_n CLOSE w1))
  /\ (raw = 0x1C ->
      sendAvailable socket_n w = Some (0, issued socket_n DISCONNECT w1)
      /\ receiveAvailable socket_n w = Some (0, issued socket_n DISCONNECT w1))
  /\ (raw = 0x17 \/ raw = 0x22 ->
      sendAvailable socket_n w
      = rdSocketReg16_atomic socket_n SocketOffsetAddr.tx_free_size w1
      /\ receiveAvailable socket_n w
         = rdSocketReg16_atomic socket_n SocketOffsetAddr.rx_received_size w1)
  /\ (raw <> 0x13 -> raw <> 0x1C -> raw <> 0x17 -> raw <> 0x22 ->
      sendAvailable socket_n w = Some (0, w1)
      /\ receiveAvailable socket_n w = Some (0, w1))
  /\ trace w1
     = Bus (status_frame socket_n) (header (status_frame socket_n))
           [indeterminate] [raw] :: trace w
  /\ forall c, exists echo,
       trace (issued socket_n c w1)
       = Bus (command_frame socket_n) (header (command_frame socket_n))
             [command_val c] echo :: trace w1.
Proof.
  intros raw w1. unfold sendAvailable, receiveAvailable.
  unfold bind. rewrite socketConnected_eq. fold raw. fold w1.
  repeat apply conj.
  - intros E; rewrite E; now split.
  - intros E; rewrite E; now split.
  - intros [E|E]; rewrite E; now split.
  - intros H1 H2 H3 H4. unfold status_of_byte.
    repeat match goal with
    | |- context [?a =? ?b] => destruct (Z.eqb_spec a b); try congruence
    end; now split.
  - apply did_read_trace.
  - intros c. eexists. apply issued_trace.
Qed.

End StatusLayer.

(** ** Close, open and keep-open *)

Section Lifecycle.

Context {P : Platform}.
Import SpiFrame SpiFrameImpl W5500.

Lemma status_of_byte_spec (raw : Z) :
  match status_of_byte raw with
  | Some s => raw = status_val s
  | None => ~ In raw [0x00; 0x13; 0x14; 0x17; 0x1C; 0x22]
  end.
Proof.
  unfold status_of_byte.
  repeat match goal with
  | |- context [?a =? ?b] => destruct (Z.eqb_spec a b); [subst; reflexivity|]
  end.
  simpl. intuition congruence.
Qed.

Lemma socketStatus_closed (socket_n : Z) (w : World) :
  reg_byte (status_frame socket_n) w = status_val SOCK_CLOSED ->
  socketStatus socket_n w = Some (Closed, did_read (status_frame socket_n) w).
Proof.
  intros E. unfold socketStatus.
  rewrite (bind_some _ _ _ _ _ (socketStatusReg_eq socket_n w)).
  now rewrite E.
Qed.

Lemma socketClose_run (socket_n : Z) (w : World) :
  let raw := reg_byte (status_frame socket_n) w in
  let w1 := did_read (status_frame socket_n) w in
  exists w',
    socketClose socket_n w = Some (tt, w')
    /\ (raw = 0x00 -> w' = w1)
    /\ (raw = 0x17 \/ raw = 0x1C ->
        exists ok w3,
          waitSocketStatus socket_n SOCK_CLOSED socket_timeout
                           (issued socket_n DISCONNECT w1) = Some (ok, w3)
          /\ w' = if ok then w3 else issued socket_n CLOSE w3)
    /\ (raw <> 0x00 -> raw <> 0x17 -> raw <> 0x1C ->
        w' = issued socket_n CLOSE w1).
Proof.
  intros raw w1. unfold socketClose.
  rewrite (bind_some _ _ _ _ _ (socketStatusReg_eq socket_n w)).
  fold raw. fold w1.
  pose proof (status_of_byte_spec raw) as Hraw.
  assert (Hdisc :
    raw = 0x17 \/ raw = 0x1C ->
    exists w',
      (socketCommand socket_n DISCONNECT ;;
       closed <- waitSocketStatus socket_n SOCK_CLOSED socket_timeout ;;
       if closed then ret tt else socketCommand socket_n CLOSE)%drv w1
      = Some (tt, w')
      /\ (raw = 0x00 -> w' = w1)
      /\ (raw = 0x17 \/ raw = 0x1C ->
          exists ok w3,
            waitSocketStatus socket_n SOCK_CLOSED socket_timeout
                             (issued socket_n DISCONNECT w1) = Some (ok, w3)
            /\ w' = if ok then w3 else issued socket_n CLOSE w3)
      /\ (raw <> 0x00 -> raw <> 0x17 -> raw <> 0x1C ->
          w' = issued socket_n CLOSE w1)).
  { intros Hr.
    rewrite (bind_some _ _ _ _ _ (socketCommand_eq _ _ _)).
    destruct (waitSocketStatus_spec socket_n SOCK_CLOSED
                (issued socket_n DISCONNECT w1)) as (ok & w3 & Hrun & _).
    rewrite (bind_some _ _ _ _ _ Hrun).
    destruct ok.
    - exists w3. split; [reflexivity|]. split; [lia|]. split; [|lia].
      intros _. exists true, w3. now split.
    - rewrite socketCommand_eq. exists (issued socket_n CLOSE w3).
      split; [reflexivity|]. split; [lia|]. split; [|lia].
      intros _. exists false, w3. now split. }
  assert (Hforce :
    raw <> 0x00 -> raw <> 0x17 -> raw <> 0x1C ->
    exists w',
      socketCommand socket_n CLOSE w1 = Some (tt, w')
      /\ (raw = 0x00 -> w' = w1)
      /\ (raw = 0x17 \/ raw = 0x1C ->
          exists ok w3,
            waitSocketStatus socket_n SOCK_CLOSED socket_timeout
                             (issued socket_n DISCONNECT w1) = Some (ok, w3)
            /\ w' = if ok then w3 else issued socket_n CLOSE w3)
      /\ (raw <> 0x00 -> raw <> 0x17 -> raw <> 0x1C ->
          w' = issued socket_n CLOSE w1)).
  { intros H0 H1 H2. rewrite socketCommand_eq.
    exists (issued socket_n CLOSE w1). split; [reflexivity|].
    split; [tauto|]. split; [tauto|]. reflexivity. }
  destruct (status_of_byte raw) as [[]|]; simpl in Hraw.
  - exists w1. split; [reflexivity|]. split; [reflexivity|].
    split; lia.
  - apply Hforce; lia.
  - apply Hforce; lia.
  - apply Hdisc; lia.
  - apply Hdisc; lia.
  - apply Hforce; lia.
  - apply Hforce; simpl in Hraw; intros E; apply Hraw; rewrite E; simpl; tauto.
Qed.

Lemma socketClose_total (socket_n : Z) (w : World) :
  exists w', socketClose socket_n w = Some (tt, w').
Proof.
  destruct (socketClose_run socket_n w) as (w' & H & _). now exists w'.
Qed.

Lemma socketClose_outcome (socket_n : Z) (w w' : World) :
  socketClose socket_n w = Some (tt, w') -> close_outcome socket_n w w'.
Proof.
  intros Hrun.
  destruct (socketClose_run socket_n w) as (w2 & Hrun' & H0 & Hd & Hf).
  rewrite Hrun in Hrun'. injection Hrun' as <-.
  set (raw := reg_byte (status_frame socket_n) w) in *.
  destruct (Z.eq_dec raw 0x00) as [E0|N0].
  { rewrite (H0 E0). now apply close_noop. }
  destruct (Z.eq_dec raw 0x17) as [E1|N1];
    [|destruct (Z.eq_dec raw 0x1C) as [E2|N2]].
  3: { rewrite (Hf N0 N1 N2). now apply close_forced. }
  all: (assert (Hr : raw = 0x17 \/ raw = 0x1C) by tauto;
        destruct (Hd Hr) as (ok & w3 & Hw & ->);
        destruct (waitSocketStatus_spec socket_n SOCK_CLOSED
                    (issued socket_n DISCONNECT
                            (did_read (status_frame socket_n) w)))
          as (ok' & w3' & Hw2 & Ht & Hfl);
        rewrite Hw in Hw2; injection Hw2 as <- <-;
        destruct ok;
        [ destruct (Ht eq_refl) as (wl & -> & Hv & Hc);
          now apply close_graceful
        | apply close_after_timeout; [exact Hr|exact Hw|exact (Hfl eq_refl)] ]).
Qed.

(** C2 as amended.  [socketClose] returns nothing, so it has no failure
    to report, and it always returns.  It reads the raw status once:
    Closed (0x00) ends the call there; Established (0x17) or CloseWait
    (0x1C) issues DISCONNECT and polls for Closed with the fixed timeout,
    and a poll that ends with a read of Closed inside the timeout ends the
    call; in every other case, a DISCONNECT that ran the whole timeout
    included, the last action is the CLOSE command.  The driver does not
    check what CLOSE did: the next [socketStatus] on that socket reports
    [Closed] on a chip that keeps to the command's contract (a socket
    reading Closed reads Closed again, and after CLOSE the status register
    reads Closed). *)
Theorem socketClose_converges (socket_n : Z) (w : World) :
  let raw := reg_byte (status_frame socket_n) w in
  let w1 := did_read (status_frame socket_n) w in
  exists w',
    socketClose socket_n w = Some (tt, w')
    /\ (raw = 0x00 -> w' = w1)
    /\ (raw = 0x17 \/ raw = 0x1C ->
        exists ok w3,
          waitSocketStatus socket_n SOCK_CLOSED socket_timeout
                           (issued socket_n DISCONNECT w1) = Some (ok, w3)
          /\ w' = (if ok then w3 else issued socket_n CLOSE w3)
          /\ (ok = true ->
              exists wl,
                w3 = did_read (status_frame socket_n) wl
                /\ reg_byte (status_frame socket_n) wl = 0x00
                /\ clock w <= clock wl < clock w + socket_timeout)
          /\ (ok = false -> clock w3 = clock w + socket_timeout))
    /\ (raw <> 0x00 -> raw <> 0x17 -> raw <> 0x1C ->
        w' = issued socket_n CLOSE w1)
    /\ (closed_stays_closed socket_n -> close_command_closes socket_n ->
        exists w'', socketStatus socket_n w' = Some (Closed, w'')).
Proof.
  intros raw w1.
  destruct (socketClose_run socket_n w) as (w' & Hrun & H0 & Hd & Hf).
  fold raw in H0, Hd, Hf. fold w1 in H0, Hd, Hf.
  exists w'. split; [exact Hrun|]. split; [exact H0|]. split.
  { intros Hr. destruct (Hd Hr) as (ok & w3 & Hw & Hw').
    exists ok, w3. split; [exact Hw|]. split; [exact Hw'|].
    destruct (waitSocketStatus_spec socket_n SOCK_CLOSED
                (issued socket_n DISCONNECT w1))
      as (ok' & w3' & Hw2 & Ht & Hfl).
    rewrite Hw in Hw2. injection Hw2 as <- <-.
    split; [exact Ht|exact Hfl]. }
  split; [exact Hf|].
  intros Hs Hc.
  destruct (Z.eq_dec raw 0x00) as [E0|N0].
  { rewrite (H0 E0). eexists. apply socketStatus_closed. now apply Hs. }
  destruct (Z.eq_dec raw 0x17) as [E1|N1];
    [|destruct (Z.eq_dec raw 0x1C) as [E2|N2]].
  3: { rewrite (Hf N0 N1 N2). eexists. apply socketStatus_closed. apply Hc. }
  all: (destruct Hd as (ok & w3 & Hw & Hw'); [tauto|];
        destruct (waitSocketStatus_spec socket_n SOCK_CLOSED
                    (issued socket_n DISCONNECT w1)) as (ok' & w3' & Hw2 & Ht & _);
        rewrite Hw in Hw2; injection Hw2 as <- <-;
        subst w'; destruct ok;
        [ destruct (Ht eq_refl) as (wl & -> & Hv & _);
          eexists; apply socketStatus_closed; now apply Hs
        | eexists; apply socketStatus_closed; apply Hc ]).
Qed.

Lemma open_sequence_run (socket_n : Z) (mode : SocketMode) (w2 : World) :
  exists ok w3,
    open_sequence socket_n mode w2 = Some (ok, w3)
    /\ (ok = true ->
        exists ws wl,
          waitSocketStatus socket_n (terminal_status mode) socket_timeout ws
          = Some (true, w3)
          /\ w3 = did_read (status_frame socket_n) wl
          /\ reg_byte (status_frame socket_n) wl
             = status_val (terminal_status mode)
          /\ clock ws <= clock wl < clock ws + socket_timeout)
    /\ (forall st ws wt,
          wait_point socket_n mode w2 st ws ->
          waitSocketStatus socket_n st socket_timeout ws = Some (false, wt) ->
          ok = false /\ wt = w3).
Proof.
  assert (Htcp : forall cmd st,
    exists ok w3,
      tcp_sequence socket_n cmd st w2 = Some (ok, w3)
      /\ (ok = true ->
          exists ws wl,
            waitSocketStatus socket_n st socket_timeout ws = Some (true, w3)
            /\ w3 = did_read (status_frame socket_n) wl
            /\ reg_byte (status_frame socket_n) wl = status_val st
            /\ clock ws <= clock wl < clock ws + socket_timeout)
      /\ (forall wt,
            waitSocketStatus socket_n SOCK_INIT socket_timeout w2
            = Some (false, wt) -> ok = false /\ wt = w3)
      /\ (forall wi wt,
            waitSocketStatus socket_n SOCK_INIT socket_timeout w2
            = Some (true, wi) ->
            waitSocketStatus socket_n st socket_timeout (issued socket_n cmd wi)
            = Some (false, wt) -> ok = false /\ wt = w3)).
  { intros cmd st. unfold tcp_sequence.
    destruct (waitSocketStatus_spec socket_n SOCK_INIT w2)
      as (ok1 & wi & Hrun1 & _).
    rewrite (bind_some _ _ _ _ _ Hrun1). destruct ok1.
    - rewrite (bind_some _ _ _ _ _ (socketCommand_eq _ _ _)).
      destruct (waitSocketStatus_spec socket_n st (issued socket_n cmd wi))
        as (ok2 & w3 & Hrun2 & Ht & _).
      exists ok2, w3. split; [exact Hrun2|]. split; [|split].
      + intros ->. destruct (Ht eq_refl) as (wl & H1 & H2 & H3).
        exists (issued socket_n cmd wi), wl. tauto.
      + intros wt H. rewrite Hrun1 in H. discriminate.
      + intros wi' wt H1 H2. rewrite Hrun1 in H1. injection H1 as <-.
        rewrite Hrun2 in H2. injection H2 as <- <-. tauto.
    - exists false, wi. split; [reflexivity|]. split; [discriminate|]. split.
      + intros wt H. rewrite Hrun1 in H. injection H as <-. tauto.
      + intros wi' wt H. rewrite Hrun1 in H. discriminate. }
  destruct mode; cbn [open_sequence terminal_status].
  - destruct (Htcp LISTEN SOCK_LISTEN) as (ok & w3 & Hrun & Ht & Hi & Hs).
    exists ok, w3. split; [exact Hrun|]. split; [exact Ht|].
    intros st ws wt Hp Hw. inversion Hp; subst; try discriminate; eauto.
  - destruct (Htcp CONNECT SOCK_ESTABLISHED) as (ok & w3 & Hrun & Ht & Hi & Hs).
    exists ok, w3. split; [exact Hrun|]. split; [exact Ht|].
    intros st ws wt Hp Hw. inversion Hp; subst; try discriminate; eauto.
  - destruct (waitSocketStatus_spec socket_n SOCK_UDP w2)
      as (ok & w3 & Hrun & Ht & _).
    exists ok, w3. split; [exact Hrun|]. split.
    + intros ->. destruct (Ht eq_refl) as (wl & H1 & H2 & H3).
      exists w2, wl. tauto.
    + intros st ws wt Hp Hw. inversion Hp; subst; try discriminate;
        try congruence.
      rewrite Hrun in Hw. injection Hw as <- <-. tauto.
Qed.

(** C1 as amended.  [socketOpen] always returns.  It starts with one
    read of the PHY configuration register; if bit 0 of that byte is 0 it
    returns [false] in the world that read left, so nothing else went over
    the bus.  It returns [true] only when its last wait polled for the
    status that belongs to the mode (UDP-active, Listening, Established)
    and ended with a read of the status register giving exactly that
    status, made inside the timeout window of that wait.  With the link
    up it first closes the socket; whatever that close met, a DISCONNECT
    that ran its whole timeout included, the call goes on in the world
    the close left: mode register, OPEN, and the open sequence, whose
    verdict is the result.  Whenever one of the wait points of that
    sequence times out, the call closes the socket again and returns
    [false]. *)
Theorem socketOpen_spec (socket_n : Z) (mode : SocketMode) (w : World) :
  let phy := reg_byte phy_frame w in
  let w0 := did_read phy_frame w in
  exists ok w',
    socketOpen socket_n mode w = Some (ok, w')
    /\ trace w0
       = Bus phy_frame (header phy_frame) [indeterminate] [phy] :: trace w
    /\ (Z.land phy 0x01 = 0 -> ok = false /\ w' = w0)
    /\ (ok = true ->
        exists ws wl,
          waitSocketStatus socket_n (terminal_status mode) socket_timeout ws
          = Some (true, w')
          /\ w' = did_read (status_frame socket_n) wl
          /\ reg_byte (status_frame socket_n) wl
             = status_val (terminal_status mode)
          /\ clock ws <= clock wl < clock ws + socket_timeout)
    /\ (Z.land phy 0x01 <> 0 ->
        exists wc,
          socketClose socket_n w0 = Some (tt, wc)
          /\ close_outcome socket_n w0 wc
          /\ (exists w3,
                open_sequence socket_n mode (opened socket_n mode wc)
                = Some (ok, w3)
                /\ (ok = true -> w' = w3))
          /\ forall st ws wt,
               wait_point socket_n mode (opened socket_n mode wc) st ws ->
               waitSocketStatus socket_n st socket_timeout ws
               = Some (false, wt) ->
               ok = false
               /\ socketClose socket_n wt = Some (tt, w')
               /\ close_outcome socket_n wt w').
Proof.
  intros phy w0. unfold socketOpen.
  rewrite (bind_some _ _ _ _ _ (rdCommonReg_eq _ w)).
  fold phy_frame. fold phy. fold w0.
  destruct (Z.eqb_spec (Z.land phy 0x01) 0) as [Hdown|Hup].
  - exists false, w0. split; [reflexivity|].
    split; [apply did_read_trace|]. split; [tauto|].
    split; [discriminate|]. tauto.
  - destruct (socketClose_total socket_n w0) as (wc & Hc).
    rewrite (bind_some _ _ _ _ _ Hc).
    rewrite (bind_some _ _ _ _ _ (wrSocketReg_eq _ _ _ _)).
    rewrite (bind_some _ _ _ _ _ (socketCommand_eq _ _ _)).
    replace (u8 (mode_value mode)) with (mode_value mode)
      by (now destruct mode).
    fold (opened socket_n mode wc).
    destruct (open_sequence_run socket_n mode (opened socket_n mode wc))
      as (ok & w3 & Hrun & Ht & Hf).
    rewrite (bind_some _ _ _ _ _ Hrun).
    destruct ok.
    + exists true, w3. split; [reflexivity|].
      split; [apply did_read_trace|]. split; [tauto|].
      split; [intros _; now apply Ht|].
      intros _. exists wc. split; [exact Hc|].
      split; [now apply socketClose_outcome|].
      split; [exists w3; now split|].
      intros st ws wt Hp Hw. destruct (Hf st ws wt Hp Hw). discriminate.
    + destruct (socketClose_total socket_n w3) as (w' & Hc').
      rewrite (bind_some _ _ _ _ _ Hc').
      exists false, w'. split; [reflexivity|].
      split; [apply did_read_trace|]. split; [tauto|].
      split; [discriminate|].
      intros _. exists wc. split; [exact Hc|].
      split; [now apply socketClose_outcome|].
      split; [exists w3; split; [exact Hrun|discriminate]|].
      intros st ws wt Hp Hw. destruct (Hf st ws wt Hp Hw) as [_ ->].
      split; [reflexivity|]. split; [exact Hc'|].
      now apply socketClose_outcome.
Qed.

(** C3 as amended.  [socketKeepOpen] reads the raw status once.  For
    Listening, Established, UDP-active and every transitional byte it
    does nothing more.  For CloseWait (0x1C) it issues exactly one
    DISCONNECT command and returns: one write window, no poll, no delay.
    For Closed (0x00) and Init (0x13) it runs [socketOpen] with the given
    mode from the world the status read left, and whatever [socketOpen]
    does there (further register accesses, commands, polls with their
    timeout) is part of the call. *)
Theorem socketKeepOpen_acts_on_status (socket_n : Z) (mode : SocketMode)
        (w : World) :
  let raw := reg_byte (status_frame socket_n) w in
  let w1 := did_read (status_frame socket_n) w in
  (raw = 0x00 \/ raw = 0x13 ->
   socketKeepOpen socket_n mode w
   = match socketOpen socket_n mode w1 with
     | Some (_, w') => Some (tt, w')
     | None => None
     end)
  /\ (raw = 0x1C ->
      socketKeepOpen socket_n mode w = Some (tt, issued socket_n DISCONNECT w1))
  /\ (raw <> 0x00 -> raw <> 0x13 -> raw <> 0x1C ->
      socketKeepOpen socket_n mode w = Some (tt, w1))
  /\ trace w1
     = Bus (status_frame socket_n) (header (status_frame socket_n))
           [indeterminate] [raw] :: trace w
  /\ clock w1 = clock w
  /\ (exists echo,
        trace (issued socket_n DISCONNECT w1)
        = Bus (command_frame socket_n) (header (command_frame socket_n))
              [command_val DISCONNECT] echo :: trace w1)
  /\ clock (issued socket_n DISCONNECT w1) = clock w.
Proof.
  intros raw w1. unfold socketKeepOpen.
  rewrite (bind_some _ _ _ _ _ (socketStatusReg_eq socket_n w)).
  fold raw. fold w1.
  pose proof (status_of_byte_spec raw) as Hraw.
  repeat apply conj.
  - intros [E|E]; rewrite E; cbn; unfold bind;
      destruct (socketOpen socket_n mode w1) as [[? ?]|]; reflexivity.
  - intros E. rewrite E. cbn. apply socketCommand_eq.
  - intros H0 H1 H2.
    destruct (status_of_byte raw) as [[]|]; simpl in Hraw;
      try reflexivity; congruence.
  - apply did_read_trace.
  - reflexivity.
  - eexists. apply issued_trace.
  - reflexivity.
Qed.

End Lifecycle.

(** ** The stabilised 16-bit read *)

Section AtomicRead.

Context {P : Platform}.
Import SpiFrame SpiFrameImpl W5500.

Lemma reg_word_range (f : Frame) (w : World) : 0 <= reg_word f w < 65536.
Proof. unfold reg_word, u16. apply Z.mod_pos_bound. lia. Qed.

(** The loop from round [tries >= 1] on, [prev] being the value of the
    round before: it stops at the first read equal to its predecessor, or
    uses up its rounds and gives 0. *)
Lemma atomic_loop_spec (left : nat) (socket_n offset tries prev : Z)
      (w : World) :
  1 <= tries ->
  let f := socket_read socket_n offset in
  let l := prev :: read_seq left f w in
  exists k v,
    atomic_loop left socket_n offset tries prev w
    = Some (v, after_reads k f w)
    /\ (k <= left)%nat
    /\ 0 <= v < 65536
    /\ ((exists j, (j < left)%nat /\ k = S j
                   /\ nth j l 0 = nth (S j) l 0 /\ v = nth (S j) l 0
                   /\ forall i, (i < j)%nat -> nth i l 0 <> nth (S i) l 0)
        \/ (k = left /\ v = 0
            /\ forall i, (i < left)%nat -> nth i l 0 <> nth (S i) l 0)).
Proof.
  intros Ht f. revert tries prev w Ht.
  induction left as [|left IH]; intros tries prev w Ht l.
  - exists O, 0. split; [reflexivity|]. split; [lia|]. split; [lia|].
    right. repeat split. intros i Hi. lia.
  - cbn [atomic_loop].
    rewrite (bind_some _ _ _ _ _ (rdSocketReg16_eq _ _ _)). fold f.
    pose proof (reg_word_range f w) as Hr.
    replace (1 <=? tries) with true by (symmetry; apply Z.leb_le; lia).
    cbn [andb].
    destruct (Z.eqb_spec (reg_word f w) prev) as [E|N].
    + exists 1%nat, (reg_word f w). split; [reflexivity|].
      split; [lia|]. split; [exact Hr|].
      left. exists O. split; [lia|]. split; [reflexivity|].
      split; [subst l; cbn; congruence|]. split; [reflexivity|].
      intros i Hi. lia.
    + destruct (IH (tries + 1) (reg_word f w) (did_read16 f w) ltac:(lia))
        as (k & v & Hrun & Hk & Hv & Hcase).
      exists (S k), v. split; [exact Hrun|]. split; [lia|].
      split; [exact Hv|].
      destruct Hcase as [(j & Hj & -> & Hag & Hval & Hno)|(-> & -> & Hno)].
      * left. exists (S j). split; [lia|]. split; [reflexivity|].
        split; [exact Hag|]. split; [exact Hval|].
        intros [|i] Hi; [subst l; cbn; congruence|].
        apply (Hno i). lia.
      * right. repeat split.
        intros [|i] Hi; [subst l; cbn; congruence|].
        apply (Hno i). lia.
Qed.

Lemma rdSocketReg16_atomic_run (socket_n offset : Z) (w : World) :
  let f := socket_read socket_n offset in
  let reads := read_seq 20 f w in
  exists k v,
    rdSocketReg16_atomic socket_n offset w = Some (v, after_reads k f w)
    /\ (k <= 20)%nat
    /\ 0 <= v < 65536
    /\ ((exists i, (1 <= i < 20)%nat /\ k = S i
                   /\ agree_at reads i /\ v = nth i reads 0
                   /\ forall i', (1 <= i' < i)%nat -> ~ agree_at reads i')
        \/ (k = 20%nat /\ v = 0
            /\ forall i, (1 <= i < 20)%nat -> ~ agree_at reads i)).
Proof.
  intros f reads. unfold rdSocketReg16_atomic, max_tries.
  cbn [atomic_loop].
  rewrite (bind_some _ _ _ _ _ (rdSocketReg16_eq _ _ _)). fold f.
  cbn [Z.leb Z.compare andb].
  destruct (atomic_loop_spec 19 socket_n offset (0 + 1) (reg_word f w)
              (did_read16 f w) ltac:(lia))
    as (k & v & Hrun & Hk & Hv & Hcase).
  fold f in Hrun, Hcase.
  change (reg_word f w :: read_seq 19 f (did_read16 f w)) with reads in Hcase.
  exists (S k), v. split; [exact Hrun|]. split; [lia|]. split; [exact Hv|].
  destruct Hcase as [(j & Hj & -> & Hag & Hval & Hno)|(-> & -> & Hno)].
  - left. exists (S j). split; [lia|]. split; [reflexivity|].
    split; [|split; [exact Hval|]].
    + unfold agree_at. replace (S j - 1)%nat with j by lia. exact Hag.
    + intros i' Hi'. unfold agree_at.
      specialize (Hno (i' - 1)%nat ltac:(lia)).
      replace (S (i' - 1)) with i' in Hno by lia. exact Hno.
  - right. repeat split.
    intros i Hi. unfold agree_at.
    specialize (Hno (i - 1)%nat ltac:(lia)).
    replace (S (i - 1)) with i in Hno by lia. exact Hno.
Qed.

(** C5.  [rdSocketReg16_atomic] makes [k <= 20] plain 16-bit reads of the
    register and nothing else.  With [reads] the values the successive
    reads give, read [i+1] (for [i >= 1], counted from 1) ends the call
    with its value as soon as it equals read [i], no earlier pair having
    agreed; if no two consecutive reads among the 20 agree the result is
    0, after 20 reads.  So when reads 5 and 6 agree and no other
    consecutive pair does, the result is their common value, after 6
    reads; and when no consecutive pair agrees the result is 0. *)
Theorem rdSocketReg16_atomic_spec (socket_n offset : Z) (w : World) :
  let f := socket_read socket_n offset in
  let reads := read_seq 20 f w in
  exists k v,
    rdSocketReg16_atomic socket_n offset w = Some (v, after_reads k f w)
    /\ (k <= 20)%nat
    /\ ((exists i, (1 <= i < 20)%nat /\ k = S i
                   /\ agree_at reads i /\ v = nth i reads 0
                   /\ forall i', (1 <= i' < i)%nat -> ~ agree_at reads i')
        \/ (k = 20%nat /\ v = 0
            /\ forall i, (1 <= i < 20)%nat -> ~ agree_at reads i))
    /\ (agree_at reads 5 ->
        (forall i, (1 <= i < 20)%nat -> i <> 5%nat -> ~ agree_at reads i) ->
        v = nth 4 reads 0 /\ v = nth 5 reads 0 /\ k = 6%nat)
    /\ ((forall i, (1 <= i < 20)%nat -> ~ agree_at reads i) ->
        v = 0 /\ k = 20%nat).
Proof.
  intros f reads.
  destruct (rdSocketReg16_atomic_run socket_n offset w)
    as (k & v & Hrun & Hk & _ & Hcase).
  fold f in Hrun, Hcase. fold reads in Hcase.
  exists k, v. split; [exact Hrun|]. split; [exact Hk|].
  split; [exact Hcase|]. split.
  - intros H5 Hothers.
    destruct Hcase as [(i & Hi & -> & Hag & -> & Hno)|(_ & _ & Hno)].
    + assert (i = 5%nat) as ->.
      { destruct (Nat.eq_dec i 5) as [E|N]; [exact E|].
        destruct (Nat.lt_ge_cases i 5) as [Hlt|Hge].
        - exfalso. apply (Hothers i); [lia|exact N|exact Hag].
        - exfalso. apply (Hno 5%nat); [lia|exact H5]. }
      split; [symmetry; exact H5|]. split; reflexivity.
    + exfalso. apply (Hno 5%nat); [lia|exact H5].
  - intros Hnone.
    destruct Hcase as [(i & Hi & _ & Hag & _)|(-> & -> & _)].
    + exfalso. apply (Hnone i); [lia|exact Hag].
    + split; reflexivity.
Qed.

End AtomicRead.

(** ** The frame on the wire *)

Section FrameCodec.

Context {P : Platform}.
Import SpiFrame SpiFrameImpl W5500.


Lemma u8_land (z : Z) : u8 z = Z.land z 255.
Proof.
  unfold u8. change 255 with (Z.ones 8). rewrite Z.land_ones by lia.
  reflexivity.
Qed.

Lemma address_bytes (a : Z) :
  0 <= Z.shiftr (u16 a) 8 < 256
  /\ 0 <= Z.land (u16 a) 255 < 256
  /\ Z.shiftr (u16 a) 8 * 256 + Z.land (u16 a) 255 = u16 a.
Proof.
  pose proof (Z.mod_pos_bound a 65536 ltac:(lia)) as H. fold (u16 a) in H.
  rewrite Z.shiftr_div_pow2 by lia. rewrite <- u8_land. unfold u8.
  change (2 ^ 8) with 256.
  pose proof (Z.mod_pos_bound (u16 a) 256 ltac:(lia)).
  pose proof (Z.div_mod (u16 a) 256 ltac:(lia)).
  assert (0 <= u16 a / 256) by (apply Z.div_pos; lia).
  assert (u16 a / 256 < 256) by (apply Z.div_lt_upper_bound; lia).
  lia.
Qed.




End FrameCodec.

(** ** 16-bit registers over the register file *)

Section RegisterFile.

Import SpiFrame SpiFrameImpl W5500 Mock.

Lemma control_write_bit (socket_n offset : Z) :
  Z.testbit (control_byte (socket_write socket_n offset)) 2 = true.
Proof.
  unfold control_byte, control_expr. cbn [SpiFrame.socket_n bsb rw rw_val socket_write].
  rewrite u8_land, Z.land_spec, Z.lor_spec, Z.shiftl_spec by lia.
  rewrite Z.testbit_neg_r by lia. reflexivity.
Qed.

Lemma control_read_bit (socket_n offset : Z) :
  Z.testbit (control_byte (socket_read socket_n offset)) 2 = false.
Proof.
  unfold control_byte, control_expr. cbn [SpiFrame.socket_n bsb rw rw_val socket_read].
  rewrite u8_land, Z.land_spec, Z.lor_spec, Z.shiftl_spec by lia.
  rewrite Z.testbit_neg_r by lia. reflexivity.
Qed.

Lemma control_same_block (socket_n offset : Z) :
  Z.shiftr (control_byte (socket_write socket_n offset)) 3
  = Z.shiftr (control_byte (socket_read socket_n offset)) 3.
Proof.
  unfold control_byte, control_expr. cbn [SpiFrame.socket_n bsb rw rw_val socket_write socket_read].
  rewrite !u8_land. apply Z.bits_inj'. intros k Hk.
  rewrite !Z.shiftr_spec, !Z.land_spec, !Z.lor_spec by lia.
  f_equal. f_equal.
  change (Z.shiftl 1 2) with (2 ^ 2). change (Z.shiftl 0 2) with 0.
  rewrite Z.pow2_bits_eqb by lia. rewrite Z.testbit_0_l.
  apply Z.eqb_neq. lia.
Qed.

Lemma regfile_write2 (f : Frame) (hi lo : Z) (c : Chip) :
  Z.testbit (control_byte f) 2 = true ->
  let a := Z.shiftr (u16 (offset_addr f)) 8 * 256
           + Z.land (u16 (offset_addr f)) 255 in
  let blk := Z.shiftr (control_byte f) 3 in
  mem (snd (@exchange regfile f [hi; lo] c))
  = store (store (mem c) blk a hi) blk (u16 (a + 1)) lo.
Proof.
  intros H a blk. unfold exchange.
  cbn -[control_byte u8 u16 Z.shiftr Z.land Z.testbit Z.add Z.mul].
  rewrite H.
  cbn -[control_byte u8 u16 Z.shiftr Z.land Z.testbit Z.add Z.mul].
  rewrite H. reflexivity.
Qed.

Lemma regfile_read2 (f : Frame) (x y : Z) (c : Chip) :
  Z.testbit (control_byte f) 2 = false ->
  let a := Z.shiftr (u16 (offset_addr f)) 8 * 256
           + Z.land (u16 (offset_addr f)) 255 in
  let blk := Z.shiftr (control_byte f) 3 in
  fst (@exchange regfile f [x; y] c)
  = [u8 (mem c blk a); u8 (mem c blk (u16 (a + 1)))].
Proof.
  intros H a blk. unfold exchange.
  cbn -[control_byte u8 u16 Z.shiftr Z.land Z.testbit Z.add Z.mul].
  rewrite H.
  cbn -[control_byte u8 u16 Z.shiftr Z.land Z.testbit Z.add Z.mul].
  rewrite H. reflexivity.
Qed.

Lemma be16_inverse (v : Z) :
  0 <= v < 65536 ->
  u16 (Z.lor (Z.shiftl (u8 (Z.shiftr v 8)) 8) (u8 (Z.land v 255))) = v.
Proof.
  intros Hv.
  assert (Hh : u8 (Z.shiftr v 8) = Z.shiftr v 8).
  { unfold u8. rewrite Z.shiftr_div_pow2 by lia. change (2 ^ 8) with 256.
    apply Z.mod_small. split; [apply Z.div_pos; lia|].
    apply Z.div_lt_upper_bound; lia. }
  assert (Hl : u8 (Z.land v 255) = Z.land v 255).
  { rewrite u8_land. rewrite <- Z.land_assoc. reflexivity. }
  rewrite Hh, Hl.
  assert (E : Z.lor (Z.shiftl (Z.shiftr v 8) 8) (Z.land v 255) = v).
  { apply Z.bits_inj'. intros k Hk.
    rewrite Z.lor_spec, Z.land_spec.
    destruct (Z.ltb_spec k 8) as [Hlt|Hge].
    - rewrite Z.shiftl_spec_low by lia. cbn [orb].
      change 255 with (Z.ones 8). rewrite Z.ones_spec_low by lia.
      apply andb_true_r.
    - rewrite Z.shiftl_spec by lia. rewrite Z.shiftr_spec by lia.
      replace (k - 8 + 8) with k by lia.
      change 255 with (Z.ones 8). rewrite Z.ones_spec_high by lia.
      rewrite andb_false_r. apply orb_false_r. }
  rewrite E. unfold u16. apply Z.mod_small. lia.
Qed.

(** C10.  Over the register file, which returns the bytes last written,
    [wrSocketReg16] of a 16-bit value [v] followed by [rdSocketReg16] of
    the same register of the same socket gives [v] back, for every socket
    number and offset: the bytes [v >> 8] and [v & 0xFF] written are the
    ones read, and [(b0 << 8) | b1] puts them together again. *)
Theorem reg16_round_trip (v socket_n offset : Z) (w : @World regfile) :
  0 <= v < 65536 ->
  exists w1 w2,
    @wrSocketReg16 regfile socket_n offset v w = Some (tt, w1)
    /\ trace w1
       = Bus (socket_write socket_n offset)
             (header (socket_write socket_n offset))
             [Z.shiftr v 8; Z.land v 255] [0; 0] :: trace w
    /\ @rdSocketReg16 regfile socket_n offset w1 = Some (v, w2)
    /\ u16 (Z.lor (Z.shiftl (Z.shiftr v 8) 8) (Z.land v 255)) = v.
Proof.
  intros Hv.
  assert (Hu : u16 v = v) by (unfold u16; apply Z.mod_small; lia).
  exists (wrote16 socket_n offset v w),
         (did_read16 (socket_read socket_n offset)
                     (wrote16 socket_n offset v w)).
  split; [rewrite wrSocketReg16_eq, Hu; reflexivity|].
  split.
  { unfold wrote16, after_bus. cbn [trace]. do 2 f_equal.
    unfold exchange.
    cbn -[control_byte u8 u16 Z.shiftr Z.land Z.testbit Z.add Z.mul].
    rewrite control_write_bit.
    cbn -[control_byte u8 u16 Z.shiftr Z.land Z.testbit Z.add Z.mul].
    rewrite control_write_bit. reflexivity. }
  split.
  - rewrite rdSocketReg16_eq. do 2 f_equal.
    unfold reg_word, bus_in, wrote16, after_bus. cbn [dev].
    rewrite regfile_read2 by apply control_read_bit.
    rewrite regfile_write2 by apply control_write_bit.
    rewrite <- control_same_block.
    cbn [offset_addr socket_write socket_read nth].
    pose proof (address_bytes offset) as (_ & _ & Ha).
    set (a := Z.shiftr (u16 offset) 8 * 256 + Z.land (u16 offset) 255) in *.
    set (blk := Z.shiftr (control_byte (socket_write socket_n offset)) 3).
    assert (Ha1 : a <> u16 (a + 1)).
    { rewrite Ha. unfold u16.
      pose proof (Z.mod_pos_bound offset 65536 ltac:(lia)) as Hb.
      destruct (Z.eq_dec (offset mod 65536) 65535) as [E|N].
      - rewrite E. change ((65535 + 1) mod 65536) with 0. lia.
      - rewrite (Z.mod_small (offset mod 65536 + 1)) by lia. lia. }
    clearbody a blk. unfold store.
    rewrite (Z.eqb_refl blk), (Z.eqb_refl a), (Z.eqb_refl (u16 (a + 1))).
    replace (a =? u16 (a + 1)) with false
      by (symmetry; apply Z.eqb_neq; exact Ha1).
    cbn [andb]. apply be16_inverse. exact Hv.
  - assert (Hh : u8 (Z.shiftr v 8) = Z.shiftr v 8).
    { unfold u8. rewrite Z.shiftr_div_pow2 by lia. change (2 ^ 8) with 256.
      apply Z.mod_small. split; [apply Z.div_pos; lia|].
      apply Z.div_lt_upper_bound; lia. }
    assert (Hl : u8 (Z.land v 255) = Z.land v 255).
    { rewrite u8_land. rewrite <- Z.land_assoc. reflexivity. }
    rewrite <- Hh at 1. rewrite <- Hl. apply be16_inverse. exact Hv.
Qed.

End RegisterFile.

(** ** Send and receive *)

Section DataTransfer.

Context {P : Platform}.
Import SpiFrame SpiFrameImpl W5500.

Lemma command_is_upkeep (socket_n : Z) (c : SocketCommandReg) (echo : list Z) :
  c = CLOSE \/ c = DISCONNECT ->
  upkeep_event socket_n
    (Bus (command_frame socket_n) (header (command_frame socket_n))
         [command_val c] echo) = true.
Proof.
  intros [-> | ->]; unfold upkeep_event, is_command, frame_eqb;
    cbn [command_frame offset_addr SpiFrame.socket_n bsb rw];
    rewrite !Z.eqb_refl; reflexivity.
Qed.

Lemma after_reads_events (k : nat) (f : Frame) (w : World) :
  rw f = Read ->
  exists evs,
    since w (after_reads k f w) evs
    /\ forall socket_n, forallb (upkeep_event socket_n) evs = true.
Proof.
  intros Hf. revert w. induction k as [|k IH]; intros w.
  - exists []. split; [reflexivity|]. reflexivity.
  - cbn [after_reads]. destruct (IH (did_read16 f w)) as (evs & Hs & Hall).
    exists (evs ++ [Bus f (header f) [indeterminate; indeterminate]
                    (bus_in f [indeterminate; indeterminate] w)]).
    split.
    + unfold since in *. rewrite Hs. rewrite <- app_assoc. reflexivity.
    + intros n. rewrite forallb_app, Hall. cbn. now rewrite Hf.
Qed.

(** Both availability queries, [offset] being the counter register. *)
Lemma available_run (socket_n offset : Z) (w : World) :
  exists avail wa evs,
    (c <- socketConnected socket_n ;;
     if c then rdSocketReg16_atomic socket_n offset else ret 0)%drv w
    = Some (avail, wa)
    /\ 0 <= avail < 65536
    /\ since w wa evs
    /\ forallb (upkeep_event socket_n) evs = true.
Proof.
  unfold bind at 1. rewrite socketConnected_eq.
  set (raw := reg_byte (status_frame socket_n) w).
  set (w1 := did_read (status_frame socket_n) w).
  set (e1 := Bus (status_frame socket_n) (header (status_frame socket_n))
                 [indeterminate] [raw]).
  assert (He1 : trace w1 = e1 :: trace w) by apply did_read_trace.
  assert (Hu1 : upkeep_event socket_n e1 = true) by reflexivity.
  assert (Hconn :
    exists avail wa evs,
      rdSocketReg16_atomic socket_n offset w1 = Some (avail, wa)
      /\ 0 <= avail < 65536 /\ since w wa evs
      /\ forallb (upkeep_event socket_n) evs = true).
  { destruct (rdSocketReg16_atomic_run socket_n offset w1)
      as (k & v & Hrun & _ & Hv & _).
    destruct (after_reads_events k (socket_read socket_n offset) w1 eq_refl)
      as (evs & Hs & Hall).
    exists v, (after_reads k (socket_read socket_n offset) w1), (evs ++ [e1]).
    split; [exact Hrun|]. split; [exact Hv|]. split.
    - unfold since in *. rewrite Hs, He1, <- app_assoc. reflexivity.
    - rewrite forallb_app, Hall. cbn [forallb]. now rewrite Hu1. }
  assert (Hcmd : forall c, c = CLOSE \/ c = DISCONNECT ->
    exists evs,
      since w (issued socket_n c w1) evs
      /\ forallb (upkeep_event socket_n) evs = true).
  { intros c Hc. eexists [_; e1]. split.
    - unfold since. rewrite issued_trace, He1. reflexivity.
    - cbn [forallb]. rewrite (command_is_upkeep socket_n c _ Hc), Hu1.
      reflexivity. }
  destruct (status_of_byte raw) as [[]|].
  - exists 0, w1, [e1]. split; [reflexivity|]. split; [lia|].
    split; [exact He1|]. cbn [forallb]. now rewrite Hu1.
  - destruct (Hcmd CLOSE) as (evs & Hs & Hall); [tauto|].
    exists 0, (issued socket_n CLOSE w1), evs.
    split; [reflexivity|]. split; [lia|]. split; assumption.
  - exists 0, w1, [e1]. split; [reflexivity|]. split; [lia|].
    split; [exact He1|]. cbn [forallb]. now rewrite Hu1.
  - exact Hconn.
  - destruct (Hcmd DISCONNECT) as (evs & Hs & Hall); [tauto|].
    exists 0, (issued socket_n DISCONNECT w1), evs.
    split; [reflexivity|]. split; [lia|]. split; assumption.
  - exact Hconn.
  - exists 0, w1, [e1]. split; [reflexivity|]. split; [lia|].
    split; [exact He1|]. cbn [forallb]. now rewrite Hu1.
Qed.

Lemma u16_small (z : Z) : 0 <= z < 65536 -> u16 z = z.
Proof. intros H. unfold u16. now apply Z.mod_small. Qed.

Lemma firstn_exact (data : list Z) (n : Z) :
  0 <= n <= Z.of_nat (length data) ->
  Z.of_nat (length (firstn (Z.to_nat n) data)) = n.
Proof. intros H. rewrite length_firstn. lia. Qed.

(** C7.  [send] clamps [len] to what [sendAvailable] reports.  If that
    leaves 0 it returns 0 in the world [sendAvailable] left, where every
    bus window since the call began is a read or a CLOSE or DISCONNECT
    command: no buffer write, no pointer update, no SEND.  Otherwise it
    reads the TX write pointer, writes the clamped number of bytes of the
    buffer to the TX block at that pointer, writes the pointer plus the
    length modulo 2^16 back, issues SEND and returns the clamped length.
    A pointer of 0xFFF8 advanced by 16 is 0x0008. *)
Theorem send_spec (socket_n : Z) (data : list Z) (len : Z) (w : World) :
  0 <= len < 65536 ->
  len <= Z.of_nat (length data) ->
  exists avail wa evs,
    sendAvailable socket_n w = Some (avail, wa)
    /\ 0 <= avail < 65536
    /\ since w wa evs
    /\ forallb (upkeep_event socket_n) evs = true
    /\ let sent := Z.min len avail in
       let ptr := socket_read socket_n SocketOffsetAddr.tx_write_pointer in
       let write_pointer := reg_word ptr wa in
       let w1 := did_read16 ptr wa in
       let buf := mkFrame write_pointer socket_n TxBuffer Write in
       let out := firstn (Z.to_nat sent) data in
       let w2 := after_bus buf out w1 in
       let w3 := wrote16 socket_n SocketOffsetAddr.tx_write_pointer
                         ((write_pointer + sent) mod 65536) w2 in
       (sent = 0 -> send socket_n data len w = Some ((0, data), wa))
       /\ (sent <> 0 ->
           send socket_n data len w
           = Some ((sent, bus_in buf out w1 ++ skipn (Z.to_nat sent) data),
                   issued socket_n SEND w3)
           /\ Z.of_nat (length out) = sent)
       /\ u16 (0xFFF8 + 16) = 0x0008.
Proof.
  intros Hlen Hbuf.
  destruct (available_run socket_n SocketOffsetAddr.tx_free_size w)
    as (avail & wa & evs & Hrun & Hav & Hs & Hall).
  fold (sendAvailable socket_n) in Hrun.
  exists avail, wa, evs. repeat (split; [assumption|]).
  cbv zeta. unfold send. rewrite (bind_some _ _ _ _ _ Hrun).
  split; [|split; [|reflexivity]].
  - intros E. now rewrite E.
  - intros N.
    replace (Z.min len avail =? 0) with false
      by (symmetry; now apply Z.eqb_neq).
    rewrite (bind_some _ _ _ _ _ (rdSocketReg16_eq _ _ _)).
    rewrite (bind_some _ _ _ _ _ (transfer_eq _ _ _ _)).
    rewrite (bind_some _ _ _ _ _ (wrSocketReg16_eq _ _ _ _)).
    rewrite (bind_some _ _ _ _ _ (socketCommand_eq _ _ _)).
    split; [reflexivity|]. apply firstn_exact. lia.
Qed.

Lemma be16_value (h l : Z) :
  0 <= h -> 0 <= l < 256 -> Z.lor (Z.shiftl h 8) l = h * 256 + l.
Proof.
  intros Hh Hl. rewrite Z.shiftl_mul_pow2 by lia. change (2 ^ 8) with 256.
  rewrite <- (Z.add_lor_land (h * 256) l).
  assert (E : Z.land (h * 256) l = 0).
  { apply Z.bits_inj'. intros k Hk. rewrite Z.land_spec, Z.testbit_0_l.
    destruct (Z.ltb_spec k 8) as [Hlt|Hge].
    - change 256 with (2 ^ 8). rewrite Z.mul_pow2_bits_low by lia.
      reflexivity.
    - replace l with (l mod 2 ^ 8) by (apply Z.mod_small; simpl; lia).
      rewrite Z.mod_pow2_bits_high by lia. apply andb_false_r. }
  rewrite E. lia.
Qed.

Lemma bus_in_byte (f : Frame) (out : list Z) (w : World) (i : nat) :
  0 <= nth i (bus_in f out w) 0 < 256.
Proof.
  pose proof (exchange_bytes f out (dev w)) as H. unfold bus_in.
  destruct (Nat.lt_ge_cases i (length (fst (exchange f out (dev w)))))
    as [Hlt|Hge].
  - rewrite Forall_forall in H. apply H. now apply nth_In.
  - rewrite nth_overflow by lia. lia.
Qed.

(** C6.  [receive] with [udpIgnoreHeader] set clamps [len] to what
    [receiveAvailable] reports.  If the clamped length is below 8, as it
    is whenever the caller's buffer holds fewer than 8 bytes, it returns 0
    and every bus window of the call is a read or a CLOSE or DISCONNECT
    command: the read pointer is not written and RECV is not issued.
    Otherwise it reads the 8 header bytes at the read pointer, takes
    [L = header[6] * 256 + header[7]], reads [min (clamped - 8) L] payload
    bytes into the buffer from the pointer plus 8, writes the pointer
    plus 8 plus that number (modulo 2^16) back, issues RECV and returns
    that number. *)
Theorem receive_strips_header (socket_n : Z) (data : list Z) (len : Z)
        (w : World) :
  0 <= len < 65536 ->
  len <= Z.of_nat (length data) ->
  exists avail wa evs,
    receiveAvailable socket_n w = Some (avail, wa)
    /\ 0 <= avail < 65536
    /\ since w wa evs
    /\ forallb (upkeep_event socket_n) evs = true
    /\ let clamped := Z.min len avail in
       let ptr := socket_read socket_n SocketOffsetAddr.rx_read_pointer in
       let read_pointer := reg_word ptr wa in
       let w1 := did_read16 ptr wa in
       let hf := mkFrame read_pointer socket_n RxBuffer Read in
       let udp_header := bus_in hf (repeat indeterminate 8) w1 in
       let w2 := after_bus hf (repeat indeterminate 8) w1 in
       let L := nth 6 udp_header 0 * 256 + nth 7 udp_header 0 in
       let got := Z.min (clamped - 8) L in
       let pf := mkFrame ((read_pointer + 8) mod 65536) socket_n RxBuffer Read in
       let out := firstn (Z.to_nat got) data in
       let w3 := after_bus pf out w2 in
       let w4 := wrote16 socket_n SocketOffsetAddr.rx_read_pointer
                         ((read_pointer + 8 + got) mod 65536) w3 in
       (len < 8 -> clamped < 8)
       /\ (clamped < 8 ->
           exists wz evz,
             receive socket_n data len true w = Some ((0, data), wz)
             /\ since w wz evz
             /\ forallb (upkeep_event socket_n) evz = true)
       /\ (8 <= clamped ->
           receive socket_n data len true w
           = Some ((got, bus_in pf out w2 ++ skipn (Z.to_nat got) data),
                   issued socket_n RECV w4)
           /\ length udp_header = 8%nat
           /\ Z.of_nat (length out) = got).
Proof.
  intros Hlen Hbuf.
  destruct (available_run socket_n SocketOffsetAddr.rx_received_size w)
    as (avail & wa & evs & Hrun & Hav & Hs & Hall).
  fold (receiveAvailable socket_n) in Hrun.
  exists avail, wa, evs. repeat (split; [assumption|]).
  cbv zeta. unfold receive. rewrite (bind_some _ _ _ _ _ Hrun).
  split; [lia|]. split.
  - intros Hsmall.
    destruct (Z.eqb_spec (Z.min len avail) 0) as [E|N].
    + exists wa, evs. now repeat split.
    + rewrite (bind_some _ _ _ _ _ (rdSocketReg16_eq _ _ _)).
      replace (Z.min len avail <? 8) with true
        by (symmetry; now apply Z.ltb_lt).
      eexists _, (_ :: evs). split; [reflexivity|]. split.
      * unfold since in *. unfold did_read16, after_bus. cbn [trace].
        rewrite Hs. reflexivity.
      * cbn [forallb]. rewrite Hall. reflexivity.
  - intros Hbig.
    replace (Z.min len avail =? 0) with false
      by (symmetry; apply Z.eqb_neq; lia).
    rewrite (bind_some _ _ _ _ _ (rdSocketReg16_eq _ _ _)).
    replace (Z.min len avail <? 8) with false
      by (symmetry; apply Z.ltb_ge; lia).
    rewrite (bind_some _ _ _ _ _ (transfer_eq _ _ _ _)).
    change (Z.to_nat 8) with 8%nat.
    change (firstn 8 (repeat indeterminate 8)) with (repeat indeterminate 8).
    change (skipn 8 (repeat indeterminate 8)) with (@nil Z).
    rewrite app_nil_r.
    set (ptr := socket_read socket_n SocketOffsetAddr.rx_read_pointer).
    set (rp := reg_word ptr wa).
    set (w1 := did_read16 ptr wa).
    set (hf := mkFrame rp socket_n RxBuffer Read).
    set (hd := bus_in hf (repeat indeterminate 8) w1).
    pose proof (bus_in_byte hf (repeat indeterminate 8) w1 6) as H6.
    pose proof (bus_in_byte hf (repeat indeterminate 8) w1 7) as H7.
    fold hd in H6, H7.
    rewrite (be16_value (nth 6 hd 0) (nth 7 hd 0)) by lia.
    set (got := Z.min (Z.min len avail - 8) (nth 6 hd 0 * 256 + nth 7 hd 0)).
    assert (Hgot : 0 <= got < 65536) by (subst got; lia).
    rewrite (u16_small got Hgot).
    rewrite (bind_some _ _ _ _ _ (transfer_eq _ _ _ _)).
    rewrite (bind_some _ _ _ _ _ (wrSocketReg16_eq _ _ _ _)).
    rewrite (bind_some _ _ _ _ _ (socketCommand_eq _ _ _)).
    replace (u16 (u16 (rp + 8) + got)) with ((rp + 8 + got) mod 65536)
      by (unfold u16; now rewrite Zplus_mod_idemp_l).
    split; [reflexivity|]. split.
    + subst hd. unfold bus_in. rewrite exchange_length. apply repeat_length.
    + apply firstn_exact. subst got. lia.
Qed.

End DataTransfer.

(** ** Runs on the bench *)

Section BenchRuns.

Import SpiFrame SpiFrameImpl W5500 Mock Bench.

(** On [chip] the status register of socket 0 is byte 3 of block 1, and
    reading it changes no register. *)
Lemma chip_status_byte (w : @World chip) :
  @reg_byte chip (status_frame 0) w = u8 (mem (dev w) 1 3).
Proof. destruct w as [[h a m] c t]. reflexivity. Qed.

Lemma chip_status_read_mem (w : @World chip) :
  mem (dev (@did_read chip (status_frame 0) w)) = mem (dev w).
Proof. destruct w as [[h a m] c t]. reflexivity. Qed.

Lemma chip_closed_stays_closed : @closed_stays_closed chip 0.
Proof.
  intros w H. rewrite chip_status_byte in *.
  now rewrite chip_status_read_mem.
Qed.

Lemma chip_close_command_closes : @close_command_closes chip 0.
Proof.
  intros w. rewrite chip_status_byte.
  destruct w as [[h a m] c t]. reflexivity.
Qed.

Lemma socketOpen_spec_witness :
  Z.land (@reg_byte regfile phy_frame regfile_no_link) 0x01 = 0
  /\ (exists w',
        @socketOpen regfile 0 UDP regfile_no_link = Some (false, w')
        /\ trace w' = [Bus phy_frame [0; 0x2E; 0] [0] [0]])
  /\ (exists w' wl,
        @socketOpen chip 0 TCP_Client chip_idle = Some (true, w')
        /\ w' = @did_read chip (status_frame 0) wl
        /\ @reg_byte chip (status_frame 0) wl = status_val SOCK_ESTABLISHED)
  /\ Z.land (@reg_byte regfile phy_frame regfile_idle) 0x01 <> 0
  /\ (let ws := @opened regfile 0 UDP
                  (did_read (status_frame 0)
                            (did_read phy_frame regfile_idle)) in
      exists wt w',
        @wait_point regfile 0 UDP ws SOCK_UDP ws
        /\ waitSocketStatus 0 SOCK_UDP socket_timeout ws = Some (false, wt)
        /\ clock wt = 3000
        /\ @socketOpen regfile 0 UDP regfile_idle = Some (false, w')
        /\ socketClose 0 wt = Some (tt, w')
        /\ close_outcome 0 wt w').
Proof.
  assert (Hlink : Z.land (@reg_byte regfile phy_frame regfile_idle) 0x01 <> 0).
  { vm_compute. discriminate. }
  split; [reflexivity|]. split; [|split; [|split; [exact Hlink|]]].
  - destruct (@socketOpen_spec regfile 0 UDP regfile_no_link)
      as (ok & w' & Hrun & Htr & Hdown & _).
    destruct (Hdown eq_refl) as [Hok Hw]. subst ok. subst w'.
    eexists. split; [exact Hrun|]. reflexivity.
  - destruct (@socketOpen_spec chip 0 TCP_Client chip_idle)
      as (ok & w' & Hrun & _ & _ & Hsucc & _).
    assert (Hok : Some ok = Some true).
    { assert (E : option_map fst (@socketOpen chip 0 TCP_Client chip_idle)
                  = Some true) by (vm_compute; reflexivity).
      rewrite Hrun in E. exact E. }
    assert (Hok' : ok = true) by congruence.
    destruct (Hsucc Hok') as (ws & wl & _ & Hw & Hv & _).
    exists w', wl. rewrite Hrun, Hok'. split; [reflexivity|].
    split; assumption.
  - intros ws.
    destruct (@socketOpen_spec regfile 0 UDP regfile_idle)
      as (ok & w' & Hrun & _ & _ & _ & Hup).
    destruct (Hup Hlink) as (wc & Hc & _ & _ & Hto).
    assert (Hwc : wc = did_read (status_frame 0)
                                (did_read phy_frame regfile_idle)).
    { destruct (@socketClose_run regfile 0 (did_read phy_frame regfile_idle))
        as (wc' & Hc' & H0 & _).
      rewrite Hc in Hc'. assert (E : wc = wc') by congruence.
      rewrite E. apply H0. reflexivity. }
    rewrite Hwc in Hto. fold ws in Hto.
    destruct (@waitSocketStatus_spec regfile 0 SOCK_UDP ws)
      as (ok1 & wt & Hw & _ & Hfl).
    assert (Hok1 : ok1 = false).
    { assert (E : option_map fst
                    (@waitSocketStatus regfile 0 SOCK_UDP socket_timeout ws)
                  = Some false) by (vm_compute; reflexivity).
      rewrite Hw in E. simpl in E. congruence. }
    rewrite Hok1 in Hw.
    destruct (Hto SOCK_UDP ws wt (wait_udp 0 UDP ws eq_refl) Hw)
      as (Hok & Hcl & Hout).
    exists wt, w'. split; [now apply wait_udp|]. split; [exact Hw|].
    split; [rewrite (Hfl Hok1); reflexivity|].
    split; [rewrite Hrun, Hok; reflexivity|].
    split; assumption.
Defined.

(** C1, counterexample.  Socket 0 reads Established, the link is up, and
    the chip does not react to DISCONNECT.  The DISCONNECT wait of the
    close that [socketOpen] starts with runs its whole timeout, and the
    call still returns [true], 3000 ms later: the close falls back to
    CLOSE, and mode register, OPEN and LISTEN follow, each status poll of
    the open sequence succeeding at once. *)
Lemma socketOpen_true_after_timeout :
  option_map fst
    (@waitSocketStatus deaf 0 SOCK_CLOSED socket_timeout
       (issued 0 DISCONNECT
          (did_read (status_frame 0)
                    (did_read phy_frame deaf_established))))
  = Some false
  /\ match @socketOpen deaf 0 TCP_Server deaf_established with
     | Some (ok, w') =>
         ok = true
         /\ clock w' = clock deaf_established + 3000
         /\ filter is_poll (trace w')
            = [Poll (status_frame 0) 0xFF 0x14 3000;
               Poll (status_frame 0) 0xFF 0x13 3000;
               Poll (status_frame 0) 0xFF 0x00 3000]
         /\ map (fun e => match e with Bus _ _ out _ => out | _ => [] end)
                (filter is_write (trace w'))
            = [[0x02]; [0x01]; [0x41]; [0x10]; [0x08]]
     | None => False
     end.
Proof. split; vm_compute; repeat split. Qed.

Lemma socketClose_converges_witness :
  @closed_stays_closed chip 0 /\ @close_command_closes chip 0
  /\ (exists w' w'',
        @socketClose chip 0 (chip_in 0x17) = Some (tt, w')
        /\ @socketStatus chip 0 w' = Some (Closed, w''))
  /\ @reg_byte regfile (status_frame 0) regfile_sending = 0x17
  /\ (exists w' wt,
        @waitSocketStatus regfile 0 SOCK_CLOSED socket_timeout
          (issued 0 DISCONNECT (did_read (status_frame 0) regfile_sending))
        = Some (false, wt)
        /\ clock wt = 3000
        /\ @socketClose regfile 0 regfile_sending = Some (tt, w')
        /\ w' = issued 0 CLOSE wt).
Proof.
  split; [exact chip_closed_stays_closed|].
  split; [exact chip_close_command_closes|].
  split; [|split; [reflexivity|]].
  - destruct (@socketClose_converges chip 0 (chip_in 0x17))
      as (w' & Hrun & _ & _ & _ & Hconv).
    destruct (Hconv chip_closed_stays_closed chip_close_command_closes)
      as (w'' & Hst).
    exists w', w''. split; assumption.
  - destruct (@socketClose_converges regfile 0 regfile_sending)
      as (w' & Hrun & _ & Hd & _).
    destruct (Hd (or_introl eq_refl)) as (ok & wt & Hw & Hw' & _ & Hfl).
    assert (Hok : ok = false).
    { assert (E : option_map fst
                    (@waitSocketStatus regfile 0 SOCK_CLOSED socket_timeout
                       (issued 0 DISCONNECT
                          (did_read (status_frame 0) regfile_sending)))
                  = Some false) by (vm_compute; reflexivity).
      rewrite Hw in E. simpl in E. congruence. }
    rewrite Hok in Hw, Hw'.
    exists w', wt. split; [exact Hw|].
    split; [rewrite (Hfl Hok); reflexivity|].
    split; assumption.
Defined.

(** C2, counterexample.  Socket 0 of the plain register file reads
    Established, and the register file reacts to no command.
    [socketClose] issues DISCONNECT, polls for the whole 3000 ms, issues
    CLOSE and returns; the [socketStatus] call that follows reads
    Established and reports [TCP_Connected], not [Closed]. *)
Lemma socketClose_then_status_connected :
  match @socketClose regfile 0 regfile_sending with
  | Some (_, w') =>
      option_map fst (@socketStatus regfile 0 w') = Some TCP_Connected
      /\ clock w' = clock regfile_sending + 3000
      /\ map (fun e => match e with Bus _ _ out _ => out | _ => [] end)
             (filter is_write (trace w')) = [[0x10]; [0x08]]
  | None => False
  end.
Proof. vm_compute; repeat split. Qed.

Lemma socketKeepOpen_acts_on_status_witness :
  @reg_byte chip (status_frame 0) (chip_in 0x1C) = 0x1C
  /\ exists w',
       @socketKeepOpen chip 0 TCP_Server (chip_in 0x1C) = Some (tt, w')
       /\ trace w'
          = [Bus (command_frame 0) [0; 1; 12] [0x08] [0];
             Bus (status_frame 0) [0; 3; 8] [0] [0x1C]].
Proof.
  split; [reflexivity|].
  destruct (@socketKeepOpen_acts_on_status chip 0 TCP_Server (chip_in 0x1C))
    as (_ & Hcw & _).
  eexists. split; [exact (Hcw eq_refl)|]. reflexivity.
Defined.

(** C3, counterexample.  Socket 0 reads Closed and the link is up, so
    [socketKeepOpen] re-opens.  On the register file, whose status never
    becomes UDP-active, the call enters the poll primitive and stays in it
    for the whole timeout of 3000 ms, after two register writes (mode
    register, OPEN).  On the chip that reacts to commands, opening as TCP
    server enters the poll primitive twice and issues two commands (OPEN,
    LISTEN) after the mode register write. *)
Lemma socketKeepOpen_polls_and_waits :
  match @socketKeepOpen regfile 0 UDP regfile_idle with
  | Some (_, w') =>
      filter is_poll (trace w') = [Poll (status_frame 0) 0xFF 0x22 3000]
      /\ clock w' = clock regfile_idle + 3000
      /\ map (fun e => match e with Bus _ _ out _ => out | _ => [] end)
             (filter is_write (trace w')) = [[0x01]; [0x42]]
  | None => False
  end
  /\ match @socketKeepOpen chip 0 TCP_Server chip_idle with
     | Some (_, w') =>
         filter is_poll (trace w')
         = [Poll (status_frame 0) 0xFF 0x14 3000;
            Poll (status_frame 0) 0xFF 0x13 3000]
         /\ map (fun e => match e with Bus _ _ out _ => out | _ => [] end)
                (filter is_write (trace w')) = [[0x02]; [0x01]; [0x41]]
     | None => False
     end.
Proof. split; vm_compute; repeat split. Qed.

Lemma socketStatus_maps_raw_status_witness :
  @reg_byte chip (status_frame 0) (chip_in 0x13) = 0x13
  /\ exists w',
       @socketStatus chip 0 (chip_in 0x13) = Some (Closed, w')
       /\ trace w'
          = [Bus (command_frame 0) [0; 1; 12] [0x10] [0];
             Bus (status_frame 0) [0; 3; 8] [0] [0x13]].
Proof.
  split; [reflexivity|].
  destruct (@socketStatus_maps_raw_status chip 0 (chip_in 0x13))
    as (Hinit & _).
  eexists. split; [exact (Hinit eq_refl)|]. reflexivity.
Defined.

Lemma available_queries_maintain_witness :
  @reg_byte chip (status_frame 0) (chip_in 0x1C) = 0x1C
  /\ exists w',
       @sendAvailable chip 0 (chip_in 0x1C) = Some (0, w')
       /\ @receiveAvailable chip 0 (chip_in 0x1C) = Some (0, w')
       /\ trace w'
          = [Bus (command_frame 0) [0; 1; 12] [0x08] [0];
             Bus (status_frame 0) [0; 3; 8] [0] [0x1C]].
Proof.
  split; [reflexivity|].
  destruct (@available_queries_maintain chip 0 (chip_in 0x1C))
    as (_ & Hcw & _).
  destruct (Hcw eq_refl) as [Hs Hr].
  eexists. split; [exact Hs|]. split; [exact Hr|]. reflexivity.
Defined.

Lemma rdSocketReg16_atomic_spec_witness :
  @read_seq tape 20 (socket_read 0 0x26) tape_counter = counter_values
  /\ agree_at counter_values 5
  /\ exists w', @rdSocketReg16_atomic tape 0 0x26 tape_counter = Some (5, w').
Proof.
  split; [reflexivity|]. split; [reflexivity|].
  destruct (@rdSocketReg16_atomic_spec tape 0 0x26 tape_counter)
    as (k & v & Hrun & _ & _ & H56 & _).
  change (@read_seq tape 20 (socket_read 0 0x26) tape_counter)
    with counter_values in H56.
  destruct H56 as (_ & Hv & _).
  - reflexivity.
  - intros i Hi Hne.
    do 20 (destruct i as [|i]; [try lia; vm_compute; discriminate|]).
    lia.
  - eexists. rewrite Hrun. rewrite Hv. reflexivity.
Defined.

Lemma receive_strips_header_witness :
  0 <= 32 < 65536
  /\ 32 <= Z.of_nat (length (repeat 0 32))
  /\ (exists avail wa r,
        @receiveAvailable regfile 0 regfile_datagram = Some (avail, wa)
        /\ 8 <= Z.min 32 avail
        /\ @receive regfile 0 (repeat 0 32) 32 true regfile_datagram = Some r)
  /\ option_map fst
       (@receive regfile 0 (repeat 0 32) 32 true regfile_datagram)
     = Some (4, [1; 2; 3; 4] ++ repeat 0 28).
Proof.
  split; [lia|]. split; [vm_compute; discriminate|].
  split; [|vm_compute; reflexivity].
  destruct (@receive_strips_header regfile 0 (repeat 0 32) 32 regfile_datagram)
    as (avail & wa & evs & Hrun & _ & _ & _ & _ & _ & Hbig);
    [lia | vm_compute; discriminate |].
  assert (Havail : Some avail = Some 12).
  { assert (E : option_map fst (@receiveAvailable regfile 0 regfile_datagram)
                = Some 12) by (vm_compute; reflexivity).
    rewrite Hrun in E. exact E. }
  assert (H8 : 8 <= Z.min 32 avail).
  { replace avail with 12 by congruence. vm_compute. discriminate. }
  destruct (Hbig H8) as (Hrecv & _).
  exists avail, wa. eexists. split; [exact Hrun|]. split; [exact H8|].
  exact Hrecv.
Defined.

Lemma send_spec_witness :
  0 <= 16 < 65536
  /\ 16 <= Z.of_nat (length (repeat 7 16))
  /\ exists avail wa evs,
       @sendAvailable regfile 0 regfile_sending = Some (avail, wa)
       /\ 0 <= avail < 65536
       /\ since regfile_sending wa evs
       /\ forallb (upkeep_event 0) evs = true.
Proof.
  split; [lia|]. split; [vm_compute; discriminate|].
  destruct (@send_spec regfile 0 (repeat 7 16) 16 regfile_sending)
    as (avail & wa & evs & Hrun & Hav & Hs & Hall & _);
    [lia | vm_compute; discriminate |].
  exists avail, wa, evs. repeat split; try assumption; apply Hav.
Defined.


Lemma reg16_round_trip_witness :
  0 <= 0xBEEF < 65536
  /\ exists w1 w2,
       @wrSocketReg16 regfile 3 0x24 0xBEEF regfile_idle = Some (tt, w1)
       /\ @rdSocketReg16 regfile 3 0x24 w1 = Some (0xBEEF, w2).
Proof.
  split; [lia|].
  destruct (reg16_round_trip 0xBEEF 3 0x24 regfile_idle)
    as (w1 & w2 & Hw & _ & Hr & _); [lia|].
  exists w1, w2. split; assumption.
Defined.

End BenchRuns.

(** ** Polling: what it does on the bus and how long it takes *)

Section PollConduct.

Context {P : Platform}.
Import SpiFrame SpiFrameImpl W5500.

Lemma bind_inv {A B} (m : M A) (k : A -> M B) (w w2 : World) (b : B) :
  bind m k w = Some (b, w2) ->
  exists a w1, m w = Some (a, w1) /\ k a w1 = Some (b, w2).
Proof.
  unfold bind. destruct (m w) as [[a w1]|]; [|discriminate].
  intros H. now exists a, w1.
Qed.

Lemma frame_eqb_refl (f : Frame) : frame_eqb f f = true.
Proof.
  unfold frame_eqb, bsb_eqb, rw_eqb. now rewrite !Z.eqb_refl.
Qed.

Lemma wait_loop_conduct (fuel : nat) (f : Frame) (mask value limit c0 : Z)
      (w : World) :
  0 <= limit < 4294967296 ->
  c0 <= clock w <= c0 + limit ->
  c0 + limit - clock w < Z.of_nat fuel ->
  exists ok w' evs,
    wait_loop fuel f mask value (u32 c0) limit w = Some (ok, w')
    /\ since w w' evs
    /\ forallb (poll_step f) evs = true
    /\ Z.of_nat (bus_windows evs) <= c0 + limit - clock w
    /\ clock w <= clock w' <= c0 + limit
    /\ (ok = false ->
        clock w' = c0 + limit
        /\ Z.of_nat (bus_windows evs) = c0 + limit - clock w).
Proof.
  intros Hl. revert w. induction fuel as [|fuel IH]; intros w Hc Hf.
  - simpl in Hf. lia.
  - cbn [wait_loop]. unfold bind at 1. unfold millis at 1.
    rewrite u32_diff.
    assert (E : u32 (clock w - c0) = clock w - c0)
      by (unfold u32; apply Z.mod_small; lia).
    rewrite E. destruct (Z.ltb_spec (clock w - c0) limit) as [Hlt|Hge].
    + unfold bind at 1. rewrite transfer_eq. buffers.
      set (e := Bus f (header f) [indeterminate]
                    (bus_in f [indeterminate] w)).
      assert (He : poll_step f e = true).
      { subst e. cbn [poll_step]. rewrite frame_eqb_refl.
        rewrite (bus_in_one f indeterminate w). reflexivity. }
      destruct (Z.eqb_spec
                  (Z.land (nth 0 (bus_in f [indeterminate] w) 0) mask) value)
        as [Hv|Hv].
      * exists true, (after_bus f [indeterminate] w), [e].
        split; [reflexivity|]. split; [reflexivity|].
        split; [cbn [forallb]; now rewrite He|].
        split; [cbn; lia|]. split; [cbn; lia|]. discriminate.
      * unfold bind at 1. unfold delay at 1.
        set (w1 := {| dev := _; clock := _; trace := _ |}).
        destruct (IH w1) as (ok & w' & evs & Hrun & Hs & Hall & Hn & Hck & Hfalse).
        { subst w1. simpl. lia. }
        { subst w1. simpl. lia. }
        exists ok, w', (evs ++ [Delay 1; e]).
        split; [exact Hrun|]. split.
        { unfold since in *. rewrite Hs, <- app_assoc. reflexivity. }
        split.
        { rewrite forallb_app, Hall. cbn [forallb andb]. rewrite He.
          reflexivity. }
        assert (Hcount : bus_windows (evs ++ [Delay 1; e])
                         = S (bus_windows evs)).
        { unfold bus_windows. rewrite filter_app, length_app.
          subst e. cbn. lia. }
        rewrite Hcount. subst w1. cbn [clock after_bus] in *.
        split; [lia|]. split; [lia|].
        intros Hok. destruct (Hfalse Hok). lia.
    + exists false, w, []. split; [reflexivity|]. split; [reflexivity|].
      split; [reflexivity|]. cbn. repeat split; lia.
Qed.

(** X1.  [wait_for_value] always returns, for every clock value and so
    also across the rollover of [millis].  All it puts on the bus are
    one-byte windows on the given frame, at most [timeout_ms] of them, and
    it returns no later than [timeout_ms] after it was entered.  [false]
    comes exactly at the end of the timeout, after exactly [timeout_ms]
    reads; a timeout of 0 reads nothing. *)
Theorem wait_for_value_conduct (f : Frame) (mask value timeout_ms : Z)
        (w : World) :
  0 <= timeout_ms < 4294967296 ->
  exists ok w' evs,
    wait_for_value f mask value timeout_ms w = Some (ok, w')
    /\ since w w' evs
    /\ forallb (poll_step f) evs = true
    /\ Z.of_nat (bus_windows evs) <= timeout_ms
    /\ clock w <= clock w' <= clock w + timeout_ms
    /\ (ok = false ->
        clock w' = clock w + timeout_ms
        /\ Z.of_nat (bus_windows evs) = timeout_ms).
Proof.
  intros Ht. unfold wait_for_value. unfold bind at 1. unfold log at 1.
  unfold bind at 1. unfold millis at 1. cbn [clock].
  set (w0 := {| dev := _; clock := _; trace := _ |}).
  destruct (wait_loop_conduct (S (Z.to_nat timeout_ms)) f mask value
              timeout_ms (clock w) w0 Ht)
    as (ok & w' & evs & Hrun & Hs & Hall & Hn & Hck & Hfalse).
  - subst w0. simpl. lia.
  - subst w0. simpl. lia.
  - subst w0. cbn [clock] in *.
    exists ok, w', (evs ++ [Poll f mask value timeout_ms]).
    split; [exact Hrun|]. split.
    { unfold since in *. rewrite Hs, <- app_assoc. reflexivity. }
    split.
    { rewrite forallb_app, Hall. cbn [forallb poll_step andb].
      now rewrite frame_eqb_refl. }
    assert (Hcount : bus_windows (evs ++ [Poll f mask value timeout_ms])
                     = bus_windows evs).
    { unfold bus_windows. rewrite filter_app, length_app. cbn. lia. }
    rewrite Hcount. split; [lia|]. split; [lia|].
    intros Hok. destruct (Hfalse Hok). lia.
Qed.

(** X2.  A value with a bit outside the mask can never be seen:
    [wait_for_value] then returns [false], and only when the whole
    timeout has passed. *)
Theorem wait_for_value_outside_mask (f : Frame) (mask value timeout_ms : Z)
        (w : World) :
  0 <= timeout_ms < 4294967296 ->
  Z.land value mask <> value ->
  exists w',
    wait_for_value f mask value timeout_ms w = Some (false, w')
    /\ clock w' = clock w + timeout_ms.
Proof.
  intros Ht Hm.
  destruct (wait_for_value_spec f mask value timeout_ms w Ht)
    as (ok & w' & Hrun & Htrue & Hfalse).
  destruct ok.
  - exfalso. destruct (Htrue eq_refl) as (wl & _ & Hv & _).
    apply Hm. rewrite <- Hv at 1.
    rewrite <- Z.land_assoc, Z.land_diag. exact Hv.
  - exists w'. split; [exact Hrun|]. now apply Hfalse.
Qed.

Lemma waitSocketStatus_clock (socket_n : Z) (st : SocketStatusReg)
      (w w' : World) (ok : bool) :
  waitSocketStatus socket_n st socket_timeout w = Some (ok, w') ->
  clock w <= clock w' <= clock w + socket_timeout.
Proof.
  intros Hrun.
  destruct (waitSocketStatus_spec socket_n st w)
    as (ok' & w2 & Hrun' & Ht & Hf).
  rewrite Hrun in Hrun'. injection Hrun' as <- <-.
  destruct ok.
  - destruct (Ht eq_refl) as (wl & -> & _ & Hc). cbn [clock did_read after_bus].
    lia.
  - rewrite (Hf eq_refl). unfold socket_timeout. lia.
Qed.

Lemma socketClose_clock (socket_n : Z) (w w' : World) :
  socketClose socket_n w = Some (tt, w') ->
  clock w <= clock w' <= clock w + socket_timeout.
Proof.
  intros Hrun.
  destruct (socketClose_run socket_n w) as (w2 & Hrun' & H0 & Hd & Hf).
  rewrite Hrun in Hrun'. injection Hrun' as <-.
  set (raw := reg_byte (status_frame socket_n) w) in *.
  assert (HT : 0 <= socket_timeout) by (unfold socket_timeout; lia).
  destruct (Z.eq_dec raw 0x00) as [E0|N0].
  { rewrite (H0 E0). cbn [clock did_read after_bus]. lia. }
  destruct (Z.eq_dec raw 0x17) as [E1|N1];
    [|destruct (Z.eq_dec raw 0x1C) as [E2|N2]].
  3: { rewrite (Hf N0 N1 N2). cbn [clock issued did_read after_bus]. lia. }
  all: (destruct Hd as (ok & w3 & Hw & ->); [tauto|];
        apply waitSocketStatus_clock in Hw;
        cbn [clock issued did_read after_bus] in Hw;
        destruct ok; cbn [clock issued did_read after_bus]; lia).
Qed.

(** X3.  [socketClose] returns within one timeout: the clock moves
    forward by at most [socket_timeout] milliseconds, and not at all
    unless the socket read Established or CloseWait. *)
Theorem socketClose_within_timeout (socket_n : Z) (w : World) :
  exists w',
    socketClose socket_n w = Some (tt, w')
    /\ clock w <= clock w' <= clock w + socket_timeout
    /\ (reg_byte (status_frame socket_n) w <> 0x17 ->
        reg_byte (status_frame socket_n) w <> 0x1C ->
        clock w' = clock w).
Proof.
  destruct (socketClose_run socket_n w) as (w' & Hrun & H0 & Hd & Hf).
  exists w'. split; [exact Hrun|].
  split; [now apply (socketClose_clock socket_n)|].
  intros N1 N2.
  destruct (Z.eq_dec (reg_byte (status_frame socket_n) w) 0x00) as [E0|N0].
  - now rewrite (H0 E0).
  - now rewrite (Hf N0 N1 N2).
Qed.

Lemma open_sequence_clock (socket_n : Z) (mode : SocketMode)
      (w w' : World) (ok : bool) :
  open_sequence socket_n mode w = Some (ok, w') ->
  clock w <= clock w'
  <= clock w + (match mode with UDP => 1 | _ => 2 end) * socket_timeout.
Proof.
  assert (HT : 0 <= socket_timeout) by (unfold socket_timeout; lia).
  assert (Htcp : forall cmd st,
    tcp_sequence socket_n cmd st w = Some (ok, w') ->
    clock w <= clock w' <= clock w + 2 * socket_timeout).
  { intros cmd st H. unfold tcp_sequence in H.
    apply bind_inv in H. destruct H as (init & wi & H1 & H2).
    apply waitSocketStatus_clock in H1. destruct init.
    - apply bind_inv in H2. destruct H2 as ([] & wc & H2 & H3).
      rewrite socketCommand_eq in H2. injection H2 as <-.
      apply waitSocketStatus_clock in H3.
      cbn [clock issued after_bus] in H3. lia.
    - injection H2 as <- <-. lia. }
  destruct mode; cbn [open_sequence]; intros H.
  - now apply Htcp in H.
  - now apply Htcp in H.
  - apply waitSocketStatus_clock in H. lia.
Qed.

(** X4.  [socketOpen] returns within four timeouts (three for UDP): one
    for the close it starts with, one for each wait, one for the close
    after a failed wait.  With the link down no time passes.
    [socketKeepOpen] inherits the bound. *)
Theorem socketOpen_within_timeouts (socket_n : Z) (mode : SocketMode)
        (w : World) :
  let budget := (match mode with UDP => 3 | _ => 4 end) * socket_timeout in
  (exists ok w',
     socketOpen socket_n mode w = Some (ok, w')
     /\ clock w <= clock w' <= clock w + budget
     /\ (Z.land (reg_byte phy_frame w) 0x01 = 0 -> clock w' = clock w))
  /\ (exists w',
        socketKeepOpen socket_n mode w = Some (tt, w')
        /\ clock w <= clock w' <= clock w + budget).
Proof.
  intros budget.
  assert (HT : 0 <= socket_timeout) by (unfold socket_timeout; lia).
  assert (Hopen : forall w0,
    exists ok w',
      socketOpen socket_n mode w0 = Some (ok, w')
      /\ clock w0 <= clock w' <= clock w0 + budget
      /\ (Z.land (reg_byte phy_frame w0) 0x01 = 0 -> clock w' = clock w0)).
  { intros w0. unfold socketOpen.
    rewrite (bind_some _ _ _ _ _ (rdCommonReg_eq _ w0)).
    fold phy_frame.
    destruct (Z.eqb_spec (Z.land (reg_byte phy_frame w0) 0x01) 0)
      as [Hdown|Hup].
    - exists false, (did_read phy_frame w0). split; [reflexivity|].
      cbn [clock did_read after_bus]. subst budget.
      split; [destruct mode; lia|reflexivity].
    - destruct (socketClose_total socket_n (did_read phy_frame w0))
        as (wc & Hc).
      rewrite (bind_some _ _ _ _ _ Hc).
      rewrite (bind_some _ _ _ _ _ (wrSocketReg_eq _ _ _ _)).
      rewrite (bind_some _ _ _ _ _ (socketCommand_eq _ _ _)).
      apply socketClose_clock in Hc. cbn [clock did_read after_bus] in Hc.
      set (w2 := issued socket_n OPEN _).
      assert (Hw2 : clock w2 = clock wc) by reflexivity.
      destruct (open_sequence_run socket_n mode w2)
        as (ok & w3 & Hrun & _).
      rewrite (bind_some _ _ _ _ _ Hrun).
      apply open_sequence_clock in Hrun.
      destruct ok.
      + exists true, w3. split; [reflexivity|].
        subst budget. split; [destruct mode; lia|tauto].
      + destruct (socketClose_total socket_n w3) as (w' & Hc').
        rewrite (bind_some _ _ _ _ _ Hc').
        apply socketClose_clock in Hc'.
        exists false, w'. split; [reflexivity|].
        subst budget. split; [destruct mode; lia|tauto]. }
  split; [apply Hopen|].
  unfold socketKeepOpen.
  rewrite (bind_some _ _ _ _ _ (socketStatusReg_eq socket_n w)).
  set (w1 := did_read (status_frame socket_n) w).
  assert (Hw1 : clock w1 = clock w) by reflexivity.
  assert (Hidle : exists w', ret tt w1 = Some (tt, w')
                             /\ clock w <= clock w' <= clock w + budget).
  { exists w1. split; [reflexivity|]. subst budget. destruct mode; lia. }
  assert (Hre : exists w',
             (socketOpen socket_n mode ;; ret tt)%drv w1 = Some (tt, w')
             /\ clock w <= clock w' <= clock w + budget).
  { destruct (Hopen w1) as (ok & w' & Hrun & Hck & _).
    rewrite (bind_some _ _ _ _ _ Hrun). exists w'.
    split; [reflexivity|]. lia. }
  destruct (status_of_byte _) as [[]|]; try exact Hidle; try exact Hre.
  rewrite socketCommand_eq. eexists. split; [reflexivity|].
  cbn [clock issued after_bus]. subst budget. destruct mode; lia.
Qed.

End PollConduct.

(** ** Routines that never wait *)

Section Calm.

Context {P : Platform}.
Import SpiFrame SpiFrameImpl W5500 W5500Config.
Local Open Scope drv_scope.

Lemma quiet_refl (w : World) : quiet w w.
Proof. split; [reflexivity|]. exists []. now split. Qed.

Lemma quiet_trans (w w1 w2 : World) : quiet w w1 -> quiet w1 w2 -> quiet w w2.
Proof.
  intros (Hc1 & e1 & Hs1 & Ha1) (Hc2 & e2 & Hs2 & Ha2).
  split; [congruence|]. exists (e2 ++ e1). split.
  - unfold since in *. rewrite Hs2, Hs1, app_assoc. reflexivity.
  - rewrite forallb_app, Ha1, Ha2. reflexivity.
Qed.

Lemma quiet_after_bus (f : Frame) (out : list Z) (w : World) :
  quiet w (after_bus f out w).
Proof. split; [reflexivity|]. eexists [_]. now split. Qed.

Lemma calm_ret {A} (a : A) : calm (ret a).
Proof. intros w. exists a, w. split; [reflexivity|apply quiet_refl]. Qed.

Lemma calm_bind {A B} (m : M A) (k : A -> M B) :
  calm m -> (forall a, calm (k a)) -> calm (bind m k).
Proof.
  intros Hm Hk w. destruct (Hm w) as (a & w1 & Hrun & Hq).
  destruct (Hk a w1) as (b & w2 & Hrun2 & Hq2).
  exists b, w2. split.
  - now rewrite (bind_some _ _ _ _ _ Hrun).
  - now apply (quiet_trans w w1 w2).
Qed.

Lemma calm_transfer (f : Frame) (data : list Z) (len : Z) :
  calm (transfer f data len).
Proof.
  intros w. rewrite transfer_eq. eexists _, _.
  split; [reflexivity|apply quiet_after_bus].
Qed.

Ltac calm_step :=
  match goal with
  | |- calm (bind _ _) => apply calm_bind; [|intros ?]
  | |- calm (ret _) => apply calm_ret
  | |- calm (transfer _ _ _) => apply calm_transfer
  | |- calm (if ?b then _ else _) => destruct b
  | |- calm (match ?x with _ => _ end) => destruct x
  end.

Lemma calm_commonReg a wr data len : calm (commonReg a wr data len).
Proof. apply calm_transfer. Qed.

Lemma calm_socketReg n a wr data len : calm (socketReg n a wr data len).
Proof. apply calm_transfer. Qed.

Lemma calm_rdCommonReg a : calm (rdCommonReg a).
Proof. unfold rdCommonReg, commonReg. repeat calm_step. Qed.

Lemma calm_rdSocketReg n a : calm (rdSocketReg n a).
Proof. unfold rdSocketReg, socketReg. repeat calm_step. Qed.

Lemma calm_wrSocketReg n a v : calm (wrSocketReg n a v).
Proof. unfold wrSocketReg, socketReg. repeat calm_step. Qed.

Lemma calm_rdSocketReg16 n a : calm (rdSocketReg16 n a).
Proof. unfold rdSocketReg16, socketReg. repeat calm_step. Qed.

Lemma calm_wrSocketReg16 n a v : calm (wrSocketReg16 n a v).
Proof. unfold wrSocketReg16, socketReg. cbv zeta. repeat calm_step. Qed.

Lemma calm_socketCommand n c : calm (socketCommand n c).
Proof. apply calm_wrSocketReg. Qed.

Lemma calm_atomic_loop left n a tries last :
  calm (atomic_loop left n a tries last).
Proof.
  revert tries last. induction left as [|left IH]; intros tries last;
    cbn [atomic_loop].
  - apply calm_ret.
  - apply calm_bind; [apply calm_rdSocketReg16|]. intros v.
    destruct (_ && _); [apply calm_ret|apply IH].
Qed.

Lemma calm_socketStatus n : calm (socketStatus n).
Proof.
  unfold socketStatus, socketStatusReg.
  apply calm_bind; [apply calm_rdSocketReg|]. intros raw.
  destruct (status_of_byte raw) as [[]|];
    repeat first [apply calm_socketCommand | calm_step].
Qed.

Lemma calm_socketConnected n : calm (socketConnected n).
Proof.
  unfold socketConnected.
  apply calm_bind; [apply calm_socketStatus|]. intros []; apply calm_ret.
Qed.

Lemma calm_sendAvailable n : calm (sendAvailable n).
Proof.
  unfold sendAvailable, rdSocketReg16_atomic.
  apply calm_bind; [apply calm_socketConnected|].
  intros []; [apply calm_atomic_loop|apply calm_ret].
Qed.

Lemma calm_receiveAvailable n : calm (receiveAvailable n).
Proof.
  unfold receiveAvailable, rdSocketReg16_atomic.
  apply calm_bind; [apply calm_socketConnected|].
  intros []; [apply calm_atomic_loop|apply calm_ret].
Qed.

(** X5.  Status and data routines never wait: [socketStatus],
    [socketConnected], [sendAvailable], [receiveAvailable], [send] and
    [receive] (with or without header stripping) always return, and from
    entry to return the clock stands still and the log gains bus windows
    only, so no poll is entered and no delay made, whatever the chip
    answers. *)
Theorem data_path_never_waits (socket_n : Z) :
  calm (socketStatus socket_n)
  /\ calm (socketConnected socket_n)
  /\ calm (sendAvailable socket_n)
  /\ calm (receiveAvailable socket_n)
  /\ (forall data len, calm (send socket_n data len))
  /\ (forall data len strip, calm (receive socket_n data len strip)).
Proof.
  split; [apply calm_socketStatus|]. split; [apply calm_socketConnected|].
  split; [apply calm_sendAvailable|]. split; [apply calm_receiveAvailable|].
  split.
  - intros data len. unfold send.
    apply calm_bind; [apply calm_sendAvailable|]. intros avail. cbv zeta.
    destruct (_ =? 0); [apply calm_ret|].
    apply calm_bind; [apply calm_rdSocketReg16|]. intros wp.
    apply calm_bind; [apply calm_transfer|]. intros d1.
    apply calm_bind; [apply calm_wrSocketReg16|]. intros _.
    apply calm_bind; [apply calm_socketCommand|]. intros _. apply calm_ret.
  - intros data len strip. unfold receive.
    apply calm_bind; [apply calm_receiveAvailable|]. intros avail. cbv zeta.
    destruct (_ =? 0); [apply calm_ret|].
    apply calm_bind; [apply calm_rdSocketReg16|]. intros rp.
    assert (Hpay : forall p l,
      calm (data1 <- transfer (mkFrame p socket_n RxBuffer Read) data l ;;
            wrSocketReg16 socket_n SocketOffsetAddr.rx_read_pointer (p + l) ;;
            socketCommand socket_n RECV ;; ret (l, data1))).
    { intros p l.
      apply calm_bind; [apply calm_transfer|]. intros d1.
      apply calm_bind; [apply calm_wrSocketReg16|]. intros _.
      apply calm_bind; [apply calm_socketCommand|]. intros _. apply calm_ret. }
    destruct strip; [|apply Hpay].
    destruct (_ <? 8); [apply calm_ret|].
    apply calm_bind; [apply calm_transfer|]. intros hd. apply Hpay.
Qed.

(** X6.  The configuration and status accessors never wait either:
    address, port and buffer-size setters and getters, [phyStatus] and
    [chipVersion] always return with the clock unchanged and only bus
    windows logged. *)
Theorem configuration_never_waits (socket_n : Z) :
  (forall select write data len offset,
     calm (regInterfaceAddress select write data len offset))
  /\ (forall select write data len offset,
        calm (regSocketAddress socket_n select write data len offset))
  /\ (forall ip mask gw, calm (setInterfaceNetwork ip mask gw))
  /\ (forall mac, calm (setInterfaceMAC mac))
  /\ (forall port, calm (setSocketSource socket_n port))
  /\ (forall ip port, calm (setSocketDest socket_n ip port))
  /\ (forall select, calm (getSocketPort socket_n select))
  /\ (forall kb, calm (setBufferSizeRx socket_n kb))
  /\ (forall kb, calm (setBufferSizeTx socket_n kb))
  /\ calm (getBufferSizeRx socket_n)
  /\ calm (getBufferSizeTx socket_n)
  /\ calm phyStatus
  /\ calm chipVersion.
Proof.
  assert (Hi : forall select write data len offset,
             calm (regInterfaceAddress select write data len offset)).
  { intros. unfold regInterfaceAddress.
    destruct (interface_field select) as [a m]. cbv zeta.
    destruct (_ <=? 0); [apply calm_ret|apply calm_commonReg]. }
  assert (Hs : forall select write data len offset,
             calm (regSocketAddress socket_n select write data len offset)).
  { intros. unfold regSocketAddress.
    destruct (socket_field select) as [a m]. cbv zeta.
    destruct (_ <=? 0); [apply calm_ret|apply calm_socketReg]. }
  repeat apply conj; intros.
  - apply Hi.
  - apply Hs.
  - unfold setInterfaceNetwork.
    repeat (apply calm_bind; [apply Hi|intros ?]). apply calm_ret.
  - unfold setInterfaceMAC.
    apply calm_bind; [apply Hi|intros ?]. apply calm_ret.
  - apply calm_wrSocketReg16.
  - unfold setSocketDest.
    apply calm_bind; [apply Hs|intros ?]. apply calm_wrSocketReg16.
  - destruct select; apply calm_rdSocketReg16.
  - apply calm_wrSocketReg.
  - apply calm_wrSocketReg.
  - apply calm_rdSocketReg.
  - apply calm_rdSocketReg.
  - unfold phyStatus. apply calm_bind; [apply calm_rdCommonReg|].
    intros ?. apply calm_ret.
  - apply calm_rdCommonReg.
Qed.

End Calm.

(** ** Receive without header stripping; lengths and buffers *)

Section Lengths.

Context {P : Platform}.
Import SpiFrame SpiFrameImpl W5500.

Lemma exchanged_buffer (f : Frame) (data : list Z) (k : Z) (w : World) :
  0 <= k <= Z.of_nat (length data) ->
  let data' := bus_in f (firstn (Z.to_nat k) data) w
               ++ skipn (Z.to_nat k) data in
  length data' = length data
  /\ skipn (Z.to_nat k) data' = skipn (Z.to_nat k) data.
Proof.
  intros Hk data'.
  assert (Hin : length (bus_in f (firstn (Z.to_nat k) data) w) = Z.to_nat k).
  { unfold bus_in. rewrite exchange_length, length_firstn. lia. }
  subst data'. split.
  - rewrite length_app, length_skipn, Hin. lia.
  - rewrite skipn_app, Hin, Nat.sub_diag. cbn [skipn].
    rewrite skipn_all2 by lia. reflexivity.
Qed.

(** X7.  [receive] without header stripping clamps [len] to what
    [receiveAvailable] reports; 0 ends the call with the buffer as it was.
    Otherwise it reads the RX read pointer, reads the clamped number of
    bytes from the RX block at that pointer into the buffer, writes the
    pointer plus that number modulo 2^16 back, issues RECV and returns
    that number: in a UDP socket the 8 header bytes are then part of what
    is delivered. *)
Theorem receive_plain_spec (socket_n : Z) (data : list Z) (len : Z)
        (w : World) :
  0 <= len < 65536 ->
  len <= Z.of_nat (length data) ->
  exists avail wa,
    receiveAvailable socket_n w = Some (avail, wa)
    /\ 0 <= avail < 65536
    /\ let got := Z.min len avail in
       let ptr := socket_read socket_n SocketOffsetAddr.rx_read_pointer in
       let read_pointer := reg_word ptr wa in
       let w1 := did_read16 ptr wa in
       let buf := mkFrame read_pointer socket_n RxBuffer Read in
       let out := firstn (Z.to_nat got) data in
       let w2 := after_bus buf out w1 in
       let w3 := wrote16 socket_n SocketOffsetAddr.rx_read_pointer
                         ((read_pointer + got) mod 65536) w2 in
       (got = 0 -> receive socket_n data len false w = Some ((0, data), wa))
       /\ (got <> 0 ->
           receive socket_n data len false w
           = Some ((got, bus_in buf out w1 ++ skipn (Z.to_nat got) data),
                   issued socket_n RECV w3)
           /\ Z.of_nat (length (bus_in buf out w1)) = got).
Proof.
  intros Hlen Hbuf.
  destruct (available_run socket_n SocketOffsetAddr.rx_received_size w)
    as (avail & wa & evs & Hrun & Hav & _).
  fold (receiveAvailable socket_n) in Hrun.
  exists avail, wa. split; [exact Hrun|]. split; [exact Hav|].
  cbv zeta. unfold receive. rewrite (bind_some _ _ _ _ _ Hrun). split.
  - intros E. now rewrite E.
  - intros N.
    replace (Z.min len avail =? 0) with false
      by (symmetry; now apply Z.eqb_neq).
    rewrite (bind_some _ _ _ _ _ (rdSocketReg16_eq _ _ _)).
    rewrite (bind_some _ _ _ _ _ (transfer_eq _ _ _ _)).
    rewrite (bind_some _ _ _ _ _ (wrSocketReg16_eq _ _ _ _)).
    rewrite (bind_some _ _ _ _ _ (socketCommand_eq _ _ _)).
    split; [reflexivity|].
    unfold bus_in. rewrite exchange_length. apply firstn_exact. lia.
Qed.

(** X8.  Neither [send] nor [receive] goes past the caller's length:
    the returned count is between 0 and [len], the buffer keeps its
    length, and its bytes from the returned count on are untouched.  With
    header stripping [receive] returns at most [len - 8]. *)
Theorem transfers_respect_length (socket_n : Z) (data : list Z) (len : Z)
        (strip : bool) (w : World) :
  0 <= len < 65536 ->
  len <= Z.of_nat (length data) ->
  (exists k data' w',
     send socket_n data len w = Some ((k, data'), w')
     /\ 0 <= k <= len
     /\ length data' = length data
     /\ skipn (Z.to_nat k) data' = skipn (Z.to_nat k) data)
  /\ (exists k data' w',
        receive socket_n data len strip w = Some ((k, data'), w')
        /\ 0 <= k <= len
        /\ (strip = true -> k = 0 \/ k <= len - 8)
        /\ length data' = length data
        /\ skipn (Z.to_nat k) data' = skipn (Z.to_nat k) data).
Proof.
  intros Hlen Hbuf. split.
  - destruct (available_run socket_n SocketOffsetAddr.tx_free_size w)
      as (avail & wa & evs & Hrun & Hav & _).
    fold (sendAvailable socket_n) in Hrun.
    unfold send. rewrite (bind_some _ _ _ _ _ Hrun). cbv zeta.
    destruct (Z.eqb_spec (Z.min len avail) 0) as [E|N].
    + exists 0, data, wa. split; [reflexivity|]. split; [lia|]. now split.
    + rewrite (bind_some _ _ _ _ _ (rdSocketReg16_eq _ _ _)).
      rewrite (bind_some _ _ _ _ _ (transfer_eq _ _ _ _)).
      rewrite (bind_some _ _ _ _ _ (wrSocketReg16_eq _ _ _ _)).
      rewrite (bind_some _ _ _ _ _ (socketCommand_eq _ _ _)).
      eexists _, _, _. split; [reflexivity|]. split; [lia|].
      apply exchanged_buffer. lia.
  - destruct (available_run socket_n SocketOffsetAddr.rx_received_size w)
      as (avail & wa & evs & Hrun & Hav & _).
    fold (receiveAvailable socket_n) in Hrun.
    unfold receive. rewrite (bind_some _ _ _ _ _ Hrun). cbv zeta.
    destruct (Z.eqb_spec (Z.min len avail) 0) as [E|N].
    { exists 0, data, wa. split; [reflexivity|]. split; [lia|].
      split; [tauto|]. now split. }
    rewrite (bind_some _ _ _ _ _ (rdSocketReg16_eq _ _ _)).
    destruct strip.
    + destruct (Z.ltb_spec (Z.min len avail) 8) as [Hs|Hb].
      { eexists 0, data, _. split; [reflexivity|]. split; [lia|].
        split; [tauto|]. now split. }
      rewrite (bind_some _ _ _ _ _ (transfer_eq _ _ _ _)).
      change (Z.to_nat 8) with 8%nat.
      change (firstn 8 (repeat indeterminate 8)) with (repeat indeterminate 8).
      change (skipn 8 (repeat indeterminate 8)) with (@nil Z).
      rewrite app_nil_r.
      set (ptr := socket_read socket_n SocketOffsetAddr.rx_read_pointer).
      set (rp := reg_word ptr wa).
      set (w1 := did_read16 ptr wa).
      set (hf := mkFrame rp socket_n RxBuffer Read).
      set (hd := bus_in hf (repeat indeterminate 8) w1).
      pose proof (bus_in_byte hf (repeat indeterminate 8) w1 6) as H6.
      pose proof (bus_in_byte hf (repeat indeterminate 8) w1 7) as H7.
      fold hd in H6, H7.
      rewrite (be16_value (nth 6 hd 0) (nth 7 hd 0)) by lia.
      set (got := Z.min (Z.min len avail - 8) (nth 6 hd 0 * 256 + nth 7 hd 0)).
      assert (Hgot : 0 <= got < 65536) by (subst got; lia).
      rewrite (u16_small got Hgot).
      rewrite (bind_some _ _ _ _ _ (transfer_eq _ _ _ _)).
      rewrite (bind_some _ _ _ _ _ (wrSocketReg16_eq _ _ _ _)).
      rewrite (bind_some _ _ _ _ _ (socketCommand_eq _ _ _)).
      eexists _, _, _. split; [reflexivity|].
      split; [subst got; lia|]. split; [subst got; lia|].
      apply exchanged_buffer. subst got. lia.
    + rewrite (bind_some _ _ _ _ _ (transfer_eq _ _ _ _)).
      rewrite (bind_some _ _ _ _ _ (wrSocketReg16_eq _ _ _ _)).
      rewrite (bind_some _ _ _ _ _ (socketCommand_eq _ _ _)).
      eexists _, _, _. split; [reflexivity|]. split; [lia|].
      split; [discriminate|]. apply exchanged_buffer. lia.
Qed.

End Lengths.

(** ** The control byte, field by field *)

Section ControlByte.

Import SpiFrame.

Lemma lor_shiftl_add (h k l : Z) :
  0 <= k -> 0 <= l < 2 ^ k -> Z.lor (Z.shiftl h k) l = h * 2 ^ k + l.
Proof.
  intros Hk Hl. rewrite Z.shiftl_mul_pow2 by lia.
  rewrite <- (Z.add_lor_land (h * 2 ^ k) l).
  assert (E : Z.land (h * 2 ^ k) l = 0).
  { apply Z.bits_inj'. intros i Hi. rewrite Z.land_spec, Z.testbit_0_l.
    destruct (Z.ltb_spec i k) as [Hlt|Hge].
    - rewrite Z.mul_pow2_bits_low by lia. reflexivity.
    - replace l with (l mod 2 ^ k) by (apply Z.mod_small; lia).
      rewrite Z.mod_pow2_bits_high by lia. apply andb_false_r. }
  rewrite E. lia.
Qed.

Lemma control_byte_value (f : Frame) :
  0 <= socket_n f ->
  control_byte f
  = 32 * (socket_n f mod 8) + 8 * bsb_val (bsb f) + 4 * rw_val (rw f).
Proof.
  intros Hn. unfold control_byte, control_expr.
  assert (Hb : 0 <= bsb_val (bsb f) < 4) by (destruct (bsb f); cbn; lia).
  assert (Hr : 0 <= rw_val (rw f) < 2) by (destruct (rw f); cbn; lia).
  rewrite (lor_shiftl_add (socket_n f) 2 (bsb_val (bsb f))) by (cbn; lia).
  rewrite (Z.shiftl_mul_pow2 (rw_val (rw f)) 2) by lia.
  rewrite lor_shiftl_add by (cbn; lia).
  change (2 ^ 2) with 4. change (2 ^ 3) with 8. unfold u8.
  pose proof (Z.div_mod (socket_n f) 8 ltac:(lia)) as Hd.
  pose proof (Z.mod_pos_bound (socket_n f) 8 ltac:(lia)) as Hm.
  set (q := socket_n f / 8) in *. set (r := socket_n f mod 8) in *.
  replace ((socket_n f * 4 + bsb_val (bsb f)) * 8 + rw_val (rw f) * 4)
    with ((32 * r + 8 * bsb_val (bsb f) + 4 * rw_val (rw f)) + q * 256)
    by lia.
  rewrite Z.mod_add by lia. apply Z.mod_small. lia.
Qed.

Lemma control_byte_decode (f : Frame) :
  0 <= socket_n f ->
  let cb := control_byte f in
  Z.land cb 3 = 0
  /\ Z.land (Z.shiftr cb 2) 1 = rw_val (rw f)
  /\ Z.land (Z.shiftr cb 3) 3 = bsb_val (bsb f)
  /\ Z.shiftr cb 5 = socket_n f mod 8.
Proof.
  intros Hn cb. subst cb. rewrite (control_byte_value f Hn).
  pose proof (Z.mod_pos_bound (socket_n f) 8 ltac:(lia)) as Hm.
  set (r := socket_n f mod 8) in *.
  assert (E : r = 0 \/ r = 1 \/ r = 2 \/ r = 3 \/ r = 4 \/ r = 5 \/ r = 6
              \/ r = 7) by lia.
  destruct E as [E|[E|[E|[E|[E|[E|[E|E]]]]]]]; rewrite E;
    destruct (bsb f), (rw f); repeat split; reflexivity.
Qed.

(** X9.  The control byte of every frame is laid out as the chip reads
    it: bits 1..0 are 00 (variable-length data mode), bit 2 is the
    direction, bits 4..3 the block, bits 7..5 the socket number modulo 8.
    So two descriptors give the same three header bytes exactly when they
    agree on the offset (as a 16-bit value), the block, the direction and
    the socket number modulo 8: no two different registers of sockets 0
    to 7 share a header, and socket 8 is socket 0 on the wire. *)
Theorem header_identifies_register (f g : Frame) :
  0 <= socket_n f < 256 ->
  0 <= socket_n g < 256 ->
  let cb := control_byte f in
  Z.land cb 3 = 0
  /\ Z.land (Z.shiftr cb 2) 1 = rw_val (rw f)
  /\ Z.land (Z.shiftr cb 3) 3 = bsb_val (bsb f)
  /\ Z.shiftr cb 5 = socket_n f mod 8
  /\ (header f = header g
      <-> u16 (offset_addr f) = u16 (offset_addr g)
          /\ socket_n f mod 8 = socket_n g mod 8
          /\ bsb f = bsb g /\ rw f = rw g).
Proof.
  intros Hf Hg cb.
  destruct (control_byte_decode f ltac:(lia)) as (H0 & H1 & H2 & H3).
  repeat (split; [assumption|]).
  destruct (control_byte_decode g ltac:(lia)) as (_ & G1 & G2 & G3).
  pose proof (address_bytes (offset_addr f)) as (_ & _ & Af).
  pose proof (address_bytes (offset_addr g)) as (_ & _ & Ag).
  unfold header, transfer16_bytes. cbn [app]. split.
  - intros E. injection E as E1 E0 Ec.
    split; [rewrite <- Af, <- Ag, E1, E0; reflexivity|].
    split; [rewrite <- H3, <- G3; subst cb; now rewrite Ec|].
    split.
    + assert (Eb : bsb_val (bsb f) = bsb_val (bsb g))
        by (rewrite <- H2, <- G2; subst cb; now rewrite Ec).
      destruct (bsb f), (bsb g); cbn in Eb; congruence.
    + assert (Er : rw_val (rw f) = rw_val (rw g))
        by (rewrite <- H1, <- G1; subst cb; now rewrite Ec).
      destruct (rw f), (rw g); cbn in Er; congruence.
  - intros (Ea & En & Eb & Er).
    rewrite Ea. do 3 f_equal.
    rewrite (control_byte_value f), (control_byte_value g) by lia.
    now rewrite En, Eb, Er.
Qed.

End ControlByte.

(** ** Address fields, PHY status, quiet counters *)

Section Fields.

Context {P : Platform}.
Import SpiFrame SpiFrameImpl W5500 W5500Config.

(** X10.  [regInterfaceAddress] never leaves the selected field.  With
    the offset at or beyond the field size it does nothing: no bus window,
    the buffer as it was.  Otherwise it makes one window on the common
    block at the field's address plus the offset, of
    [min len (size - offset)] bytes, so the last byte accessed is still
    inside the field; a longer request is cut, not refused. *)
Theorem regInterfaceAddress_stays_in_field (select : InterfaceAddress)
        (write : bool) (data : list Z) (len offset : Z) (w : World) :
  0 <= len < 256 ->
  0 <= offset < 256 ->
  let addr := fst (interface_field select) in
  let size := snd (interface_field select) in
  (size <= offset ->
   regInterfaceAddress select write data len offset w = Some (data, w))
  /\ (offset < size ->
      let n := Z.min len (size - offset) in
      let f := mkFrame (addr + offset) 0 CommonReg
                       (if write then Write else Read) in
      let out := firstn (Z.to_nat n) data in
      regInterfaceAddress select write data len offset w
      = Some (bus_in f out w ++ skipn (Z.to_nat n) data, after_bus f out w)
      /\ addr <= addr + offset
      /\ addr + offset + n <= addr + size).
Proof.
  intros Hlen Hoff addr size. subst addr size.
  unfold regInterfaceAddress.
  destruct (interface_field select) as [addr size] eqn:E. cbn [fst snd].
  assert (Hsize : size = 4 \/ size = 6)
    by (destruct select; injection E as <- <-;
        unfold sizeof_IP_t, sizeof_MAC_t; lia).
  cbv zeta. split.
  - intros H. replace (size - offset <=? 0) with true
      by (symmetry; apply Z.leb_le; lia). reflexivity.
  - intros H. replace (size - offset <=? 0) with false
      by (symmetry; apply Z.leb_gt; lia).
    replace (u8 (size - offset)) with (size - offset)
      by (unfold u8; rewrite Z.mod_small; lia).
    unfold commonReg. rewrite transfer_eq. repeat split; lia.
Qed.

(** X11.  [regSocketAddress] keeps to the selected field of the socket
    in the same way. *)
Theorem regSocketAddress_stays_in_field (socket_n : Z)
        (select : SocketAddress) (write : bool) (data : list Z)
        (len offset : Z) (w : World) :
  0 <= len < 256 ->
  0 <= offset < 256 ->
  let addr := fst (socket_field select) in
  let size := snd (socket_field select) in
  (size <= offset ->
   regSocketAddress socket_n select write data len offset w = Some (data, w))
  /\ (offset < size ->
      let n := Z.min len (size - offset) in
      let f := mkFrame (addr + offset) socket_n SocketReg
                       (if write then Write else Read) in
      let out := firstn (Z.to_nat n) data in
      regSocketAddress socket_n select write data len offset w
      = Some (bus_in f out w ++ skipn (Z.to_nat n) data, after_bus f out w)
      /\ addr <= addr + offset
      /\ addr + offset + n <= addr + size).
Proof.
  intros Hlen Hoff addr size. subst addr size.
  unfold regSocketAddress.
  destruct (socket_field select) as [addr size] eqn:E. cbn [fst snd].
  assert (Hsize : size = 4 \/ size = 6)
    by (destruct select; injection E as <- <-;
        unfold sizeof_IP_t, sizeof_MAC_t; lia).
  cbv zeta. split.
  - intros H. replace (size - offset <=? 0) with true
      by (symmetry; apply Z.leb_le; lia). reflexivity.
  - intros H. replace (size - offset <=? 0) with false
      by (symmetry; apply Z.leb_gt; lia).
    replace (u8 (size - offset)) with (size - offset)
      by (unfold u8; rewrite Z.mod_small; lia).
    unfold socketReg. rewrite transfer_eq. repeat split; lia.
Qed.

(** X12.  [phyStatus] returns a value from 0 to 7 after one read of the
    PHY configuration register, and its bit 0 is the bit [socketOpen]
    looks at: when [phyStatus] shows the link down, [socketOpen] in the
    same world returns [false] having done no more on the bus than
    [phyStatus] did. *)
Theorem phyStatus_link_bit (socket_n : Z) (mode : SocketMode) (w : World) :
  exists v w0,
    phyStatus w = Some (v, w0)
    /\ 0 <= v <= 7
    /\ trace w0
       = Bus phy_frame (header phy_frame) [indeterminate]
             [reg_byte phy_frame w] :: trace w
    /\ v = Z.land (reg_byte phy_frame w) 7
    /\ (Z.land v 1 = 0 -> socketOpen socket_n mode w = Some (false, w0)).
Proof.
  unfold phyStatus. rewrite (bind_some _ _ _ _ _ (rdCommonReg_eq _ w)).
  fold phy_frame.
  pose proof (reg_byte_range phy_frame w) as Hr.
  exists (Z.land (reg_byte phy_frame w) 7), (did_read phy_frame w).
  split; [reflexivity|]. split.
  { assert (E : Z.land (reg_byte phy_frame w) 7
                = reg_byte phy_frame w mod 8)
      by (change 7 with (Z.ones 3); now rewrite Z.land_ones by lia).
    rewrite E.
    pose proof (Z.mod_pos_bound (reg_byte phy_frame w) 8 ltac:(lia)). lia. }
  split; [apply did_read_trace|]. split; [reflexivity|].
  intros Hdown. rewrite <- Z.land_assoc in Hdown.
  change (Z.land 7 1) with 1 in Hdown.
  unfold socketOpen. rewrite (bind_some _ _ _ _ _ (rdCommonReg_eq _ w)).
  fold phy_frame. change 0x01 with 1. rewrite Hdown. reflexivity.
Qed.

(** X13.  On a connected socket whose counter does not move between two
    reads, the availability queries return the counter itself after three
    bus windows: the status read and two reads of the counter. *)
Theorem available_on_quiet_counter (socket_n : Z) (w : World) :
  let w1 := did_read (status_frame socket_n) w in
  let raw := reg_byte (status_frame socket_n) w in
  let tx := socket_read socket_n SocketOffsetAddr.tx_free_size in
  let rx := socket_read socket_n SocketOffsetAddr.rx_received_size in
  raw = 0x17 \/ raw = 0x22 ->
  (reg_word tx (did_read16 tx w1) = reg_word tx w1 ->
   sendAvailable socket_n w
   = Some (reg_word tx w1, did_read16 tx (did_read16 tx w1)))
  /\ (reg_word rx (did_read16 rx w1) = reg_word rx w1 ->
      receiveAvailable socket_n w
      = Some (reg_word rx w1, did_read16 rx (did_read16 rx w1))).
Proof.
  intros w1 raw tx rx Hraw.
  assert (Hloop : forall offset,
    let f := socket_read socket_n offset in
    reg_word f (did_read16 f w1) = reg_word f w1 ->
    rdSocketReg16_atomic socket_n offset w1
    = Some (reg_word f w1, did_read16 f (did_read16 f w1))).
  { intros offset f Hst. unfold rdSocketReg16_atomic, max_tries.
    cbn [atomic_loop].
    rewrite (bind_some _ _ _ _ _ (rdSocketReg16_eq _ _ _)).
    cbn [Z.leb Z.compare andb].
    rewrite (bind_some _ _ _ _ _ (rdSocketReg16_eq _ _ _)).
    fold f. rewrite Hst, Z.eqb_refl. reflexivity. }
  unfold sendAvailable, receiveAvailable. unfold bind.
  rewrite socketConnected_eq. fold raw. fold w1.
  split; intros Hst; destruct Hraw as [E|E]; rewrite E; cbn;
    now apply Hloop.
Qed.

End Fields.

(** ** Configuration round trips over the register file *)

Section RegFileRoundTrips.

Import SpiFrame SpiFrameImpl W5500 W5500Config Mock RegFileMem.

Lemma control_bit2 (f : Frame) :
  Z.testbit (control_byte f) 2 = rw_eqb (rw f) Write.
Proof.
  unfold control_byte, control_expr.
  rewrite u8_land, Z.land_spec, Z.lor_spec, !Z.shiftl_spec by lia.
  rewrite Z.testbit_neg_r by lia. now destruct (rw f).
Qed.

Lemma regfile_shift_write (out : list Z) :
  forall h1 h0 ctl a m,
    Z.testbit ctl 2 = true ->
    @shift regfile out (mkChip [h1; h0; ctl] a m)
    = (map (fun _ => 0) out,
       mkChip [h1; h0; ctl] (advance a (length out))
              (store_seq m (Z.shiftr ctl 3) a out)).
Proof.
  induction out as [|b bs IH]; intros h1 h0 ctl a m H; [reflexivity|].
  cbn [shift]. change (@SPI_transfer regfile) with (byte no_reaction).
  unfold byte at 1. cbn [hdr addr mem]. rewrite H.
  rewrite (IH h1 h0 ctl _ _ H). reflexivity.
Qed.

Lemma regfile_shift_read (out : list Z) :
  forall h1 h0 ctl a m,
    Z.testbit ctl 2 = false ->
    @shift regfile out (mkChip [h1; h0; ctl] a m)
    = (load_seq m (Z.shiftr ctl 3) a (length out),
       mkChip [h1; h0; ctl] (advance a (length out)) m).
Proof.
  induction out as [|b bs IH]; intros h1 h0 ctl a m H; [reflexivity|].
  cbn [shift]. change (@SPI_transfer regfile) with (byte no_reaction).
  unfold byte at 1. cbn [hdr addr mem]. rewrite H.
  rewrite (IH h1 h0 ctl _ _ H). reflexivity.
Qed.

Lemma regfile_header (f : Frame) (c : Chip) :
  snd (@shift regfile (header f) (select false c))
  = mkChip (header f) (offset_of f) (mem c).
Proof. destruct c as [h a m]. reflexivity. Qed.

Lemma regfile_exchange (f : Frame) (out : list Z) (c : Chip) :
  @exchange regfile f out c
  = (fst (@shift regfile out (mkChip (header f) (offset_of f) (mem c))),
     snd (@shift regfile out (mkChip (header f) (offset_of f) (mem c)))).
Proof.
  unfold exchange. change (@digitalWrite_cs regfile) with select.
  pose proof (regfile_header f c) as H.
  destruct (@shift regfile (header f) (select false c)) as [hh d1].
  cbn [snd] in H. subst d1.
  destruct (@shift regfile out _) as [inn d2]. reflexivity.
Qed.

(** A write window stores its data bytes; a read window loads and leaves
    the memory alone. *)
Lemma regfile_write (f : Frame) (out : list Z) (w : @World regfile) :
  rw f = Write ->
  mem (dev (@after_bus regfile f out w))
  = store_seq (mem (dev w)) (block_of f) (offset_of f) out.
Proof.
  intros Hw. unfold after_bus. cbn [dev]. rewrite regfile_exchange.
  cbn [snd]. unfold header, transfer16_bytes. cbn [app].
  rewrite regfile_shift_write by (rewrite control_bit2, Hw; reflexivity).
  reflexivity.
Qed.

Lemma regfile_read (f : Frame) (out : list Z) (w : @World regfile) :
  rw f = Read ->
  @bus_in regfile f out w
  = load_seq (mem (dev w)) (block_of f) (offset_of f) (length out)
  /\ mem (dev (@after_bus regfile f out w)) = mem (dev w).
Proof.
  intros Hr. unfold bus_in, after_bus. cbn [dev]. rewrite regfile_exchange.
  cbn [fst snd]. unfold header, transfer16_bytes. cbn [app].
  rewrite regfile_shift_read by (rewrite control_bit2, Hr; reflexivity).
  split; reflexivity.
Qed.

Lemma block_of_value (f : Frame) :
  0 <= socket_n f ->
  block_of f = 4 * (socket_n f mod 8) + bsb_val (bsb f).
Proof.
  intros Hn. unfold block_of. rewrite (control_byte_value f Hn).
  rewrite Z.shiftr_div_pow2 by lia. change (2 ^ 3) with 8.
  pose proof (Z.mod_pos_bound (socket_n f) 8 ltac:(lia)).
  assert (Hr : 0 <= rw_val (rw f) < 2) by (destruct (rw f); cbn; lia).
  symmetry. apply (Z.div_unique _ 8 _ (4 * rw_val (rw f))); lia.
Qed.

Lemma offset_of_value (f : Frame) : offset_of f = u16 (offset_addr f).
Proof. unfold offset_of. now destruct (address_bytes (offset_addr f)) as (_ & _ & H). Qed.

(** Memory after a run of stores, as long as the run does not wrap. *)
Lemma store_seq_get (out : list Z) :
  forall m blk a b x,
    0 <= a -> a + Z.of_nat (length out) <= 65536 ->
    store_seq m blk a out b x
    = if (b =? blk) && (a <=? x) && (x <? a + Z.of_nat (length out))
      then nth (Z.to_nat (x - a)) out 0
      else m b x.
Proof.
  induction out as [|v bs IH]; intros m blk a b x Ha Hlen.
  - cbn [store_seq length]. replace (x <? a + Z.of_nat 0) with (x <? a)
      by (f_equal; lia).
    destruct (b =? blk), (Z.leb_spec a x), (Z.ltb_spec x a);
      try reflexivity; lia.
  - cbn [store_seq].
    assert (HL : Z.of_nat (length (v :: bs)) = Z.of_nat (length bs) + 1)
      by (cbn [length]; lia).
    rewrite HL in *.
    pose proof (Z.mod_pos_bound (a + 1) 65536 ltac:(lia)) as Hb.
    fold (u16 (a + 1)) in Hb.
    assert (Hnz : 0 < Z.of_nat (length bs) -> u16 (a + 1) = a + 1)
      by (intros; unfold u16; apply Z.mod_small; lia).
    set (a' := u16 (a + 1)) in *. set (L := Z.of_nat (length bs)) in *.
    assert (HLpos : 0 <= L) by (subst L; lia).
    rewrite IH by lia. fold L. unfold store.
    destruct (Z.eqb_spec b blk) as [Eb|Nb]; cbn [andb]; [|reflexivity].
    destruct (Z.leb_spec a' x), (Z.ltb_spec x (a' + L)), (Z.eqb_spec x a),
             (Z.leb_spec a x), (Z.ltb_spec x (a + (L + 1)));
      cbn [andb]; try reflexivity; try lia.
    + replace (Z.to_nat (x - a)) with (S (Z.to_nat (x - a'))) by lia.
      reflexivity.
    + subst x. rewrite Z.sub_diag. reflexivity.
    + subst x. rewrite Z.sub_diag. reflexivity.
Qed.

Lemma load_seq_nth (k : nat) :
  forall m blk a i,
    0 <= a -> a + Z.of_nat k <= 65536 -> (i < k)%nat ->
    nth i (load_seq m blk a k) 0 = u8 (m blk (a + Z.of_nat i)).
Proof.
  induction k as [|k IH]; intros m blk a i Ha Hk Hi; [lia|].
  cbn [load_seq]. destruct i as [|i].
  - cbn [nth]. now rewrite Z.add_0_r.
  - cbn [nth].
    assert (Hu : u16 (a + 1) = a + 1)
      by (unfold u16; apply Z.mod_small; lia).
    rewrite Hu, IH by lia. f_equal. f_equal. lia.
Qed.

Lemma load_seq_length (k : nat) m blk a : length (load_seq m blk a k) = k.
Proof. revert a. induction k; intros a; cbn; [reflexivity|now rewrite IHk]. Qed.

(** Loading a run just stored gives the bytes back. *)
Lemma load_store_same (out : list Z) (m : Z -> Z -> Z) (blk a : Z) :
  0 <= a -> a + Z.of_nat (length out) <= 65536 ->
  load_seq (store_seq m blk a out) blk a (length out) = map u8 out.
Proof.
  intros Ha Hlen. apply (nth_ext _ _ 0 0).
  - now rewrite load_seq_length, length_map.
  - intros i Hi. rewrite load_seq_length in Hi.
    rewrite load_seq_nth by lia. rewrite store_seq_get by lia.
    rewrite Z.eqb_refl.
    replace (a <=? a + Z.of_nat i) with true
      by (symmetry; apply Z.leb_le; lia).
    replace (a + Z.of_nat i <? a + Z.of_nat (length out)) with true
      by (symmetry; apply Z.ltb_lt; lia).
    cbn [andb]. replace (Z.to_nat (a + Z.of_nat i - a)) with i by lia.
    change 0 with (u8 0) at 2. now rewrite map_nth.
Qed.

(** A run stored elsewhere does not show in a load. *)
Lemma load_store_apart (out : list Z) (m : Z -> Z -> Z)
      (blk a blk' a' : Z) (k : nat) :
  0 <= a -> a + Z.of_nat (length out) <= 65536 ->
  0 <= a' -> a' + Z.of_nat k <= 65536 ->
  blk' <> blk \/ a' + Z.of_nat k <= a \/ a + Z.of_nat (length out) <= a' ->
  load_seq (store_seq m blk a out) blk' a' k = load_seq m blk' a' k.
Proof.
  intros Ha Hlen Ha' Hk Hapart. apply (nth_ext _ _ 0 0).
  - now rewrite !load_seq_length.
  - intros i Hi. rewrite load_seq_length in Hi.
    rewrite !load_seq_nth by lia. rewrite store_seq_get by lia.
    destruct (Z.eqb_spec blk' blk) as [E|N]; cbn [andb]; [|reflexivity].
    destruct (Z.leb_spec a (a' + Z.of_nat i)),
             (Z.ltb_spec (a' + Z.of_nat i) (a + Z.of_nat (length out)));
      cbn [andb]; try reflexivity.
    exfalso. destruct Hapart as [H1|[H1|H1]]; [congruence|lia|lia].
Qed.


Lemma map_u8_octets (n : nat) (l : list Z) : octets n l -> map u8 l = l.
Proof.
  intros [_ H]. induction H as [|b l Hb _ IH]; [reflexivity|].
  cbn [map]. rewrite IH. f_equal. unfold u8. now apply Z.mod_small.
Qed.

Lemma firstn_octets (n : nat) (l : list Z) : octets n l -> firstn n l = l.
Proof. intros [H _]. rewrite <- H. apply firstn_all. Qed.

Lemma skipn_octets (n : nat) (l : list Z) : length l = n -> skipn n l = [].
Proof. intros H. rewrite <- H. apply skipn_all. Qed.

(** The two bytes of a 16-bit value, as [wrSocketReg16] sends them. *)
Lemma word_bytes (v : Z) :
  0 <= v < 65536 -> octets 2 [Z.shiftr v 8; Z.land v 255].
Proof.
  intros Hv. split; [reflexivity|].
  pose proof (address_bytes v) as (H1 & H0 & _).
  rewrite (u16_small v Hv) in *. repeat constructor; lia.
Qed.

Lemma word_of_bytes (f : Frame) (v : Z) (w : @World regfile) :
  0 <= v < 65536 ->
  @bus_in regfile f [0; 0] w = [Z.shiftr v 8; Z.land v 255] ->
  @reg_word regfile f w = v.
Proof.
  intros Hv H. unfold reg_word.
  change (@indeterminate regfile) with 0. rewrite H. cbn [nth].
  pose proof (word_bytes v Hv) as Ho.
  pose proof (map_u8_octets 2 _ Ho) as Hm. cbn [map] in Hm.
  injection Hm as Hh Hl. rewrite <- Hh at 1. rewrite <- Hl.
  now apply be16_inverse.
Qed.

Lemma regInterfaceAddress_whole (select : InterfaceAddress) (write : bool)
      (data : list Z) (w : @World regfile) :
  let addr := fst (interface_field select) in
  let size := snd (interface_field select) in
  let f := mkFrame addr 0 CommonReg (if write then Write else Read) in
  let out := firstn (Z.to_nat size) data in
  @regInterfaceAddress regfile select write data size 0 w
  = Some (@bus_in regfile f out w ++ skipn (Z.to_nat size) data,
          @after_bus regfile f out w).
Proof.
  destruct select; cbv zeta; unfold regInterfaceAddress, commonReg;
    cbn -[transfer Z.to_nat firstn skipn bus_in after_bus];
    rewrite transfer_eq; reflexivity.
Qed.

Lemma common_block (a : Z) (d : ReadWrite) :
  block_of (mkFrame a 0 CommonReg d) = 0.
Proof. now destruct d. Qed.

Lemma socket_block (a n : Z) (d : ReadWrite) :
  0 <= n -> block_of (mkFrame a n SocketReg d) = 4 * (n mod 8) + 1.
Proof. intros Hn. now rewrite block_of_value. Qed.

(** X14.  Over the register file the interface addresses round-trip:
    after [setInterfaceNetwork] and [setInterfaceMAC], reading the source
    IP, subnet mask, gateway and source MAC fields back with
    [regInterfaceAddress] gives the arrays that were set, each in its own
    field. *)
Theorem interface_addresses_read_back (ip mask gw mac buf4 buf6 : list Z)
        (w : @World regfile) :
  octets 4 ip -> octets 4 mask -> octets 4 gw -> octets 6 mac ->
  length buf4 = 4%nat -> length buf6 = 6%nat ->
  exists w1 w2,
    @setInterfaceNetwork regfile ip mask gw w = Some (tt, w1)
    /\ @setInterfaceMAC regfile mac w1 = Some (tt, w2)
    /\ (exists w3, @regInterfaceAddress regfile SourceIP false buf4 4 0 w2
                   = Some (ip, w3))
    /\ (exists w3, @regInterfaceAddress regfile SubnetMask false buf4 4 0 w2
                   = Some (mask, w3))
    /\ (exists w3, @regInterfaceAddress regfile GatewayIP false buf4 4 0 w2
                   = Some (gw, w3))
    /\ (exists w3, @regInterfaceAddress regfile SourceMAC false buf6 6 0 w2
                   = Some (mac, w3)).
Proof.
  intros Hip Hmask Hgw Hmac Hb4 Hb6.
  unfold setInterfaceNetwork, setInterfaceMAC, memcpy.
  change (Z.to_nat sizeof_IP_t) with 4%nat.
  change (Z.to_nat sizeof_MAC_t) with 6%nat.
  rewrite !(firstn_octets 4) by assumption.
  rewrite (firstn_octets 6 mac) by assumption.
  rewrite (bind_some _ _ _ _ _ (regInterfaceAddress_whole SourceIP true ip w)).
  cbn [interface_field fst snd].
  change (Z.to_nat sizeof_IP_t) with 4%nat.
  rewrite (firstn_octets 4 ip) by assumption.
  set (w_a := @after_bus regfile _ ip w).
  rewrite (bind_some _ _ _ _ _
             (regInterfaceAddress_whole SubnetMask true mask w_a)).
  cbn [interface_field fst snd].
  change (Z.to_nat sizeof_IP_t) with 4%nat.
  rewrite (firstn_octets 4 mask) by assumption.
  set (w_b := @after_bus regfile _ mask w_a).
  rewrite (bind_some _ _ _ _ _
             (regInterfaceAddress_whole GatewayIP true gw w_b)).
  cbn [interface_field fst snd].
  change (Z.to_nat sizeof_IP_t) with 4%nat.
  rewrite (firstn_octets 4 gw) by assumption.
  set (w1 := @after_bus regfile _ gw w_b).
  exists w1.
  rewrite (bind_some _ _ _ _ _
             (regInterfaceAddress_whole SourceMAC true mac w1)).
  cbn [interface_field fst snd].
  change (Z.to_nat sizeof_MAC_t) with 6%nat.
  rewrite (firstn_octets 6 mac) by assumption.
  set (w2 := @after_bus regfile _ mac w1).
  exists w2. split; [reflexivity|]. split; [reflexivity|].
  assert (Hmem : mem (dev w2)
                 = store_seq (store_seq (store_seq (store_seq (mem (dev w))
                     0 0x0F ip) 0 0x05 mask) 0 0x01 gw) 0 0x09 mac).
  { subst w2 w1 w_b w_a.
    rewrite !regfile_write by reflexivity.
    rewrite !common_block. reflexivity. }
  destruct Hip as [Lip Bip]. destruct Hmask as [Lmask Bmask].
  destruct Hgw as [Lgw Bgw]. destruct Hmac as [Lmac Bmac].
  assert (Hread : forall select buf,
    length buf = Z.to_nat (snd (interface_field select)) ->
    exists w3,
      @regInterfaceAddress regfile select false buf
                           (snd (interface_field select)) 0 w2
      = Some (load_seq (mem (dev w2)) 0 (fst (interface_field select))
                       (length buf), w3)).
  { intros select buf Hl.
    rewrite (regInterfaceAddress_whole select false buf w2). cbv zeta.
    rewrite <- Hl, firstn_all, skipn_all, app_nil_r.
    destruct (regfile_read
                (mkFrame (fst (interface_field select)) 0 CommonReg Read)
                buf w2 eq_refl) as [Hin _].
    rewrite Hin, common_block. eexists. do 2 f_equal.
    now destruct select. }
  repeat split.
  - destruct (Hread SourceIP buf4 Hb4) as (w3 & H). exists w3.
    cbn [interface_field fst snd] in H. change sizeof_IP_t with 4 in H.
    rewrite H, Hmem, Hb4. do 2 f_equal.
    cbv [CommonOffsetAddr.source_ip CommonOffsetAddr.subnet_mask
         CommonOffsetAddr.gateway_ip CommonOffsetAddr.source_mac].
    rewrite load_store_apart by (rewrite ?Lmac; cbn; lia).
    rewrite load_store_apart by (rewrite ?Lgw; cbn; lia).
    rewrite load_store_apart by (rewrite ?Lmask; cbn; lia).
    rewrite <- Lip. rewrite load_store_same by (rewrite ?Lip; cbn; lia).
    now apply (map_u8_octets 4).
  - destruct (Hread SubnetMask buf4 Hb4) as (w3 & H). exists w3.
    cbn [interface_field fst snd] in H. change sizeof_IP_t with 4 in H.
    rewrite H, Hmem, Hb4. do 2 f_equal.
    cbv [CommonOffsetAddr.source_ip CommonOffsetAddr.subnet_mask
         CommonOffsetAddr.gateway_ip CommonOffsetAddr.source_mac].
    rewrite load_store_apart by (rewrite ?Lmac; cbn; lia).
    rewrite load_store_apart by (rewrite ?Lgw; cbn; lia).
    rewrite <- Lmask. rewrite load_store_same by (rewrite ?Lmask; cbn; lia).
    now apply (map_u8_octets 4).
  - destruct (Hread GatewayIP buf4 Hb4) as (w3 & H). exists w3.
    cbn [interface_field fst snd] in H. change sizeof_IP_t with 4 in H.
    rewrite H, Hmem, Hb4. do 2 f_equal.
    cbv [CommonOffsetAddr.source_ip CommonOffsetAddr.subnet_mask
         CommonOffsetAddr.gateway_ip CommonOffsetAddr.source_mac].
    rewrite load_store_apart by (rewrite ?Lmac; cbn; lia).
    rewrite <- Lgw. rewrite load_store_same by (rewrite ?Lgw; cbn; lia).
    now apply (map_u8_octets 4).
  - destruct (Hread SourceMAC buf6 Hb6) as (w3 & H). exists w3.
    cbn [interface_field fst snd] in H. change sizeof_MAC_t with 6 in H.
    rewrite H, Hmem, Hb6. do 2 f_equal.
    cbv [CommonOffsetAddr.source_ip CommonOffsetAddr.subnet_mask
         CommonOffsetAddr.gateway_ip CommonOffsetAddr.source_mac].
    rewrite <- Lmac. rewrite load_store_same by (rewrite ?Lmac; cbn; lia).
    now apply (map_u8_octets 6).
Qed.


Lemma regSocketAddress_whole (socket_n : Z) (select : SocketAddress)
      (write : bool) (data : list Z) (w : @World regfile) :
  let addr := fst (socket_field select) in
  let size := snd (socket_field select) in
  let f := mkFrame addr socket_n SocketReg (if write then Write else Read) in
  let out := firstn (Z.to_nat size) data in
  @regSocketAddress regfile socket_n select write data size 0 w
  = Some (@bus_in regfile f out w ++ skipn (Z.to_nat size) data,
          @after_bus regfile f out w).
Proof.
  destruct select; cbv zeta; unfold regSocketAddress, socketReg;
    cbn -[transfer Z.to_nat firstn skipn bus_in after_bus];
    rewrite transfer_eq; reflexivity.
Qed.

(** What a read window on a socket register finds in the memory. *)
Lemma regfile_socket_read (socket_n offset : Z) (out : list Z)
      (w : @World regfile) :
  0 <= socket_n ->
  @bus_in regfile (socket_read socket_n offset) out w
  = load_seq (mem (dev w)) (4 * (socket_n mod 8) + 1) (u16 offset)
             (length out).
Proof.
  intros Hn.
  destruct (regfile_read (socket_read socket_n offset) out w eq_refl)
    as [H _].
  rewrite H. unfold socket_read. rewrite socket_block by exact Hn.
  now rewrite offset_of_value.
Qed.

Lemma regfile_socket_write (socket_n offset : Z) (out : list Z)
      (w : @World regfile) :
  0 <= socket_n ->
  mem (dev (@after_bus regfile (socket_write socket_n offset) out w))
  = store_seq (mem (dev w)) (4 * (socket_n mod 8) + 1) (u16 offset) out.
Proof.
  intros Hn. rewrite regfile_write by reflexivity.
  unfold socket_write. rewrite socket_block by exact Hn.
  now rewrite offset_of_value.
Qed.

(** X15.  Over the register file a socket's end points round-trip and
    stay apart: after [setSocketSource] and [setSocketDest] on socket
    [n], [getSocketPort] gives the source port and the destination port
    that were set and [regSocketAddress] the destination IP, while the
    ports of any socket that differs from [n] modulo 8 read as before. *)
Theorem socket_endpoint_reads_back (n m source_port dest_port : Z)
        (dest_ip buf4 : list Z) (select : SocketPort) (w : @World regfile) :
  0 <= n < 256 ->
  0 <= source_port < 65536 ->
  0 <= dest_port < 65536 ->
  octets 4 dest_ip ->
  length buf4 = 4%nat ->
  exists w1 w2,
    @setSocketSource regfile n source_port w = Some (tt, w1)
    /\ @setSocketDest regfile n dest_ip dest_port w1 = Some (tt, w2)
    /\ (exists w3, @getSocketPort regfile n SourcePort w2
                   = Some (source_port, w3))
    /\ (exists w3, @getSocketPort regfile n DestinationPort w2
                   = Some (dest_port, w3))
    /\ (exists w3, @regSocketAddress regfile n DestinationIP false buf4 4 0 w2
                   = Some (dest_ip, w3))
    /\ (0 <= m < 256 -> m mod 8 <> n mod 8 ->
        option_map fst (@getSocketPort regfile m select w2)
        = option_map fst (@getSocketPort regfile m select w)).
Proof.
  intros Hn Hsp Hdp Hip Hb4.
  unfold setSocketSource, setSocketDest, memcpy.
  change (Z.to_nat sizeof_IP_t) with 4%nat.
  rewrite (firstn_octets 4 dest_ip) by assumption.
  rewrite wrSocketReg16_eq, (u16_small _ Hsp).
  set (w1 := @wrote16 regfile n SocketOffsetAddr.source_port source_port w).
  exists w1.
  rewrite (bind_some _ _ _ _ _
             (regSocketAddress_whole n DestinationIP true dest_ip w1)).
  cbn [socket_field fst snd]. change (Z.to_nat sizeof_IP_t) with 4%nat.
  rewrite (firstn_octets 4 dest_ip) by assumption.
  set (w_a := @after_bus regfile _ dest_ip w1).
  rewrite wrSocketReg16_eq, (u16_small _ Hdp).
  set (w2 := @wrote16 regfile n SocketOffsetAddr.destination_port dest_port w_a).
  exists w2. split; [reflexivity|]. split; [reflexivity|].
  set (B := 4 * (n mod 8) + 1).
  set (sp := [Z.shiftr source_port 8; Z.land source_port 255]).
  set (dp := [Z.shiftr dest_port 8; Z.land dest_port 255]).
  assert (Hmem : mem (dev w2)
                 = store_seq (store_seq (store_seq (mem (dev w))
                     B 0x04 sp) B 0x0C dest_ip) B 0x10 dp).
  { subst w2 w_a w1. unfold wrote16.
    rewrite !regfile_socket_write by lia.
    change (mkFrame SocketOffsetAddr.destination_ip n SocketReg Write)
      with (socket_write n SocketOffsetAddr.destination_ip).
    rewrite !regfile_socket_write by lia. reflexivity. }
  destruct Hip as [Lip Bip].
  pose proof (word_bytes source_port Hsp) as Hso. fold sp in Hso.
  pose proof (word_bytes dest_port Hdp) as Hdo. fold dp in Hdo.
  split; [|split; [|split]].
  - unfold getSocketPort. rewrite rdSocketReg16_eq. eexists. do 2 f_equal.
    apply word_of_bytes; [exact Hsp|].
    rewrite regfile_socket_read by lia. rewrite Hmem. fold B.
    change (u16 SocketOffsetAddr.source_port) with 0x04.
    change (length [0; 0]) with (length sp).
    rewrite load_store_apart by (rewrite ?Lip; cbn; lia).
    rewrite load_store_apart by (rewrite ?Lip; cbn; lia).
    rewrite load_store_same by (cbn; lia).
    now apply (map_u8_octets 2).
  - unfold getSocketPort. rewrite rdSocketReg16_eq. eexists. do 2 f_equal.
    apply word_of_bytes; [exact Hdp|].
    rewrite regfile_socket_read by lia. rewrite Hmem. fold B.
    change (u16 SocketOffsetAddr.destination_port) with 0x10.
    change (length [0; 0]) with (length dp).
    rewrite load_store_same by (cbn; lia).
    now apply (map_u8_octets 2).
  - change (@regSocketAddress regfile n DestinationIP false buf4 4 0 w2)
      with (@regSocketAddress regfile n DestinationIP false buf4
              (snd (socket_field DestinationIP)) 0 w2).
    rewrite (regSocketAddress_whole n DestinationIP false buf4 w2).
    cbn [socket_field fst snd]. change (Z.to_nat sizeof_IP_t) with 4%nat.
    rewrite <- Hb4, firstn_all, skipn_all, app_nil_r.
    change (mkFrame SocketOffsetAddr.destination_ip n SocketReg Read)
      with (socket_read n SocketOffsetAddr.destination_ip).
    rewrite regfile_socket_read by lia. rewrite Hmem. fold B.
    change (u16 SocketOffsetAddr.destination_ip) with 0x0C.
    rewrite Hb4, <- Lip.
    rewrite load_store_apart by (rewrite ?Lip; cbn; lia).
    rewrite load_store_same by (rewrite ?Lip; cbn; lia).
    eexists. do 2 f_equal. now apply (map_u8_octets 4).
  - intros Hm Hne.
    assert (HB : 4 * (m mod 8) + 1 <> B) by (subst B; lia).
    assert (Hsame : forall offset,
      0 <= offset -> offset + 2 <= 65536 ->
      @reg_word regfile (socket_read m offset) w2
      = @reg_word regfile (socket_read m offset) w).
    { intros offset H0 H2. unfold reg_word.
      rewrite !regfile_socket_read by lia. rewrite Hmem.
      rewrite (u16_small offset) by lia.
      subst sp dp.
      rewrite !load_store_apart by (rewrite ?Lip; cbn [length]; lia).
      reflexivity. }
    unfold getSocketPort. destruct select; rewrite !rdSocketReg16_eq;
      cbn [option_map fst]; f_equal; apply Hsame;
      unfold SocketOffsetAddr.source_port, SocketOffsetAddr.destination_port;
      lia.
Qed.

(** X16.  Over the register file the buffer sizes round-trip: after
    [setBufferSizeRx] and [setBufferSizeTx] on a socket,
    [getBufferSizeRx] gives the RX size and [getBufferSizeTx] the TX size;
    the two setters write different registers and neither disturbs the
    other. *)
Theorem buffer_sizes_read_back (n rx_kB tx_kB : Z) (w : @World regfile) :
  0 <= n < 256 ->
  0 <= rx_kB < 256 ->
  0 <= tx_kB < 256 ->
  exists w1 w2,
    @setBufferSizeRx regfile n rx_kB w = Some (tt, w1)
    /\ @setBufferSizeTx regfile n tx_kB w1 = Some (tt, w2)
    /\ (exists w3, @getBufferSizeRx regfile n w2 = Some (rx_kB, w3))
    /\ (exists w3, @getBufferSizeTx regfile n w2 = Some (tx_kB, w3)).
Proof.
  intros Hn Hrx Htx.
  unfold setBufferSizeRx, setBufferSizeTx, getBufferSizeRx, getBufferSizeTx.
  set (w1 := @after_bus regfile
               (socket_write n SocketOffsetAddr.rxbuf_size) [rx_kB] w).
  set (w2 := @after_bus regfile
               (socket_write n SocketOffsetAddr.txbuf_size) [tx_kB] w1).
  exists w1, w2.
  rewrite !wrSocketReg_eq.
  rewrite (Z.mod_small rx_kB 256 Hrx : u8 rx_kB = rx_kB).
  rewrite (Z.mod_small tx_kB 256 Htx : u8 tx_kB = tx_kB).
  split; [reflexivity|]. split; [reflexivity|].
  set (B := 4 * (n mod 8) + 1).
  assert (Hmem : mem (dev w2)
                 = store_seq (store_seq (mem (dev w)) B 0x1E [rx_kB])
                             B 0x1F [tx_kB]).
  { subst w2 w1. rewrite !regfile_socket_write by lia. reflexivity. }
  assert (Hbyte : forall offset,
    @reg_byte regfile (socket_read n offset) w2
    = nth 0 (load_seq (mem (dev w2)) B (u16 offset) 1) 0).
  { intros offset. unfold reg_byte.
    change (@indeterminate regfile) with 0.
    now rewrite regfile_socket_read by lia. }
  split.
  - rewrite rdSocketReg_eq. eexists. do 2 f_equal.
    rewrite Hbyte, Hmem.
    change (u16 SocketOffsetAddr.rxbuf_size) with 0x1E.
    rewrite (load_store_apart [tx_kB]) by (cbn; lia).
    rewrite (load_store_same [rx_kB]) by (cbn; lia).
    cbn [map nth]. unfold u8. now apply Z.mod_small.
  - rewrite rdSocketReg_eq. eexists. do 2 f_equal.
    rewrite Hbyte, Hmem.
    change (u16 SocketOffsetAddr.txbuf_size) with 0x1F.
    rewrite (load_store_same [tx_kB]) by (cbn; lia).
    cbn [map nth]. unfold u8. now apply Z.mod_small.
Qed.

End RegFileRoundTrips.

(** ** Further runs on the bench *)

Section MoreBenchRuns.

Import SpiFrame SpiFrameImpl W5500 W5500Config Mock Bench RegFileMem.

Lemma wait_for_value_conduct_witness :
  0 <= 5 < 4294967296
  /\ exists w',
       @wait_for_value regfile (status_frame 0) 0xFF 0x22 5
                       regfile_near_rollover = Some (false, w')
       /\ clock w' = 4294967299.
Proof.
  split; [lia|].
  destruct (@wait_for_value_conduct regfile (status_frame 0) 0xFF 0x22 5
              regfile_near_rollover ltac:(lia))
    as (ok & w' & evs & Hrun & _ & _ & _ & _ & Hfalse).
  assert (Hok : Some ok = Some false).
  { assert (E : option_map fst
                  (@wait_for_value regfile (status_frame 0) 0xFF 0x22 5
                                   regfile_near_rollover) = Some false)
      by (vm_compute; reflexivity).
    rewrite Hrun in E. exact E. }
  assert (Hok' : ok = false) by congruence.
  destruct (Hfalse Hok') as [Hc _].
  exists w'. rewrite Hrun, Hok'. split; [reflexivity|exact Hc].
Defined.

Lemma wait_for_value_outside_mask_witness :
  0 <= 5 < 4294967296
  /\ Z.land 0x10 0x0F <> 0x10
  /\ exists w',
       @wait_for_value regfile (status_frame 0) 0x0F 0x10 5 regfile_idle
       = Some (false, w')
       /\ clock w' = clock regfile_idle + 5.
Proof.
  split; [lia|]. split; [vm_compute; discriminate|].
  apply (@wait_for_value_outside_mask regfile); [lia|vm_compute; discriminate].
Defined.

Lemma socketClose_within_timeout_witness :
  @reg_byte chip (status_frame 0) (chip_in 0x13) = 0x13
  /\ exists w',
       @socketClose chip 0 (chip_in 0x13) = Some (tt, w')
       /\ clock w' = clock (chip_in 0x13).
Proof.
  split; [reflexivity|].
  destruct (@socketClose_within_timeout chip 0 (chip_in 0x13))
    as (w' & Hrun & _ & Hsame).
  exists w'. split; [exact Hrun|].
  apply Hsame; intros H; vm_compute in H; discriminate.
Defined.

Lemma socketOpen_within_timeouts_witness :
  Z.land (@reg_byte regfile phy_frame regfile_no_link) 0x01 = 0
  /\ exists ok w',
       @socketOpen regfile 0 TCP_Client regfile_no_link = Some (ok, w')
       /\ clock w' = clock regfile_no_link.
Proof.
  split; [reflexivity|].
  destruct (@socketOpen_within_timeouts regfile 0 TCP_Client regfile_no_link)
    as ((ok & w' & Hrun & _ & Hdown) & _).
  exists ok, w'. split; [exact Hrun|]. apply Hdown. reflexivity.
Defined.

Lemma receive_plain_spec_witness :
  0 <= 32 < 65536
  /\ 32 <= Z.of_nat (length (repeat 0 32))
  /\ (exists avail wa,
        @receiveAvailable regfile 0 regfile_datagram = Some (avail, wa)
        /\ 0 <= avail < 65536)
  /\ option_map fst
       (@receive regfile 0 (repeat 0 32) 32 false regfile_datagram)
     = Some (12, [192; 168; 0; 7; 0x13; 0x88; 0; 4; 1; 2; 3; 4]
                 ++ repeat 0 20).
Proof.
  split; [lia|]. split; [vm_compute; discriminate|].
  split; [|vm_compute; reflexivity].
  destruct (@receive_plain_spec regfile 0 (repeat 0 32) 32 regfile_datagram)
    as (avail & wa & Hrun & Hav & _); [lia | vm_compute; discriminate |].
  exists avail, wa. split; assumption.
Defined.

Lemma transfers_respect_length_witness :
  0 <= 32 < 65536
  /\ 32 <= Z.of_nat (length (repeat 0 32))
  /\ exists k data' w',
       @receive regfile 0 (repeat 0 32) 32 true regfile_datagram
       = Some ((k, data'), w')
       /\ 0 <= k <= 32
       /\ length data' = 32%nat.
Proof.
  split; [lia|]. split; [vm_compute; discriminate|].
  destruct (@transfers_respect_length regfile 0 (repeat 0 32) 32 true
              regfile_datagram)
    as (_ & k & data' & w' & Hrun & Hk & _ & Hl & _);
    [lia | vm_compute; discriminate |].
  exists k, data', w'. split; [exact Hrun|]. split; [exact Hk|exact Hl].
Defined.

Lemma header_identifies_register_witness :
  0 <= socket_n (mkFrame 0x0003 8 SocketReg Read) < 256
  /\ 0 <= socket_n (mkFrame 0x0003 0 SocketReg Read) < 256
  /\ header (mkFrame 0x0003 8 SocketReg Read)
     = header (mkFrame 0x0003 0 SocketReg Read).
Proof.
  split; [cbn; lia|]. split; [cbn; lia|].
  destruct (header_identifies_register
              (mkFrame 0x0003 8 SocketReg Read)
              (mkFrame 0x0003 0 SocketReg Read))
    as (_ & _ & _ & _ & Hiff); [cbn; lia | cbn; lia |].
  apply Hiff. repeat split.
Defined.

Lemma regInterfaceAddress_stays_in_field_witness :
  0 <= 10 < 256
  /\ 0 <= 4 < 256
  /\ 4 < snd (interface_field SourceMAC)
  /\ option_map fst
       (@regInterfaceAddress regfile SourceMAC true [1; 2; 3; 4; 5; 6] 10 4
                             regfile_idle)
     = Some [0; 0; 3; 4; 5; 6].
Proof.
  split; [lia|]. split; [lia|]. split; [vm_compute; reflexivity|].
  pose proof (proj2 (@regInterfaceAddress_stays_in_field regfile SourceMAC
                       true [1; 2; 3; 4; 5; 6] 10 4 regfile_idle
                       ltac:(lia) ltac:(lia))
                    ltac:(vm_compute; reflexivity)) as H.
  cbv zeta in H. destruct H as (Heq & _).
  rewrite Heq. vm_compute. reflexivity.
Defined.

Lemma regSocketAddress_stays_in_field_witness :
  0 <= 4 < 256
  /\ 0 <= 4 < 256
  /\ snd (socket_field DestinationIP) <= 4
  /\ @regSocketAddress regfile 2 DestinationIP true [1; 2; 3; 4] 4 4
                       regfile_idle
     = Some ([1; 2; 3; 4], regfile_idle).
Proof.
  split; [lia|]. split; [lia|]. split; [vm_compute; discriminate|].
  apply (@regSocketAddress_stays_in_field regfile 2 DestinationIP true
           [1; 2; 3; 4] 4 4 regfile_idle); [lia | lia |].
  vm_compute. discriminate.
Defined.

Lemma phyStatus_link_bit_witness :
  exists v w0,
    @phyStatus regfile regfile_no_link = Some (v, w0)
    /\ Z.land v 1 = 0
    /\ @socketOpen regfile 0 UDP regfile_no_link = Some (false, w0).
Proof.
  destruct (@phyStatus_link_bit regfile 0 UDP regfile_no_link)
    as (v & w0 & Hrun & _ & _ & Hv & Hdown).
  assert (Hbit : Z.land v 1 = 0) by (rewrite Hv; reflexivity).
  exists v, w0. split; [exact Hrun|]. split; [exact Hbit|].
  exact (Hdown Hbit).
Defined.

Lemma available_on_quiet_counter_witness :
  @reg_byte regfile (status_frame 0) regfile_sending = 0x17
  /\ exists w', @sendAvailable regfile 0 regfile_sending = Some (100, w').
Proof.
  split; [reflexivity|].
  destruct (@available_on_quiet_counter regfile 0 regfile_sending)
    as (Hs & _); [left; reflexivity|].
  eexists. rewrite Hs by reflexivity. reflexivity.
Defined.

Lemma interface_addresses_read_back_witness :
  octets 4 [192; 168; 0; 10] /\ octets 4 [255; 255; 255; 0]
  /\ octets 4 [192; 168; 0; 1] /\ octets 6 [2; 0; 0; 0; 0; 1]
  /\ exists w1 w2 w3,
       @setInterfaceNetwork regfile [192; 168; 0; 10] [255; 255; 255; 0]
                            [192; 168; 0; 1] regfile_idle = Some (tt, w1)
       /\ @setInterfaceMAC regfile [2; 0; 0; 0; 0; 1] w1 = Some (tt, w2)
       /\ @regInterfaceAddress regfile SubnetMask false [0; 0; 0; 0] 4 0 w2
          = Some ([255; 255; 255; 0], w3).
Proof.
  assert (H4 : forall a b c d,
             0 <= a < 256 -> 0 <= b < 256 -> 0 <= c < 256 -> 0 <= d < 256 ->
             octets 4 [a; b; c; d])
    by (intros; split;
        [reflexivity
        |repeat (apply Forall_cons; [assumption|]); apply Forall_nil]).
  assert (H6 : octets 6 [2; 0; 0; 0; 0; 1])
    by (split; [reflexivity|repeat constructor; lia]).
  split; [apply H4; lia|]. split; [apply H4; lia|].
  split; [apply H4; lia|]. split; [exact H6|].
  destruct (interface_addresses_read_back
              [192; 168; 0; 10] [255; 255; 255; 0] [192; 168; 0; 1]
              [2; 0; 0; 0; 0; 1] [0; 0; 0; 0] [0; 0; 0; 0; 0; 0] regfile_idle)
    as (w1 & w2 & H1 & H2 & _ & (w3 & Hm) & _);
    try (apply H4; lia); try exact H6; try reflexivity.
  exists w1, w2, w3. repeat split; assumption.
Defined.

Lemma socket_endpoint_reads_back_witness :
  0 <= 3 < 256 /\ 0 <= 5000 < 65536 /\ 0 <= 80 < 65536
  /\ octets 4 [10; 0; 0; 7]
  /\ exists w1 w2 w3,
       @setSocketSource regfile 3 5000 regfile_idle = Some (tt, w1)
       /\ @setSocketDest regfile 3 [10; 0; 0; 7] 80 w1 = Some (tt, w2)
       /\ @getSocketPort regfile 3 SourcePort w2 = Some (5000, w3).
Proof.
  assert (Ho : octets 4 [10; 0; 0; 7])
    by (split; [reflexivity|repeat constructor; lia]).
  split; [lia|]. split; [lia|]. split; [lia|]. split; [exact Ho|].
  destruct (socket_endpoint_reads_back 3 0 5000 80 [10; 0; 0; 7]
              [0; 0; 0; 0] SourcePort regfile_idle)
    as (w1 & w2 & H1 & H2 & (w3 & Hs) & _);
    try lia; try exact Ho; try reflexivity.
  exists w1, w2, w3. repeat split; assumption.
Defined.

Lemma buffer_sizes_read_back_witness :
  0 <= 7 < 256 /\ 0 <= 4 < 256 /\ 0 <= 8 < 256
  /\ exists w1 w2 w3 w4,
       @setBufferSizeRx regfile 7 4 regfile_idle = Some (tt, w1)
       /\ @setBufferSizeTx regfile 7 8 w1 = Some (tt, w2)
       /\ @getBufferSizeRx regfile 7 w2 = Some (4, w3)
       /\ @getBufferSizeTx regfile 7 w2 = Some (8, w4).
Proof.
  split; [lia|]. split; [lia|]. split; [lia|].
  destruct (buffer_sizes_read_back 7 4 8 regfile_idle)
    as (w1 & w2 & H1 & H2 & (w3 & Hr) & (w4 & Ht)); try lia.
  exists w1, w2, w3, w4. repeat split; assumption.
Defined.

End MoreBenchRuns.
